(** * StockChain: the ledger engine of [server/blockchain.py] and the
      handlers of [server/server.py] that drive it.

    The engine is a Python class whose state is a chain of blocks, a pool of
    pending transactions and a directory of JSON files.  Blocks and
    transactions are Python dictionaries; they are embedded as JSON values
    with dictionaries kept as association lists in insertion order.  Methods
    become functions in a state-and-exception monad: a Python exception
    leaves whatever was written before it was raised. *)

From Stdlib Require Import ZArith List String Ascii Bool Lia.
From Stdlib Require Import DecimalString DecimalPos DecimalZ Permutation Sorted.
Import ListNotations.
Set Warnings "-register-all".
Local Open Scope string_scope.
Local Open Scope list_scope.
Local Open Scope Z_scope.

(** ** hashlib.sha256

    The digest the engine takes from [hashlib] is SHA-256 (FIPS 180-4),
    on 32-bit words kept as [Z] with the wrap-around written out. *)

Module SHA256.

Definition mask32 : Z := 0xffffffff.
Definition add32 (x y : Z) : Z := Z.land (x + y) mask32.
Definition rotr (n x : Z) : Z :=
  Z.lor (Z.shiftr x n) (Z.land (Z.shiftl x (32 - n)) mask32).
Definition not32 (x : Z) : Z := Z.lxor x mask32.

Definition Ch (x y z : Z) : Z := Z.lxor (Z.land x y) (Z.land (not32 x) z).
Definition Maj (x y z : Z) : Z :=
  Z.lxor (Z.lxor (Z.land x y) (Z.land x z)) (Z.land y z).
Definition bsig0 (x : Z) : Z := Z.lxor (Z.lxor (rotr 2 x) (rotr 13 x)) (rotr 22 x).
Definition bsig1 (x : Z) : Z := Z.lxor (Z.lxor (rotr 6 x) (rotr 11 x)) (rotr 25 x).
Definition ssig0 (x : Z) : Z := Z.lxor (Z.lxor (rotr 7 x) (rotr 18 x)) (Z.shiftr x 3).
Definition ssig1 (x : Z) : Z := Z.lxor (Z.lxor (rotr 17 x) (rotr 19 x)) (Z.shiftr x 10).

(** The first 64 primes. *)
Definition primes : list Z :=
  [ 2; 3; 5; 7; 11; 13; 17; 19; 23; 29; 31; 37; 41; 43; 47; 53; 59; 61; 67;
    71; 73; 79; 83; 89; 97; 101; 103; 107; 109; 113; 127; 131; 137; 139;
    149; 151; 157; 163; 167; 173; 179; 181; 191; 193; 197; 199; 211; 223;
    227; 229; 233; 239; 241; 251; 257; 263; 269; 271; 277; 281; 283; 293;
    307; 311 ].

(** The integer cube root of [x], found bit by bit below bit [n]. *)
Fixpoint cube_root (n : nat) (x r : Z) : Z :=
  match n with
  | O => r
  | S n' =>
      let c := Z.lor r (Z.shiftl 1 (Z.of_nat n')) in
      if c * c * c <=? x then cube_root n' x c else cube_root n' x r
  end.

(** Round constants: the first 32 bits of the fractional part of the cube
    root of each prime. *)
Definition K : list Z :=
  Eval vm_compute in
    map (fun p => Z.land (cube_root 40 (Z.shiftl p 96) 0) mask32) primes.

(** Initial state: the same of the square roots of the first 8 primes. *)
Definition H0 : list Z :=
  Eval vm_compute in
    map (fun p => Z.land (Z.sqrt (Z.shiftl p 64)) mask32) (firstn 8 primes).

(** Padding: one bit, zeros up to 56 modulo 64, the bit length on 8 bytes. *)
Definition be_bytes (n : nat) (x : Z) : list Z :=
  map (fun i => Z.land (Z.shiftr x (8 * Z.of_nat i)) 0xff) (rev (seq 0 n)).

Definition pad (msg : list Z) : list Z :=
  let len := Z.of_nat (List.length msg) in
  let zeros := Z.to_nat ((55 - len) mod 64) in
  msg ++ [0x80] ++ repeat 0 zeros ++ be_bytes 8 (8 * len).

Fixpoint be_words (bs : list Z) : list Z :=
  match bs with
  | b3 :: b2 :: b1 :: b0 :: rest =>
      (Z.shiftl b3 24 + Z.shiftl b2 16 + Z.shiftl b1 8 + b0) :: be_words rest
  | _ => []
  end.

Fixpoint chunks (n : nat) (ws : list Z) : list (list Z) :=
  match n with
  | O => []
  | S n' => match ws with
            | [] => []
            | _ => firstn 16 ws :: chunks n' (skipn 16 ws)
            end
  end.

(** Message schedule; [recent] holds the words so far, newest first. *)
Fixpoint schedule (n : nat) (recent : list Z) : list Z :=
  match n with
  | O => rev recent
  | S n' =>
      let w := add32 (add32 (ssig1 (nth 1 recent 0)) (nth 6 recent 0))
                     (add32 (ssig0 (nth 14 recent 0)) (nth 15 recent 0)) in
      schedule n' (w :: recent)
  end.

Record regs := Regs { ra : Z; rb : Z; rc : Z; rd : Z; re : Z; rf : Z; rg : Z; rh : Z }.

Definition round (r : regs) (kw : Z * Z) : regs :=
  let (k, w) := kw in
  let t1 := add32 (add32 (add32 (rh r) (bsig1 (re r))) (add32 (Ch (re r) (rf r) (rg r)) k)) w in
  let t2 := add32 (bsig0 (ra r)) (Maj (ra r) (rb r) (rc r)) in
  Regs (add32 t1 t2) (ra r) (rb r) (rc r) (add32 (rd r) t1) (re r) (rf r) (rg r).

Definition of_list (h : list Z) : regs :=
  Regs (nth 0 h 0) (nth 1 h 0) (nth 2 h 0) (nth 3 h 0)
       (nth 4 h 0) (nth 5 h 0) (nth 6 h 0) (nth 7 h 0).

Definition to_list (r : regs) : list Z :=
  [ra r; rb r; rc r; rd r; re r; rf r; rg r; rh r].

Definition compress (h : list Z) (block : list Z) : list Z :=
  let w := schedule 48 (rev block) in
  let r := fold_left round (combine K w) (of_list h) in
  map (fun p => add32 (fst p) (snd p)) (combine h (to_list r)).

Definition digest (msg : list Z) : list Z :=
  let ws := be_words (pad msg) in
  fold_left compress (chunks (List.length ws) ws) H0.

Definition hex_digit (d : Z) : ascii :=
  if d <? 10 then ascii_of_N (Z.to_N (48 + d)) else ascii_of_N (Z.to_N (87 + d)).

Definition hex_byte (b : Z) : string :=
  String (hex_digit (Z.shiftr b 4)) (String (hex_digit (Z.land b 15)) EmptyString).

(** [s.encode()]: UTF-8, a character of a [string] being a code point
    below 256. *)
Definition utf8 (c : ascii) : list Z :=
  let n := Z.of_N (N_of_ascii c) in
  if n <? 128 then [n] else [Z.lor 0xc0 (Z.shiftr n 6); Z.lor 0x80 (Z.land n 63)].

Definition encode (s : string) : list Z :=
  flat_map utf8 (list_ascii_of_string s).

(** [hashlib.sha256(s.encode()).hexdigest()] *)
Definition hexdigest (s : string) : string :=
  String.concat EmptyString
    (map hex_byte (flat_map (be_bytes 4) (digest (encode s)))).

End SHA256.


(** ** Python values

    The values the engine handles are those of JSON documents: blocks and
    transactions are dictionaries with string keys, read from and written
    to JSON files.  A [string] is a sequence of code points below 256.
    Floating-point numbers do not occur. *)

Inductive value : Type :=
| JNull
| JBool (b : bool)
| JInt (n : Z)
| JStr (s : string)
| JList (l : list value)
| JDict (d : list (string * value)).

(** A dictionary in insertion order, as [dict] keeps it. *)
Definition dict : Type := list (string * value).

Section Assoc.
Context {A : Type}.

(** [k in d] *)
Definition assoc_mem (k : string) (d : list (string * A)) : bool :=
  existsb (fun kv => String.eqb k (fst kv)) d.

(** [d.get(k)] *)
Fixpoint assoc_get (k : string) (d : list (string * A)) : option A :=
  match d with
  | [] => None
  | (k', v) :: d' => if String.eqb k k' then Some v else assoc_get k d'
  end.

(** [d[k] = v]: an existing key keeps its place, a new one goes last. *)
Fixpoint assoc_set (k : string) (v : A) (d : list (string * A)) : list (string * A) :=
  match d with
  | [] => [(k, v)]
  | (k', v') :: d' =>
      if String.eqb k k' then (k', v) :: d' else (k', v') :: assoc_set k v d'
  end.

(** [d.pop(k, None)], the popped value dropped. *)
Definition assoc_pop (k : string) (d : list (string * A)) : list (string * A) :=
  filter (fun kv => negb (String.eqb k (fst kv))) d.

(** [sorted] on string keys: Python orders strings by code point. *)
Fixpoint insert_sorted (kv : string * A) (l : list (string * A)) : list (string * A) :=
  match l with
  | [] => [kv]
  | kv' :: l' =>
      if String.leb (fst kv) (fst kv') then kv :: l else kv' :: insert_sorted kv l'
  end.

Definition sort_items (l : list (string * A)) : list (string * A) :=
  fold_right insert_sorted [] l.
End Assoc.

(** [==] on values: [True == 1], lists are compared element by element,
    dictionaries whatever the order of their keys. *)
Fixpoint py_eq (a b : value) {struct a} : bool :=
  match a, b with
  | JNull, JNull => true
  | JBool x, JBool y => Bool.eqb x y
  | JBool x, JInt n => Z.b2z x =? n
  | JInt n, JBool x => n =? Z.b2z x
  | JInt m, JInt n => m =? n
  | JStr s, JStr t => String.eqb s t
  | JList l, JList m =>
      (fix all2 (l m : list value) {struct l} : bool :=
         match l, m with
         | [], [] => true
         | x :: l', y :: m' => py_eq x y && all2 l' m'
         | _, _ => false
         end) l m
  | JDict d, JDict e =>
      Nat.eqb (List.length d) (List.length e)
      && (fix sub (d : dict) {struct d} : bool :=
            match d with
            | [] => true
            | (k, v) :: d' =>
                match assoc_get k e with
                | Some w => py_eq v w
                | None => false
                end && sub d'
            end) d
  | _, _ => false
  end.

(** [bool(v)] *)
Definition truthy (v : value) : bool :=
  match v with
  | JNull => false
  | JBool b => b
  | JInt n => negb (n =? 0)
  | JStr s => negb (String.eqb s EmptyString)
  | JList l => negb (Nat.eqb (List.length l) 0)
  | JDict d => negb (Nat.eqb (List.length d) 0)
  end.

(** [str(n)] for an [int] *)
Definition str_of_int (n : Z) : string := NilZero.string_of_int (Z.to_int n).

(** ** json.dumps(v, sort_keys=True)

    The default separators and [ensure_ascii]: every character outside
    the printable ASCII range is escaped. *)

Definition dquote : ascii := ascii_of_N 34.
Definition backslash : ascii := ascii_of_N 92.

Definition escape_char (c : ascii) : string :=
  let n := N_of_ascii c in
  let esc (x : string) := String backslash x in
  if (n =? 34)%N then esc (String dquote EmptyString)
  else if (n =? 92)%N then esc (String backslash EmptyString)
  else if (n =? 10)%N then esc "n"
  else if (n =? 13)%N then esc "r"
  else if (n =? 9)%N then esc "t"
  else if (n =? 8)%N then esc "b"
  else if (n =? 12)%N then esc "f"
  else if ((32 <=? n) && (n <=? 126))%N then String c EmptyString
  else esc (String.append "u00" (SHA256.hex_byte (Z.of_N n))).

Definition encode_basestring_ascii (s : string) : string :=
  String dquote
    (String.append
       (String.concat EmptyString (map escape_char (list_ascii_of_string s)))
       (String dquote EmptyString)).

Fixpoint json_dumps (v : value) : string :=
  match v with
  | JNull => "null"
  | JBool true => "true"
  | JBool false => "false"
  | JInt n => str_of_int n
  | JStr s => encode_basestring_ascii s
  | JList l =>
      String.append "[" (String.append (String.concat ", " (map json_dumps l)) "]")
  | JDict d =>
      let items := map (fun kv : string * value => let (k, w) := kv in (k, json_dumps w)) d in
      let item (kv : string * string) :=
        String.append (encode_basestring_ascii (fst kv)) (String.append ": " (snd kv)) in
      String.append "{" (String.append (String.concat ", " (map item (sort_items items))) "}")
  end.

(** ** Exceptions and the method monad *)

Inductive exn : Type :=
| KeyError (key : string)
| IndexError
| TypeError
| ValueError (msg : string)
| UnboundLocalError (name : string)
| JSONDecodeError
| OSError (errno : string).

(** What a call does: it returns, it raises, or it leaves the embedding.
    [Beyond] stands for a loop that has used up its fuel and for the
    places where the embedding gives no value: the [repr] of a list or
    dictionary inside an f-string, a proof of work that is not an [int],
    and a block file that holds a JSON document other than an object
    (the chain is a list of dictionaries). *)
Inductive outcome (A : Type) : Type :=
| Ret (a : A)
| Raise (e : exn)
| Beyond.
Arguments Ret {A} a.
Arguments Raise {A} e.
Arguments Beyond {A}.

Definition obind {A B : Type} (o : outcome A) (k : A -> outcome B) : outcome B :=
  match o with
  | Ret a => k a
  | Raise e => Raise e
  | Beyond => Beyond
  end.

(** A method of an object with state [S]: the state it leaves is kept when
    it raises. *)
Definition M (S A : Type) : Type := S -> outcome A * S.

Definition ret {S A : Type} (a : A) : M S A := fun s => (Ret a, s).
Definition raise {S A : Type} (e : exn) : M S A := fun s => (Raise e, s).
Definition lift {S A : Type} (o : outcome A) : M S A := fun s => (o, s).
Definition get {S : Type} : M S S := fun s => (Ret s, s).
Definition put {S : Type} (s : S) : M S unit := fun _ => (Ret tt, s).

Definition bind {S A B : Type} (m : M S A) (k : A -> M S B) : M S B :=
  fun s =>
    match m s with
    | (Ret a, s') => k a s'
    | (Raise e, s') => (Raise e, s')
    | (Beyond, s') => (Beyond, s')
    end.

Declare Scope method_scope.
Delimit Scope method_scope with method.
Notation "x <- m ;; k" := (bind m (fun x => k))
  (at level 61, m at next level, right associativity) : method_scope.
Notation "m ;; k" := (bind m (fun _ => k))
  (at level 61, right associativity) : method_scope.
Notation "x <~ o ;; k" := (obind o (fun x => k))
  (at level 61, o at next level, right associativity).

(** ** Python primitives on values *)

(** [v[key]] for a string key *)
Definition subscript (v : value) (key : string) : outcome value :=
  match v with
  | JDict d =>
      match assoc_get key d with
      | Some w => Ret w
      | None => Raise (KeyError key)
      end
  | _ => Raise TypeError
  end.

(** [needle in s] for two strings *)
Fixpoint contains (needle s : string) : bool :=
  String.prefix needle s
  || match s with
     | EmptyString => false
     | String _ s' => contains needle s'
     end.

(** [key in v] for a string key *)
Definition py_in (key : string) (v : value) : outcome bool :=
  match v with
  | JDict d => Ret (assoc_mem key d)
  | JList l => Ret (existsb (fun x => py_eq x (JStr key)) l)
  | JStr s => Ret (contains key s)
  | _ => Raise TypeError
  end.

(** The elements [for x in v] goes through *)
Definition py_iter (v : value) : outcome (list value) :=
  match v with
  | JList l => Ret l
  | JStr s => Ret (map (fun c => JStr (String c EmptyString)) (list_ascii_of_string s))
  | JDict d => Ret (map (fun kv => JStr (fst kv)) d)
  | _ => Raise TypeError
  end.

(** [f"{v}"] *)
Definition format (v : value) : outcome string :=
  match v with
  | JNull => Ret "None"
  | JBool true => Ret "True"
  | JBool false => Ret "False"
  | JInt n => Ret (str_of_int n)
  | JStr s => Ret s
  | JList _ | JDict _ => Beyond
  end.

(** [v + 1] *)
Definition add_one (v : value) : outcome value :=
  match v with
  | JInt n => Ret (JInt (n + 1))
  | JBool b => Ret (JInt (Z.b2z b + 1))
  | _ => Raise TypeError
  end.

(** [s.endswith(suffix)] *)
Definition endswith (s suffix : string) : bool :=
  let n := String.length s in
  let m := String.length suffix in
  (m <=? n)%nat && String.eqb (String.substring (n - m) m s) suffix.

(** ** The ledger engine: class Blockchain

    [blockchain_dir] is the content of the directory of that name, by
    file name.  [json.dump] followed by [json.load] gives back an equal
    document for the values above, so a file that was written out is
    kept as the document it holds; a file can also hold text that
    [json.load] does not take (an empty or a truncated file, text that
    is not JSON).

    A write to the directory can fail: the operating system may refuse
    to open the file (no permission, no directory, no space), or the
    file is opened, and so emptied, and the dump fails before the
    document is out.  [writes] lists what happens to the writes to
    come, in their order; past its end every write is taken.

    The clock is read outside: a method that stamps a block takes the
    formatted time [now] of its call. *)

Inductive file : Type :=
| Json (document : value)
| NotJson.

Inductive write : Type :=
| Taken
| Refused
| Broken.

Record Blockchain : Type := mkBlockchain {
  chain : list dict;
  current_transactions : list value;
  blockchain_dir : list (string * file);
  writes : list write
}.

(** The file [json.dump(block, f, indent=4)] leaves *)
Definition stored (block : dict) : file := Json (JDict block).

Definition set_chain (c : list dict) (s : Blockchain) : Blockchain :=
  mkBlockchain c (current_transactions s) (blockchain_dir s) (writes s).
Definition set_current_transactions (p : list value) (s : Blockchain) : Blockchain :=
  mkBlockchain (chain s) p (blockchain_dir s) (writes s).

Local Open Scope method_scope.

(** [self.chain[i]] for [i >= 0] *)
Definition chain_at (i : nat) : M Blockchain dict :=
  s <- get ;;
  match nth_error (chain s) i with
  | Some b => ret b
  | None => raise IndexError
  end.

(** [self.chain[i] = b], also what a write into the dictionary
    [self.chain[i]] does to the chain. *)
Fixpoint list_set {A : Type} (i : nat) (x : A) (l : list A) : list A :=
  match l, i with
  | [], _ => []
  | _ :: l', O => x :: l'
  | y :: l', S i' => y :: list_set i' x l'
  end.

(** [last_block]: [None] when the chain is empty *)
Definition last_block : M Blockchain (option dict) :=
  s <- get ;; ret (last (map Some (chain s)) None).

(** [hash(block)] *)
Definition hash (block : dict) : string :=
  let block_copy := assoc_pop "hash" block in
  let block_string := json_dumps (JDict block_copy) in
  SHA256.hexdigest block_string.
Arguments hash : simpl never.

(** The directory after [open(file_path, 'w')] and [json.dump], as the
    write goes: the [except] branch of [save_block_to_json] leaves the
    directory as the failure left it. *)
Definition written (w : write) (filename : string) (block : dict)
  (dir : list (string * file)) : list (string * file) :=
  match w with
  | Taken => assoc_set filename (stored block) dir
  | Refused => dir
  | Broken => assoc_set filename NotJson dir
  end.

(** [save_block_to_json(block)]: the file name is built before the
    [try]; a write that fails is caught, reported with [print], and the
    call returns. *)
Definition save_block_to_json (block : dict) : M Blockchain unit :=
  index <- lift (subscript (JDict block) "index") ;;
  name <- lift (format index) ;;
  let block_filename := String.append "block_" (String.append name ".json") in
  s <- get ;;
  put (mkBlockchain (chain s) (current_transactions s)
         (written (hd Taken (writes s)) block_filename block (blockchain_dir s))
         (tl (writes s))).

(** The loop of [load_chain_from_json] over the sorted file names:
    [json.load] raises on a file that is not JSON.  A document that is
    no object would be appended as it is, a block that is no
    dictionary; the chain of the embedding holds dictionaries, and the
    loop is not followed further. *)
Fixpoint load_files (filenames : list string) : M Blockchain unit :=
  match filenames with
  | [] => ret tt
  | filename :: rest =>
      if endswith filename ".json" then
        s <- get ;;
        match assoc_get filename (blockchain_dir s) with
        | Some (Json (JDict block)) =>
            put (set_chain (chain s ++ [block]) s) ;; load_files rest
        | Some (Json _) => lift Beyond
        | Some NotJson => raise JSONDecodeError
        | None => load_files rest
        end
      else load_files rest
  end.

(** [load_chain_from_json()] *)
Definition load_chain_from_json : M Blockchain unit :=
  s <- get ;;
  load_files (map fst (sort_items (blockchain_dir s))).

(** [create_genesis_block()]; [now] is the formatted time of the call. *)
Definition create_genesis_block (now : string) : M Blockchain unit :=
  let genesis_block : dict :=
    [ ("index", JInt 0);
      ("timestamp", JStr now);
      ("data", JStr "Genesis Block");
      ("previous_hash", JStr "0");
      ("proof", JInt 100) ] in
  let genesis_block := assoc_set "hash" (JStr (hash genesis_block)) genesis_block in
  s <- get ;;
  put (set_chain (chain s ++ [genesis_block]) s) ;;
  save_block_to_json genesis_block.

(** [Blockchain()] on a directory holding [dir], with the writes to
    come going as [future] says *)
Definition init (now : string) (dir : list (string * file)) (future : list write)
  : outcome unit * Blockchain :=
  (load_chain_from_json ;;
   s <- get ;;
   if Nat.eqb (List.length (chain s)) 0 then create_genesis_block now else ret tt)
    (mkBlockchain [] [] dir future).

(** [is_valid_transaction(transaction)] *)
Definition is_valid_transaction (transaction : value) : outcome bool :=
  has_op <~ py_in "operation_type" transaction ;;
  if negb has_op then Ret false else
  op <~ subscript transaction "operation_type" ;;
  if negb (existsb (fun x => py_eq x op) [JStr "buy"; JStr "sell"]) then Ret false else
  has_stock <~ py_in "stock_name" transaction ;;
  if negb has_stock then Ret false else
  stock <~ subscript transaction "stock_name" ;;
  if negb (truthy stock) then Ret false else
  Ret true.

(** [add_transaction(transaction)] *)
Definition add_transaction (transaction : value) : M Blockchain value :=
  s <- get ;;
  put (set_current_transactions (current_transactions s ++ [transaction]) s) ;;
  lb <- last_block ;;
  match lb with
  | None => raise TypeError
  | Some b => index <- lift (subscript (JDict b) "index") ;; lift (add_one index)
  end.

(** The inner loop of [is_valid_chain]: the first transaction that is not
    valid ends it. *)
Fixpoint all_valid_transactions (txs : list value) : outcome bool :=
  match txs with
  | [] => Ret true
  | transaction :: rest =>
      ok <~ is_valid_transaction transaction ;;
      if negb ok then Ret false else all_valid_transactions rest
  end.

(** The outer loop of [is_valid_chain] over the indices left to visit. *)
Fixpoint is_valid_chain_from (indices : list nat) : M Blockchain bool :=
  match indices with
  | [] => ret true
  | i :: rest =>
      current_block <- chain_at i ;;
      previous_block <- chain_at (i - 1) ;;
      ph <- lift (subscript (JDict current_block) "previous_hash") ;;
      h <- lift (subscript (JDict previous_block) "hash") ;;
      if negb (py_eq ph h) then ret false else
      data <- lift (subscript (JDict current_block) "data") ;;
      txs <- lift (py_iter data) ;;
      ok <- lift (all_valid_transactions txs) ;;
      if negb ok then ret false else is_valid_chain_from rest
  end.

(** [is_valid_chain()] *)
Definition is_valid_chain : M Blockchain bool :=
  s <- get ;;
  is_valid_chain_from (seq 1 (List.length (chain s) - 1)).

(** [self.hash(last_block) if last_block else '0'] *)
Definition calculated_previous_hash (lb : option dict) : string :=
  match lb with
  | Some b => if truthy (JDict b) then hash b else "0"
  | None => "0"
  end.

(** [create_block(proof, previous_hash)]; [JNull] is the default [None]. *)
Definition create_block (now : string) (proof previous_hash : value) : M Blockchain dict :=
  valid <- is_valid_chain ;;
  if negb valid then raise (ValueError "Cannot create a block on an invalid blockchain.") else
  lb <- last_block ;;
  let previous_hash :=
    if truthy previous_hash then previous_hash else JStr (calculated_previous_hash lb) in
  s <- get ;;
  let block : dict :=
    [ ("index", JInt (Z.of_nat (List.length (chain s))));
      ("timestamp", JStr now);
      ("data", JList (current_transactions s));
      ("previous_hash", previous_hash);
      ("proof", proof) ] in
  let block := assoc_set "hash" (JStr (hash block)) block in
  save_block_to_json block ;;
  s <- get ;;
  put (set_current_transactions [] s) ;;
  s <- get ;;
  put (set_chain (chain s ++ [block]) s) ;;
  ret block.

(** [valid_proof(last_proof, proof)] on two [int]s *)
Definition valid_proof (last_proof proof : Z) : bool :=
  let guess := String.append (str_of_int last_proof) (str_of_int proof) in
  let guess_hash := SHA256.hexdigest guess in
  String.eqb (String.substring 0 4 guess_hash) "0000".

(** The loop of [proof_of_work]; [None] when the fuel runs out. *)
Fixpoint proof_of_work_from (fuel : nat) (last_proof proof : Z) : option Z :=
  match fuel with
  | O => None
  | S fuel' =>
      if negb (valid_proof last_proof proof)
      then proof_of_work_from fuel' last_proof (proof + 1)
      else Some proof
  end.

(** [proof_of_work(last_proof)] *)
Definition proof_of_work (fuel : nat) (last_proof : Z) : option Z :=
  proof_of_work_from fuel last_proof 0.

(** The block [verify_integrity] writes over one whose link is wrong. *)
Definition relink (recalculated_previous_hash : string) (block : dict) : dict :=
  let block := assoc_set "previous_hash" (JStr recalculated_previous_hash) block in
  assoc_set "hash" (JStr (hash block)) block.

(** The loop of [verify_integrity]. *)
Fixpoint verify_integrity_from (fuel : nat) (current_block : dict) (block_index : nat)
  : M Blockchain bool :=
  match fuel with
  | O => lift Beyond
  | S fuel' =>
      s <- get ;;
      if (block_index <? List.length (chain s))%nat then
        block <- chain_at block_index ;;
        let recalculated_previous_hash := hash current_block in
        ph <- lift (subscript (JDict block) "previous_hash") ;;
        block <-
          (if negb (py_eq ph (JStr recalculated_previous_hash)) then
             _ <- lift (subscript (JDict block) "index") ;;
             let block := relink recalculated_previous_hash block in
             s <- get ;;
             put (set_chain (list_set block_index block (chain s)) s) ;;
             save_block_to_json block ;;
             ret block
           else ret block) ;;
        verify_integrity_from fuel' block (block_index + 1)
      else ret true
  end.

(** [verify_integrity()] *)
Definition verify_integrity : M Blockchain bool :=
  current_block <- chain_at 0 ;;
  s <- get ;;
  verify_integrity_from (S (List.length (chain s))) current_block 1.

(** ** The request handlers of class Server

    Only what the handlers do to the engine and what they answer is kept:
    [sent] lists the responses handed to [client_socket.send], in clear.
    The user registry is the dictionary read from [users.json]. *)

Record Server : Type := mkServer {
  blockchain : Blockchain;
  users : dict;
  sent : list string
}.

(** A call of a method of [self.blockchain] *)
Definition on_blockchain {A : Type} (m : M Blockchain A) : M Server A :=
  fun srv =>
    let (o, b) := m (blockchain srv) in
    (o, mkServer b (users srv) (sent srv)).

(** [client_socket.send(Encryption.encrypt_message(self.private_key, response))] *)
Definition send (response : string) : M Server unit :=
  fun srv => (Ret tt, mkServer (blockchain srv) (users srv) (sent srv ++ [response])).

(** [command_parts[i]] *)
Definition part (command_parts : list string) (i : nat) : M Server string :=
  match nth_error command_parts i with
  | Some p => ret p
  | None => raise IndexError
  end.

(** The proofs the embedding follows are [int]s. *)
Definition as_int (v : value) : outcome Z :=
  match v with
  | JInt n => Ret n
  | _ => Beyond
  end.

Definition invalid_transaction_response : string :=
  String.append "Invalid transaction. Ensure operation type is "
    (String dquote (String.append "buy"
      (String dquote (String.append " or "
        (String dquote (String.append "sell" (String dquote "."))))))).

(** [handle_add_transaction(command_parts, client_socket)]; [fuel] bounds
    the proof-of-work search. *)
Definition handle_add_transaction (now : string) (fuel : nat) (command_parts : list string)
  : M Server unit :=
  username <- part command_parts 0 ;;
  srv <- get ;;
  if negb (assoc_mem username (users srv)) then send "Username not registered" else
  client_id <- lift (subscript (JDict (users srv)) username) ;;
  operation_type <- part command_parts 1 ;;
  stock_name <- part command_parts 2 ;;
  let transaction :=
    JDict [ ("user_id", client_id);
            ("operation_type", JStr operation_type);
            ("stock_name", JStr stock_name) ] in
  ok <- lift (is_valid_transaction transaction) ;;
  if negb ok then send invalid_transaction_response else
  _ <- on_blockchain (add_transaction transaction) ;;
  lb <- on_blockchain last_block ;;
  match lb with
  | None => raise TypeError
  | Some last_block =>
      last_proof <- lift (subscript (JDict last_block) "proof") ;;
      last_proof <- lift (as_int last_proof) ;;
      match proof_of_work fuel last_proof with
      | None => lift Beyond
      | Some proof =>
          let previous_hash := hash last_block in
          _ <- on_blockchain (create_block now (JInt proof) (JStr previous_hash)) ;;
          send "Transaction added"
      end
  end.

(** [handle_verify_integrity(client_socket)]: [response] is bound on one
    branch only. *)
Definition handle_verify_integrity : M Server unit :=
  is_valid <- on_blockchain verify_integrity ;;
  let response :=
    if is_valid then Some "The blockchain is valid and has not been altered." else None in
  match response with
  | Some r => send r
  | None => raise (UnboundLocalError "response")
  end.

(** ** Reading the loops as functions of the chain *)

(** One turn of the loop of [is_valid_chain] at index [i]: [Ret true]
    when the loop goes on. *)
Definition check_block (c : list dict) (i : nat) : outcome bool :=
  match nth_error c i, nth_error c (i - 1) with
  | Some current_block, Some previous_block =>
      ph <~ subscript (JDict current_block) "previous_hash" ;;
      h <~ subscript (JDict previous_block) "hash" ;;
      if negb (py_eq ph h) then Ret false else
      data <~ subscript (JDict current_block) "data" ;;
      txs <~ py_iter data ;;
      all_valid_transactions txs
  | _, _ => Raise IndexError
  end.

Fixpoint check_from (c : list dict) (indices : list nat) : outcome bool :=
  match indices with
  | [] => Ret true
  | i :: rest =>
      ok <~ check_block c i ;;
      if negb ok then Ret false else check_from c rest
  end.

(** [chain[i].previous_hash == chain[i-1].hash], on the stored fields *)
Definition link_holds (c : list dict) (i : nat) : Prop :=
  exists current_block previous_block ph h,
    nth_error c i = Some current_block
    /\ nth_error c (i - 1) = Some previous_block
    /\ assoc_get "previous_hash" current_block = Some ph
    /\ assoc_get "hash" previous_block = Some h
    /\ py_eq ph h = true.

(** Every transaction the loop finds in the data of a block is valid. *)
Definition data_valid (block : dict) : Prop :=
  exists data txs,
    assoc_get "data" block = Some data
    /\ py_iter data = Ret txs
    /\ Forall (fun transaction => is_valid_transaction transaction = Ret true) txs.

(** ** What the specification says of [create_block] and [add_transaction] *)

(** [chain[-1].previous_hash == H(chain[-2])] *)
Definition links_to_predecessor (c : list dict) : Prop :=
  exists i block previous_block,
    List.length c = S (S i)
    /\ nth_error c (S i) = Some block
    /\ nth_error c i = Some previous_block
    /\ assoc_get "previous_hash" block = Some (JStr (hash previous_block)).

(** A successful [create_block] appends one block that carries the index,
    the pool and its own hash, links it to the block before it and
    empties the pool. *)
Definition create_block_links (now : string) (proof previous_hash : value) (s : Blockchain)
  : Prop :=
  forall block s',
    create_block now proof previous_hash s = (Ret block, s') ->
    chain s' = chain s ++ [block]
    /\ assoc_get "index" block = Some (JInt (Z.of_nat (List.length (chain s))))
    /\ assoc_get "data" block = Some (JList (current_transactions s))
    /\ assoc_get "hash" block = Some (JStr (hash (assoc_pop "hash" block)))
    /\ links_to_predecessor (chain s')
    /\ current_transactions s' = [].

(** With a falsy [previous_hash] argument the new block carries the hash
    of the last block. *)
Definition defaults_to_last_hash (now : string) (proof previous_hash : value)
  (s : Blockchain) : Prop :=
  truthy previous_hash = false ->
  forall lb block s',
    fst (last_block s) = Ret (Some lb) ->
    create_block now proof previous_hash s = (Ret block, s') ->
    assoc_get "previous_hash" block = Some (JStr (hash lb)).

(** [add_transaction] leaves the pool as it was when the transaction is
    not valid. *)
Definition add_transaction_rejects (transaction : value) (s : Blockchain) : Prop :=
  is_valid_transaction transaction <> Ret true ->
  current_transactions (snd (add_transaction transaction s)) = current_transactions s.

(** ** Engines to run the methods on *)

Definition example_now : string := "2024-01-01 00:00:00".

(** The engine built on an empty directory. *)
Definition genesis_engine : Blockchain := snd (init example_now [] []).

(** The engine built on a directory whose one file, [block_0.json],
    holds the empty object. *)
Definition empty_block_engine : Blockchain :=
  snd (init example_now [("block_0.json", stored [])] []).

(** The engine built on an empty directory, when the write of the
    genesis block is taken and the next write is refused. *)
Definition failing_engine : Blockchain :=
  snd (init example_now [] [Taken; Refused]).

(** A block created with a previous hash of the caller's own. *)
Definition forked_engine : Blockchain :=
  snd (create_block example_now (JInt 1) (JStr "abc") genesis_engine).

Definition hold_transaction : value :=
  JDict [("user_id", JStr "1"); ("operation_type", JStr "hold"); ("stock_name", JStr "AAPL")].

Definition buy_transaction : value :=
  JDict [("user_id", JStr "1"); ("operation_type", JStr "buy"); ("stock_name", JStr "AAPL")].

(** ** What the specification says of [is_valid_chain] *)

(** Every block from index 1 on carries the stored hash of the block
    before it. *)
Definition chain_linked (c : list dict) : Prop :=
  forall i, (1 <= i < List.length c)%nat -> link_holds c i.

(** [is_valid_chain] is true exactly when the chain is linked and the
    transactions of every block are valid. *)
Definition is_valid_chain_checks_every_block (s : Blockchain) : Prop :=
  fst (is_valid_chain s) = Ret true
  <-> chain_linked (chain s) /\ Forall data_valid (chain s).

(** A first block that was written into the directory by hand: it holds
    a transaction that is not valid. *)
Definition tampered_block : dict :=
  let body : dict :=
    [ ("index", JInt 0); ("timestamp", JStr example_now);
      ("data", JList [hold_transaction]); ("previous_hash", JStr "0");
      ("proof", JInt 100) ] in
  assoc_set "hash" (JStr (hash body)) body.

Definition tampered_engine : Blockchain :=
  snd (init example_now [("block_0.json", stored tampered_block)] []).

(** ** Reading [verify_integrity] as a function of the chain *)

(** The test of [verify_integrity]: [block] carries the recomputed hash
    of [previous_block]. *)
Definition linked (previous_block block : dict) : bool :=
  match assoc_get "previous_hash" block with
  | Some ph => py_eq ph (JStr (hash previous_block))
  | None => false
  end.

(** The blocks the loop leaves behind [current_block]. *)
Fixpoint repair (current_block : dict) (rest : list dict) : list dict :=
  match rest with
  | [] => []
  | block :: rest' =>
      let block' :=
        if linked current_block block then block
        else relink (hash current_block) block in
      block' :: repair block' rest'
  end.

(** Every block carries the recomputed hash of the one before it. *)
Fixpoint chain_links (current_block : dict) (rest : list dict) : Prop :=
  match rest with
  | [] => True
  | block :: rest' => linked current_block block = true /\ chain_links block rest'
  end.

(** The fields [verify_integrity] reads in a block: a previous hash and
    an integer index. *)
Definition has_link_fields (block : dict) : Prop :=
  (exists ph, assoc_get "previous_hash" block = Some ph)
  /\ (exists n, assoc_get "index" block = Some (JInt n)).

(** A server whose chain has a broken link, and no client yet. *)
Definition forked_server : Server := mkServer forked_engine [] [].

(** ** Saving a chain and loading it again *)

(** The directory after [save_block_to_json] on every block of [c] in
    turn, from an empty directory, when every write is taken. *)
Definition save_all (c : list dict) : list (string * file) :=
  blockchain_dir
    (fold_left (fun s block => snd (save_block_to_json block s)) c (mkBlockchain [] [] [] [])).

(** The chain [load_chain_from_json] builds from a directory. *)
Definition load (dir : list (string * file)) : list dict :=
  chain (snd (load_chain_from_json (mkBlockchain [] [] dir []))).

(** The blocks of the files of [dir] named in [filenames], for the files
    whose name ends in ".json" and that hold an object. *)
Definition objects (dir : list (string * file)) (filenames : list string) : list dict :=
  flat_map
    (fun filename =>
       if endswith filename ".json" then
         match assoc_get filename dir with
         | Some (Json (JDict block)) => [block]
         | _ => []
         end
       else [])
    filenames.

(** Every file of [dir] whose name ends in ".json" holds an object. *)
Definition holds_objects (dir : list (string * file)) : Prop :=
  forall filename f,
    endswith filename ".json" = true ->
    assoc_get filename dir = Some f -> exists block, f = stored block.

(** The blocks of [c] carry the indices 0, 1, 2, ... in this order. *)
Definition indexed (c : list dict) : Prop :=
  map (assoc_get "index") c
  = map (fun i => Some (JInt (Z.of_nat i))) (seq 0 (List.length c)).

(** [n] more blocks, each one created with the default previous hash. *)
Fixpoint grow (n : nat) (s : Blockchain) : Blockchain :=
  match n with
  | O => s
  | S n' => snd (create_block example_now (JInt 1) JNull (grow n' s))
  end.

(** A chain of eleven blocks. *)
Definition eleven_blocks : list dict := chain (grow 10 genesis_engine).

(** The name of the file of the block with index [i]. *)
Definition block_filename (i : nat) : string :=
  String.append "block_" (String.append (str_of_int (Z.of_nat i)) ".json").

(** ** The engines the methods are called on *)

(** A file that holds a block with the fields [verify_integrity]
    reads. *)
Definition block_file (f : string * file) : Prop :=
  exists block, snd f = stored block /\ has_link_fields block.

(** The chain is not empty, and every block of the chain has the fields
    [verify_integrity] reads. *)
Definition engine_ok (s : Blockchain) : Prop :=
  chain s <> []
  /\ Forall has_link_fields (chain s).

(** The engines that the constructor and the methods lead to, from a
    directory whose files hold blocks, whatever happens to the writes. *)
Inductive reachable : Blockchain -> Prop :=
| reachable_init (now : string) (dir : list (string * file)) (future : list write) :
    Forall block_file dir ->
    reachable (snd (init now dir future))
| reachable_add_transaction (transaction : value) (s : Blockchain) :
    reachable s -> reachable (snd (add_transaction transaction s))
| reachable_create_block (now : string) (proof previous_hash : value) (s : Blockchain) :
    reachable s -> reachable (snd (create_block now proof previous_hash s))
| reachable_verify_integrity (s : Blockchain) :
    reachable s -> reachable (snd (verify_integrity s)).

Ltac run := unfold bind, get, put, lift, ret, raise, obind in *; cbn [fst snd] in *.

(** ** Predicates for the further properties *)

(** The [hash] field of a block is the hash of the block. *)
Definition hash_stored (block : dict) : Prop :=
  assoc_get "hash" block = Some (JStr (hash block)).

(** Some block after the first holds data that [is_valid_chain] does not
    accept. *)
Definition poisoned (c : list dict) : Prop :=
  exists i block,
    (1 <= i)%nat /\ nth_error c i = Some block /\ ~ data_valid block.

(** The calls of the methods that change the engine, in any number and
    order. *)
Inductive evolves (s : Blockchain) : Blockchain -> Prop :=
| evolves_refl : evolves s s
| evolves_add_transaction (transaction : value) (s' : Blockchain) :
    evolves s s' -> evolves s (snd (add_transaction transaction s'))
| evolves_create_block (now : string) (proof previous_hash : value) (s' : Blockchain) :
    evolves s s' -> evolves s (snd (create_block now proof previous_hash s'))
| evolves_verify_integrity (s' : Blockchain) :
    evolves s s' -> evolves s (snd (verify_integrity s')).

(** Two blocks with the same fields, but for [previous_hash] and [hash]. *)
Definition same_fields (block block' : dict) : Prop :=
  forall k, k <> "previous_hash" -> k <> "hash" ->
            assoc_get k block' = assoc_get k block.

(** The order [sorted] puts dictionary items in: by key. *)
Definition key_le {A : Type} (a b : string * A) : Prop :=
  String.leb (fst a) (fst b) = true.

(** Every write to come is taken. *)
Definition all_taken (future : list write) : Prop :=
  Forall (fun w => w = Taken) future.

(** The directory holds the chain: one file per block, [block_i.json]
    for the block at position [i], in the order of creation, and each
    block carries its position as index. *)
Definition store_mirrors (s : Blockchain) : Prop :=
  blockchain_dir s
  = combine (map block_filename (seq 0 (List.length (chain s)))) (map stored (chain s))
  /\ indexed (chain s).

(** ** The other handlers of class Server

    The handlers that follow also write files: [users.json], the
    registry as [save_users] leaves it ([None] while there is no such
    file), and the files of the working directory, where the copies of
    transactions go, by name.  The working directory is not the block
    directory; it holds files and no directory whose name starts with
    "transactions_", and a write to one of its files is taken. *)

Record Host : Type := mkHost {
  server : Server;
  users_json : option dict;
  working_dir : list (string * value)
}.

(** A call of a handler that keeps to the server *)
Definition on_server {A : Type} (m : M Server A) : M Host A :=
  fun h =>
    let (o, srv) := m (server h) in
    (o, mkHost srv (users_json h) (working_dir h)).


(** [save_users()] *)
Definition save_users : M Host unit :=
  h <- get ;;
  put (mkHost (server h) (Some (users (server h))) (working_dir h)).

(** [self.users[username] = client_id] *)
Definition set_user (username : string) (client_id : value) : M Host unit :=
  h <- get ;;
  let srv := server h in
  put (mkHost (mkServer (blockchain srv) (assoc_set username client_id (users srv)) (sent srv))
         (users_json h) (working_dir h)).

(** [handle_register(username, client_socket)] *)
Definition handle_register (username : string) : M Host unit :=
  h <- get ;;
  response <-
    (if assoc_mem username (users (server h)) then ret "Username already taken"
     else
       let client_id := str_of_int (Z.of_nat (List.length (users (server h))) + 1) in
       set_user username (JStr client_id) ;;
       save_users ;;
       ret (String.append "Registered with ID: " client_id)) ;;
  on_server (send response).

(** [c in s] for a character *)
Definition has_char (c : ascii) (s : string) : bool :=
  existsb (Ascii.eqb c) (list_ascii_of_string s).

(** The part of a path before its first slash *)
Fixpoint before_slash (path : string) : string :=
  match path with
  | EmptyString => EmptyString
  | String c rest => if Ascii.eqb c "/" then EmptyString else String c (before_slash rest)
  end.

(** The exception of [open(file_path, 'w')] in the working directory,
    for a path that starts with a name: Python refuses a null
    character; the system refuses a path of more than 4095 bytes and a
    name of more than 255; a path with a slash asks for a directory,
    and its first name is either a file or not there. *)
Definition open_error (wd : list (string * value)) (file_path : string) : option exn :=
  if has_char (ascii_of_N 0) file_path then Some (ValueError "embedded null byte")
  else if (4095 <? List.length (SHA256.encode file_path))%nat
  then Some (OSError "ENAMETOOLONG")
  else if (255 <? List.length (SHA256.encode (before_slash file_path)))%nat
  then Some (OSError "ENAMETOOLONG")
  else if negb (has_char "/" file_path) then None
  else if assoc_mem (before_slash file_path) wd then Some (OSError "ENOTDIR")
  else Some (OSError "ENOENT").

(** [with open(file_path, 'w') as file: json.dump(document, file, indent=4)] *)
Definition write_file (file_path : string) (document : value) : M Host unit :=
  h <- get ;;
  match open_error (working_dir h) file_path with
  | Some e => raise e
  | None =>
      put (mkHost (server h) (users_json h) (assoc_set file_path document (working_dir h)))
  end.

(** [client_socket.send(Encryption.encrypt_message(...))] for a response
    built from a user name: OAEP under the 2048-bit key of
    [generate_keys] takes 214 bytes, and [encrypt] raises on more. *)
Definition send_bounded (response : string) : M Server unit :=
  if (List.length (SHA256.encode response) <=? 214)%nat then send response
  else raise (ValueError "Plaintext is too long.").

(** The dictionary built for a transaction found in [block] *)
Definition transaction_info (transaction : value) (block : dict) : outcome value :=
  timestamp <~ subscript (JDict block) "timestamp" ;;
  previous_hash <~ subscript (JDict block) "previous_hash" ;;
  proof <~ subscript (JDict block) "proof" ;;
  h <~ subscript (JDict block) "hash" ;;
  Ret (JDict [ ("transaction", transaction);
               ("block_info",
                JDict [ ("timestamp", timestamp);
                        ("previous_hash", previous_hash);
                        ("proof", proof);
                        ("hash", h) ]) ]).

(** [isinstance(transaction, dict) and transaction.get('user_id') == client_id] *)
Definition of_user (client_id : value) (transaction : value) : bool :=
  match transaction with
  | JDict d =>
      py_eq (match assoc_get "user_id" d with Some v => v | None => JNull end) client_id
  | _ => false
  end.

(** [isinstance(transaction, dict)] *)
Definition is_dict (transaction : value) : bool :=
  match transaction with
  | JDict _ => true
  | _ => false
  end.

(** The inner loop of the two copies, over the data of [block]: [found]
    is the list built so far. *)
Fixpoint scan_data (keep : value -> bool) (block : dict) (data : list value)
  (found : list value) : outcome (list value) :=
  match data with
  | [] => Ret found
  | transaction :: rest =>
      if keep transaction then
        info <~ transaction_info transaction block ;;
        scan_data keep block rest (found ++ [info])
      else scan_data keep block rest found
  end.

(** The outer loop, over the chain: the data of a block counts when it
    is a list. *)
Fixpoint scan_chain (keep : value -> bool) (c : list dict) (found : list value)
  : outcome (list value) :=
  match c with
  | [] => Ret found
  | block :: rest =>
      data <~ subscript (JDict block) "data" ;;
      match data with
      | JList transactions =>
          found' <~ scan_data keep block transactions found ;;
          scan_chain keep rest found'
      | _ => scan_chain keep rest found
      end
  end.

(** [copy_user_transactions(username, client_socket)] *)
Definition copy_user_transactions (username : string) : M Host unit :=
  h <- get ;;
  if negb (assoc_mem username (users (server h)))
  then on_server (send "Username not registered") else
  client_id <- lift (subscript (JDict (users (server h))) username) ;;
  user_transactions <-
    lift (scan_chain (of_user client_id) (chain (blockchain (server h))) []) ;;
  response <-
    (if truthy (JList user_transactions) then
       let file_path := String.append "transactions_" (String.append username ".json") in
       write_file file_path (JList user_transactions) ;;
       ret (String.append "Transactions copied for user "
              (String.append username (String.append " and saved to " file_path)))
     else ret "No transactions found for this user.") ;;
  on_server (send_bounded response).

(** [copy_all_transactions(client_socket)] *)
Definition copy_all_transactions : M Host unit :=
  h <- get ;;
  all_transactions <- lift (scan_chain is_dict (chain (blockchain (server h))) []) ;;
  response <-
    (if truthy (JList all_transactions) then
       let file_path := "transactions_all_users.json" in
       write_file file_path (JList all_transactions) ;;
       ret (String.append "All transactions copied and saved to " file_path)
     else ret "No transactions found.") ;;
  on_server (send response).

(** [handle_copy_transactions(command_parts, client_socket)] *)
Definition handle_copy_transactions (command_parts : list string) : M Host unit :=
  if Nat.eqb (List.length command_parts) 2 then
    username <- on_server (part command_parts 1) ;;
    copy_user_transactions username
  else if Nat.eqb (List.length command_parts) 1 then copy_all_transactions
  else on_server (send "Invalid copy command. Usage: copy [<username>]").

(** [message.split(' ')]: every space separates, so two spaces in a row
    give an empty part; the result is never empty. *)
Fixpoint split_space (message : string) : list string :=
  match message with
  | EmptyString => [EmptyString]
  | String c rest =>
      if Ascii.eqb c " " then EmptyString :: split_space rest
      else
        match split_space rest with
        | first :: others => String c first :: others
        | [] => [String c EmptyString]
        end
  end.

(** One turn of the loop of [handle_client], on the message that was
    received and decrypted. *)
Definition handle_message (now : string) (fuel : nat) (message : string) : M Host unit :=
  let command_parts := split_space message in
  command <- on_server (part command_parts 0) ;;
  if String.eqb command "register" then
    username <- on_server (part command_parts 1) ;;
    handle_register username
  else if String.eqb command "add" then
    on_server (handle_add_transaction now fuel (tl command_parts))
  else if String.eqb command "copy" then handle_copy_transactions command_parts
  else if String.eqb command "verify" then on_server handle_verify_integrity
  else on_server (send "Unknown command").

(** [handle_client(client_socket)] on the messages of a connection, each
    with the time and the fuel of its turn: an exception ends the loop. *)
Fixpoint handle_client (messages : list (string * nat * string)) : M Host unit :=
  match messages with
  | [] => ret tt
  | (now, fuel, message) :: rest =>
      handle_message now fuel message ;; handle_client rest
  end.

(** What a handler adds to the responses: one response when it returns,
    none when it does not. *)
Definition answers (before after : list string) (o : outcome unit) : Prop :=
  exists out,
    after = before ++ out
    /\ (o = Ret tt -> List.length out = 1%nat)
    /\ (o <> Ret tt -> out = []).


(** A server that has just been started on empty directories. *)
Definition fresh_host : Host := mkHost (mkServer genesis_engine [] []) None [].

(** The fields the copies read in a block. *)
Definition complete (block : dict) : Prop :=
  Forall (fun k => exists v, assoc_get k block = Some v)
    ["data"; "timestamp"; "previous_hash"; "proof"; "hash"].

(** A block as [create_block] and [create_genesis_block] leave it: it
    stores its own hash, it has a previous hash, an integer index and an
    integer proof, and the fields the copies read. *)
Definition mined (block : dict) : Prop :=
  hash_stored block
  /\ has_link_fields block
  /\ (exists proof, assoc_get "proof" block = Some (JInt proof))
  /\ complete block.

(** An engine between two requests: a chain of mined blocks that
    [is_valid_chain] accepts, and an empty pool. *)
Definition sound (s : Blockchain) : Prop :=
  chain s <> []
  /\ current_transactions s = []
  /\ Forall mined (chain s)
  /\ fst (is_valid_chain s) = Ret true.

(** An engine with a block after the first, and a server with one
    registered client on it. *)
Definition mined_engine : Blockchain :=
  snd (create_block example_now (JInt 30916) JNull genesis_engine).

Definition mined_host : Host :=
  mkHost (mkServer mined_engine [("alice", JStr "1")] [])
    (Some [("alice", JStr "1")]) [].

(** The transactions of [block] that a copy keeps: those of its data,
    when the data is a list. *)
Definition listed (keep : value -> bool) (block : dict) : list value :=
  match assoc_get "data" block with
  | Some (JList transactions) => filter keep transactions
  | _ => []
  end.

(** What a copy holds for a transaction of [block]. *)
Definition info (block : dict) (transaction : value) : value :=
  let field k := match assoc_get k block with Some v => v | None => JNull end in
  JDict [ ("transaction", transaction);
          ("block_info",
           JDict [ ("timestamp", field "timestamp");
                   ("previous_hash", field "previous_hash");
                   ("proof", field "proof");
                   ("hash", field "hash") ]) ].

(** The copy of a chain: block after block, the transactions kept, in
    the order of the data. *)
Definition copied (keep : value -> bool) (c : list dict) : list value :=
  flat_map (fun block => map (info block) (listed keep block)) c.

(** A server whose chain holds a transaction of its client. *)
Definition trading_host : Host :=
  snd (handle_client [(example_now, 3%nat, "add alice buy ACME")] mined_host).

(** A user name of a hundred letters, and a server whose chain holds a
    transaction of the client of that name. *)
Definition long_name : string := string_of_list_ascii (repeat "a"%char 100).

Definition long_name_host : Host :=
  snd (handle_client
         [ (example_now, 0%nat, String.append "register " long_name);
           (example_now, 3%nat,
            String.append "add " (String.append long_name " buy ACME")) ]
         mined_host).

(** ** class Client

    The methods of the client that talk to the server each send one
    message and wait for one response.  The socket is left out: a call
    is the message handed to [send_message], in clear, with what the
    method does once [receive_message] has returned the response. *)

Module Client.

Record Client : Type := mkClient {
  client_id : option string;
  username : option string
}.

(** [finish response c]: the client after the call, and the line it
    prints. *)
Record call : Type := mkCall {
  message : string;
  finish : string -> Client -> Client * string
}.

Definition newline : string := String (ascii_of_N 10) EmptyString.



(** [add_transaction(username, action, stock_name)] *)
Definition add_transaction (username action stock_name : string) : call :=
  mkCall
    (String.append "add "
       (String.append username
          (String.append " " (String.append action (String.append " " stock_name)))))
    (fun response c =>
       (c, String.append "Server Response: " (String.append response newline))).






End Client.



(** ** SHA-256 on the test vectors of FIPS 180-4 and on a message of two
    blocks *)

Example sha256_abc :
  SHA256.hexdigest "abc"
  = "ba7816bf8f01cfea414140de5dae2223b00361a396177a9cb410ff61f20015ad".
Proof. vm_compute. reflexivity. Qed.

Example sha256_empty :
  SHA256.hexdigest EmptyString
  = "e3b0c44298fc1c149afbf4c8996fb92427ae41e4649b934ca495991b7852b855".
Proof. vm_compute. reflexivity. Qed.

Example sha256_two_blocks :
  SHA256.hexdigest "aaaaaaaaaaaaaaaaaaaaaaaaaaaaaaaaaaaaaaaaaaaaaaaaaaaaaaaaaaaaaaaaaaaaaa"
  = "6bd5e5034855a11241f0dee8fc72850ffd9955b28347a86428b5fa19119f6ad0".
Proof. vm_compute. reflexivity. Qed.

(** ** Basic facts *)

Lemma assoc_get_set_same {A : Type} (k : string) (v : A) (d : list (string * A)) :
  assoc_get k (assoc_set k v d) = Some v.
Proof.
  induction d as [|[k' v'] d IH]; simpl.
  - now rewrite String.eqb_refl.
  - destruct (String.eqb k k') eqn:E; simpl; rewrite E; auto.
Qed.

Lemma assoc_get_set_other {A : Type} (k k' : string) (v : A) (d : list (string * A)) :
  k <> k' -> assoc_get k (assoc_set k' v d) = assoc_get k d.
Proof.
  intros Hne. induction d as [|[k0 v0] d IH]; simpl.
  - destruct (String.eqb_spec k k'); congruence.
  - destruct (String.eqb_spec k' k0); simpl.
    + subst. destruct (String.eqb_spec k k0); congruence.
    + destruct (String.eqb_spec k k0); auto.
Qed.

Lemma assoc_pop_set_same {A : Type} (k : string) (v : A) (d : list (string * A)) :
  assoc_pop k (assoc_set k v d) = assoc_pop k d.
Proof.
  unfold assoc_pop. induction d as [|[k' v'] d IH]; simpl.
  - now rewrite String.eqb_refl.
  - destruct (String.eqb k k') eqn:E; simpl; rewrite E; simpl; congruence.
Qed.


Lemma Forall_assoc_set {A : Type} (P : A -> Prop) (k : string) (v : A)
  (d : list (string * A)) :
  Forall (fun kv => P (snd kv)) d -> P v ->
  Forall (fun kv => P (snd kv)) (assoc_set k v d).
Proof.
  intros Hd Hv. induction Hd as [|[k' v'] d Hx Hd IH]; cbn.
  - now constructor.
  - destruct (String.eqb k k'); constructor; auto.
Qed.

Lemma Forall_assoc_get {A : Type} (P : A -> Prop) (k : string) (v : A)
  (d : list (string * A)) :
  Forall (fun kv => P (snd kv)) d -> assoc_get k d = Some v -> P v.
Proof.
  intros Hd. induction Hd as [|[k' v'] d Hx Hd IH]; cbn; [discriminate|].
  destruct (String.eqb k k'); [|exact IH]. now intros [= <-].
Qed.


Lemma hash_set_hash (v : value) (block : dict) :
  hash (assoc_set "hash" v block) = hash block.
Proof. unfold hash. now rewrite assoc_pop_set_same. Qed.

Lemma py_eq_str (s t : string) : py_eq (JStr s) (JStr t) = String.eqb s t.
Proof. reflexivity. Qed.

Lemma py_eq_value_str (v : value) (s : string) :
  py_eq v (JStr s) = true <-> v = JStr s.
Proof.
  destruct v as [| b | n | t | l | d]; simpl;
    try (split; [discriminate | congruence]).
  rewrite String.eqb_eq. split; congruence.
Qed.

(** ** [is_valid_chain] reads the chain and writes nothing *)


Lemma is_valid_chain_from_pure (indices : list nat) (s : Blockchain) :
  is_valid_chain_from indices s = (check_from (chain s) indices, s).
Proof.
  induction indices as [|i rest IH]; [reflexivity|].
  cbn [is_valid_chain_from check_from]. unfold check_block, chain_at. run.
  destruct (nth_error (chain s) i) as [cur|]; [|reflexivity].
  destruct (nth_error (chain s) (i - 1)) as [prev|]; [|reflexivity].
  destruct (subscript (JDict cur) "previous_hash") as [ph| |]; try reflexivity.
  destruct (subscript (JDict prev) "hash") as [h| |]; try reflexivity.
  destruct (py_eq ph h); cbn [negb]; [|reflexivity].
  destruct (subscript (JDict cur) "data") as [data| |]; try reflexivity.
  destruct (py_iter data) as [txs| |]; try reflexivity.
  destruct (all_valid_transactions txs) as [[|]| |]; cbn [negb]; try reflexivity.
  apply IH.
Qed.

Lemma is_valid_chain_pure (s : Blockchain) :
  is_valid_chain s = (check_from (chain s) (seq 1 (List.length (chain s) - 1)), s).
Proof. unfold is_valid_chain. run. apply is_valid_chain_from_pure. Qed.

(** The block [create_block] builds, before its hash is set. *)
Lemma create_block_run (now : string) (proof previous_hash : value) (s : Blockchain) :
  create_block now proof previous_hash s =
  match check_from (chain s) (seq 1 (List.length (chain s) - 1)) with
  | Ret true =>
      let ph := if truthy previous_hash then previous_hash
                else JStr (calculated_previous_hash (last (map Some (chain s)) None)) in
      let index := Z.of_nat (List.length (chain s)) in
      let body : dict :=
        [ ("index", JInt index); ("timestamp", JStr now);
          ("data", JList (current_transactions s));
          ("previous_hash", ph); ("proof", proof) ] in
      let block := body ++ [("hash", JStr (hash body))] in
      (Ret block,
       mkBlockchain (chain s ++ [block]) []
         (written (hd Taken (writes s))
            (String.append "block_" (String.append (str_of_int index) ".json"))
            block (blockchain_dir s))
         (tl (writes s)))
  | Ret false => (Raise (ValueError "Cannot create a block on an invalid blockchain."), s)
  | Raise e => (Raise e, s)
  | Beyond => (Beyond, s)
  end.
Proof.
  unfold create_block. unfold bind at 1. rewrite is_valid_chain_pure.
  destruct (check_from _ _) as [[|]| |]; try reflexivity.
Qed.

(** ** Block creation *)

(** C4: when [is_valid_chain()] is false, [create_block] raises the
    invalid-chain [ValueError] and the engine (chain, pending pool and
    block directory) is exactly as before the call. *)
Theorem create_block_invalid_chain
  (now : string) (proof previous_hash : value) (s s0 : Blockchain) :
  is_valid_chain s = (Ret false, s0) ->
  create_block now proof previous_hash s
  = (Raise (ValueError "Cannot create a block on an invalid blockchain."), s).
Proof.
  intros H. rewrite is_valid_chain_pure in H. rewrite create_block_run.
  destruct (check_from _ _) as [[|]| |]; try discriminate. reflexivity.
Qed.

Lemma create_block_invalid_chain_witness :
  is_valid_chain forked_engine = (Ret false, forked_engine)
  /\ create_block example_now (JInt 2) JNull forked_engine
     = (Raise (ValueError "Cannot create a block on an invalid blockchain."), forked_engine).
Proof.
  assert (H : is_valid_chain forked_engine = (Ret false, forked_engine))
    by (vm_compute; reflexivity).
  split; [exact H|].
  exact (create_block_invalid_chain example_now (JInt 2) JNull forked_engine forked_engine H).
Defined.

(** C9, as the code has it: a truthy [previous_hash] argument is taken
    as it is; a falsy one (the empty string, [0], [None]) gives way to
    the default, which is [hash(lb)] when the last block [lb] is a
    dictionary that is not empty, and "0" when the last block is the
    empty dictionary or there is no last block:
    [self.hash(last_block) if last_block else '0']. *)
Theorem create_block_default_previous_hash
  (now : string) (proof previous_hash : value) (s s' : Blockchain) (block : dict) :
  create_block now proof previous_hash s = (Ret block, s') ->
  (truthy previous_hash = true ->
   assoc_get "previous_hash" block = Some previous_hash)
  /\ (truthy previous_hash = false ->
      (forall lb,
          fst (last_block s) = Ret (Some lb) -> lb <> [] ->
          assoc_get "previous_hash" block = Some (JStr (hash lb)))
      /\ (fst (last_block s) = Ret (Some []) ->
          assoc_get "previous_hash" block = Some (JStr "0"))
      /\ (fst (last_block s) = Ret None ->
          assoc_get "previous_hash" block = Some (JStr "0"))).
Proof.
  intros H. rewrite create_block_run in H.
  destruct (check_from _ _) as [[|]| |]; try discriminate.
  cbv zeta in H. injection H as Hb _. subst block.
  unfold last_block. run.
  split; [intros Ht; rewrite Ht; reflexivity|].
  intros Ht. rewrite Ht. split; [|split].
  - intros lb [= ->] Hne. cbn. destruct lb; [congruence | reflexivity].
  - intros [= ->]. reflexivity.
  - intros [= ->]. reflexivity.
Qed.

Lemma last_nth_error {A : Type} (l : list A) :
  last (map Some l) None = nth_error l (List.length l - 1).
Proof.
  induction l as [|x l IH]; [reflexivity|].
  destruct l as [|y l]; [reflexivity|].
  change (last (map Some (x :: y :: l)) None) with (last (map Some (y :: l)) None).
  rewrite IH. cbn [List.length Nat.sub nth_error]. now rewrite ?Nat.sub_0_r.
Qed.

(** C2, as the code has it: a successful [create_block] appends exactly
    one block, whose index is the length of the chain before the call,
    whose data is the pending pool before the call and whose hash is the
    hash of the block without its hash field; the pool is empty
    afterwards; [chain[-1].previous_hash] is the [previous_hash] argument
    when that is truthy; otherwise it is [hash(chain[-2])] when
    [chain[-2]] is a dictionary that is not empty, and "0" when
    [chain[-2]] is the empty dictionary or the chain was empty. *)
Theorem create_block_appends
  (now : string) (proof previous_hash : value) (s s' : Blockchain) (block : dict) :
  create_block now proof previous_hash s = (Ret block, s') ->
  chain s' = chain s ++ [block]
  /\ assoc_get "index" block = Some (JInt (Z.of_nat (List.length (chain s))))
  /\ assoc_get "data" block = Some (JList (current_transactions s))
  /\ assoc_get "hash" block = Some (JStr (hash (assoc_pop "hash" block)))
  /\ current_transactions s' = []
  /\ (truthy previous_hash = true ->
      assoc_get "previous_hash" block = Some previous_hash)
  /\ (truthy previous_hash = false ->
      (forall i previous_block,
          List.length (chain s') = S (S i) ->
          nth_error (chain s') i = Some previous_block ->
          (previous_block <> [] ->
           assoc_get "previous_hash" block = Some (JStr (hash previous_block)))
          /\ (previous_block = [] ->
              assoc_get "previous_hash" block = Some (JStr "0")))
      /\ (chain s = [] -> assoc_get "previous_hash" block = Some (JStr "0"))).
Proof.
  intros H. rewrite create_block_run in H.
  destruct (check_from _ _) as [[|]| |]; try discriminate.
  cbv zeta in H. injection H as Hb Hs. subst block s'. cbn [chain current_transactions].
  split; [reflexivity|]. split; [reflexivity|]. split; [reflexivity|].
  split; [reflexivity|]. split; [reflexivity|]. split.
  - intros Ht. rewrite Ht. reflexivity.
  - intros Ht. rewrite Ht. split.
    + intros i previous_block Hlen Hnth.
      rewrite length_app in Hlen. cbn [List.length] in Hlen.
      assert (Hi : List.length (chain s) = S i) by lia.
      rewrite nth_error_app1 in Hnth by lia.
      rewrite last_nth_error, Hi. cbn [Nat.sub]. rewrite Nat.sub_0_r, Hnth.
      split; [intros Hne; cbn; destruct previous_block; [congruence | reflexivity]|].
      intros ->. reflexivity.
    + intros ->. reflexivity.
Qed.

Lemma create_block_appends_witness :
  exists block s',
    create_block example_now (JInt 7) JNull genesis_engine = (Ret block, s')
    /\ chain s' = chain genesis_engine ++ [block]
    /\ current_transactions s' = [].
Proof.
  destruct (create_block example_now (JInt 7) JNull genesis_engine) as [o s'] eqn:E.
  destruct o as [block| |];
    [| exfalso; vm_compute in E; discriminate | exfalso; vm_compute in E; discriminate].
  exists block, s'. split; [reflexivity|].
  destruct (create_block_appends example_now (JInt 7) JNull genesis_engine s' block E)
    as (Hc & _ & _ & _ & Hp & _).
  split; assumption.
Defined.

(** C2, as it is written, fails: with a [previous_hash] of the caller's
    own, the new block does not link to the block before it. *)
Lemma create_block_links_counterexample :
  ~ create_block_links example_now (JInt 1) (JStr "abc") genesis_engine.
Proof.
  intros H.
  destruct (create_block example_now (JInt 1) (JStr "abc") genesis_engine) as [o s'] eqn:E.
  destruct o as [block| |]; [| vm_compute in E; discriminate | vm_compute in E; discriminate].
  destruct (H block s') as (_ & _ & _ & _ & (i & b & p & Hlen & Hb & Hp & Hlink) & _).
  { unfold create_block_links in H. exact E. }
  vm_compute in E. injection E as Eb Es. subst s'.
  cbn [chain List.length] in Hlen. injection Hlen as Hi. subst i.
  cbn [chain nth_error] in Hb, Hp. injection Hb as Hb. injection Hp as Hp.
  subst b p. vm_compute in Hlink. discriminate.
Qed.

Lemma create_block_default_previous_hash_witness :
  (exists lb block s',
      fst (last_block genesis_engine) = Ret (Some lb)
      /\ create_block example_now (JInt 7) (JStr EmptyString) genesis_engine = (Ret block, s')
      /\ assoc_get "previous_hash" block = Some (JStr (hash lb)))
  /\ (exists block s',
        create_block example_now (JInt 7) (JStr EmptyString) empty_block_engine
        = (Ret block, s')
        /\ assoc_get "previous_hash" block = Some (JStr "0")).
Proof.
  split.
  - destruct (create_block example_now (JInt 7) (JStr EmptyString) genesis_engine)
      as [o s'] eqn:E.
    destruct o as [block| |];
      [| exfalso; vm_compute in E; discriminate E | exfalso; vm_compute in E; discriminate E].
    destruct (fst (last_block genesis_engine)) as [[lb|]| |] eqn:L;
      try (exfalso; vm_compute in L; discriminate L).
    exists lb, block, s'. split; [reflexivity|]. split; [reflexivity|].
    assert (Hne : lb <> []).
    { intros ->. vm_compute in L. discriminate L. }
    exact (proj1 (proj2 (create_block_default_previous_hash example_now (JInt 7)
                           (JStr EmptyString) genesis_engine s' block E) eq_refl)
             lb L Hne).
  - destruct (create_block example_now (JInt 7) (JStr EmptyString) empty_block_engine)
      as [o s'] eqn:E.
    destruct o as [block| |];
      [| exfalso; vm_compute in E; discriminate E | exfalso; vm_compute in E; discriminate E].
    exists block, s'. split; [reflexivity|].
    exact (proj1 (proj2 (proj2 (create_block_default_previous_hash example_now (JInt 7)
                                  (JStr EmptyString) empty_block_engine s' block E) eq_refl))
             eq_refl).
Defined.

(** C9, as it is written, fails: on the engine whose one block is the
    empty dictionary (a file [block_0.json] that holds the empty
    object), [create_block(7, '')] succeeds and the new block carries
    "0", not the hash of the last block. *)
Lemma create_block_default_counterexample :
  ~ defaults_to_last_hash example_now (JInt 7) (JStr EmptyString) empty_block_engine.
Proof.
  intros H.
  destruct (create_block example_now (JInt 7) (JStr EmptyString) empty_block_engine)
    as [o s'] eqn:E.
  destruct o as [block| |];
    [| vm_compute in E; discriminate E | vm_compute in E; discriminate E].
  assert (L : fst (last_block empty_block_engine) = Ret (Some [])) by reflexivity.
  pose proof (H eq_refl [] block s' L E) as Hlink.
  vm_compute in E. injection E as Eb _. subst block.
  vm_compute in Hlink. discriminate Hlink.
Qed.

(** ** Construction *)

(** C8: on an empty block directory the constructor returns an engine
    whose chain is the genesis block alone: index 0, data "Genesis
    Block", previous_hash "0", proof 100, and a hash that is the hash of
    the block without its hash field.  This holds whatever happens to
    the write of the block; [block_0.json] is as that write went. *)
Theorem init_empty_store (now : string) :
  exists genesis : dict,
    (forall future,
        init now [] future
        = (Ret tt,
           mkBlockchain [genesis] []
             (match hd Taken future with
              | Taken => [("block_0.json", stored genesis)]
              | Refused => []
              | Broken => [("block_0.json", NotJson)]
              end) (tl future)))
    /\ assoc_get "index" genesis = Some (JInt 0)
    /\ assoc_get "data" genesis = Some (JStr "Genesis Block")
    /\ assoc_get "previous_hash" genesis = Some (JStr "0")
    /\ assoc_get "proof" genesis = Some (JInt 100)
    /\ assoc_get "hash" genesis = Some (JStr (hash (assoc_pop "hash" genesis))).
Proof.
  set (body := [ ("index", JInt 0); ("timestamp", JStr now);
                 ("data", JStr "Genesis Block"); ("previous_hash", JStr "0");
                 ("proof", JInt 100) ] : dict).
  exists (body ++ [("hash", JStr (hash body))]).
  repeat (split; [reflexivity|]). reflexivity.
Qed.

(** ** Transaction admission *)

Lemma assoc_mem_get {A : Type} (k : string) (d : list (string * A)) :
  assoc_mem k d = match assoc_get k d with Some _ => true | None => false end.
Proof.
  unfold assoc_mem. induction d as [|[k' v] d IH]; [reflexivity|].
  cbn. destruct (String.eqb k k'); [reflexivity | exact IH].
Qed.

Lemma py_eq_str_value (s : string) (v : value) :
  py_eq (JStr s) v = true <-> v = JStr s.
Proof.
  destruct v as [| b | n | t | l | d]; cbn;
    try (split; [discriminate | congruence]).
  rewrite String.eqb_eq. split; congruence.
Qed.

(** [is_valid_transaction] on a dictionary *)
Lemma is_valid_transaction_dict (d : dict) :
  is_valid_transaction (JDict d)
  = Ret match assoc_get "operation_type" d, assoc_get "stock_name" d with
        | Some op, Some stock =>
            (py_eq (JStr "buy") op || py_eq (JStr "sell") op) && truthy stock
        | _, _ => false
        end.
Proof.
  unfold is_valid_transaction, py_in, subscript, obind.
  rewrite !assoc_mem_get.
  destruct (assoc_get "operation_type" d) as [op|]; cbn [negb]; [|reflexivity].
  cbn [existsb]. rewrite orb_false_r.
  destruct (py_eq (JStr "buy") op || py_eq (JStr "sell") op); cbn [negb andb];
    [|now destruct (assoc_get "stock_name" d)].
  destruct (assoc_get "stock_name" d) as [stock|]; cbn [negb]; [|reflexivity].
  now destruct (truthy stock).
Qed.

Lemma add_transaction_run (transaction : value) (s : Blockchain) :
  add_transaction transaction s
  = (match last (map Some (chain s)) None with
     | None => Raise TypeError
     | Some b => index <~ subscript (JDict b) "index" ;; add_one index
     end,
     set_current_transactions (current_transactions s ++ [transaction]) s).
Proof.
  unfold add_transaction, last_block. run. cbn [chain set_current_transactions].
  destruct (last (map Some (chain s)) None) as [b|]; [|reflexivity].
  destruct (subscript (JDict b) "index") as [index| |]; reflexivity.
Qed.

(** C1, as the code has it: [add_transaction] validates nothing; it
    appends every transaction to the pool and returns the index of the
    last block plus one.  The check is [is_valid_transaction], false
    whenever the operation type is not "buy" or "sell" or the stock name
    is missing or empty, and it is the add handler of the server that
    calls it first and answers without touching the engine. *)
Theorem add_transaction_appends
  (transaction : value) (s : Blockchain) (lb : dict) (n : Z) :
  fst (last_block s) = Ret (Some lb) ->
  assoc_get "index" lb = Some (JInt n) ->
  add_transaction transaction s
  = (Ret (JInt (n + 1)),
     mkBlockchain (chain s) (current_transactions s ++ [transaction]) (blockchain_dir s)
       (writes s))
  /\ (forall d : dict,
        (forall op, assoc_get "operation_type" d = Some op ->
                    op <> JStr "buy" /\ op <> JStr "sell")
        \/ (forall stock, assoc_get "stock_name" d = Some stock -> truthy stock = false) ->
        is_valid_transaction (JDict d) = Ret false)
  /\ (forall now fuel srv username operation_type stock_name,
        assoc_mem username (users srv) = true ->
        (operation_type <> "buy" /\ operation_type <> "sell") \/ stock_name = EmptyString ->
        handle_add_transaction now fuel [username; operation_type; stock_name] srv
        = (Ret tt,
           mkServer (blockchain srv) (users srv) (sent srv ++ [invalid_transaction_response]))).
Proof.
  intros Hlb Hidx. split; [|split].
  - rewrite add_transaction_run. unfold last_block in Hlb. run.
    injection Hlb as Hlb. rewrite Hlb. cbn [subscript obind]. rewrite Hidx. reflexivity.
  - intros d Hd. rewrite is_valid_transaction_dict. f_equal.
    destruct (assoc_get "operation_type" d) as [op|]; [|reflexivity].
    destruct (assoc_get "stock_name" d) as [stock|]; [|reflexivity].
    destruct Hd as [Hop | Hst].
    + destruct (Hop op eq_refl) as [Hb Hs].
      destruct (py_eq (JStr "buy") op) eqn:Eb; [now apply py_eq_str_value in Eb|].
      destruct (py_eq (JStr "sell") op) eqn:Es; [now apply py_eq_str_value in Es|].
      reflexivity.
    + rewrite (Hst stock eq_refl). apply andb_false_r.
  - intros now fuel srv username operation_type stock_name Hu Hbad.
    unfold handle_add_transaction, part. cbn [nth_error]. run. rewrite Hu. cbn [negb].
    unfold subscript at 1. rewrite assoc_mem_get in Hu.
    destruct (assoc_get username (users srv)) as [client_id|]; [|discriminate].
    rewrite is_valid_transaction_dict.
    cbn [assoc_get String.eqb Ascii.eqb Bool.eqb py_eq truthy].
    assert (E : (String.eqb "buy" operation_type || String.eqb "sell" operation_type)
                && negb (String.eqb stock_name EmptyString) = false).
    { destruct Hbad as [[Hb Hs] | ->]; [|apply andb_false_r].
      destruct (String.eqb_spec "buy" operation_type); [congruence|].
      destruct (String.eqb_spec "sell" operation_type); [congruence|]. reflexivity. }
    cbn in E |- *. rewrite E. reflexivity.
Qed.

Lemma add_transaction_appends_witness :
  add_transaction buy_transaction genesis_engine
  = (Ret (JInt 1),
     mkBlockchain (chain genesis_engine) [buy_transaction] (blockchain_dir genesis_engine)
       (writes genesis_engine)).
Proof.
  destruct (fst (last_block genesis_engine)) as [[lb|]| |] eqn:L;
    try (exfalso; vm_compute in L; discriminate).
  assert (Hidx : assoc_get "index" lb = Some (JInt 0)).
  { vm_compute in L. injection L as <-. reflexivity. }
  exact (proj1 (add_transaction_appends buy_transaction genesis_engine lb 0 L Hidx)).
Defined.

(** C1, as it is written, fails: a transaction whose operation type is
    "hold" enters the pool. *)
Lemma add_transaction_rejects_counterexample :
  ~ add_transaction_rejects hold_transaction genesis_engine.
Proof.
  intros H.
  assert (Hinv : is_valid_transaction hold_transaction <> Ret true)
    by (vm_compute; discriminate).
  specialize (H Hinv). vm_compute in H. discriminate.
Qed.

(** ** Proof of work *)

Lemma substring_0_4 (s : string) :
  String.eqb (String.substring 0 4 s) "0000" = true
  <-> exists rest, s = String.append "0000" rest.
Proof.
  rewrite String.eqb_eq. split.
  - destruct s as [|a [|b [|c [|d rest]]]]; cbn; intros H; try discriminate.
    injection H as -> -> -> ->. now exists rest.
  - intros [rest ->]. now destruct rest.
Qed.

Lemma proof_of_work_from_least (fuel : nat) (last_proof start proof : Z) :
  proof_of_work_from fuel last_proof start = Some proof ->
  valid_proof last_proof proof = true
  /\ start <= proof
  /\ forall q, start <= q < proof -> valid_proof last_proof q = false.
Proof.
  revert start. induction fuel as [|fuel IH]; intros start H; [discriminate|].
  cbn [proof_of_work_from] in H.
  destruct (valid_proof last_proof start) eqn:E; cbn [negb] in H.
  - injection H as <-. repeat split; [assumption | lia | intros q Hq; lia].
  - destruct (IH _ H) as (Hv & Hle & Hmin). repeat split; [assumption | lia |].
    intros q Hq. destruct (Z.eq_dec q start) as [->|Hne]; [assumption|].
    apply Hmin. lia.
Qed.

(** The search ends as soon as some proof is valid. *)
Lemma proof_of_work_from_finds (last_proof start : Z) (k : nat) :
  valid_proof last_proof (start + Z.of_nat k) = true ->
  exists proof, proof_of_work_from (S k) last_proof start = Some proof.
Proof.
  revert start. induction k as [|k IH]; intros start H.
  - cbn [proof_of_work_from]. rewrite Z.add_0_r in H. rewrite H. now exists start.
  - cbn [proof_of_work_from]. destruct (valid_proof last_proof start); cbn [negb].
    + now exists start.
    + apply IH. now replace (start + 1 + Z.of_nat k) with (start + Z.of_nat (S k)) by lia.
Qed.

(** C6: [valid_proof(last_proof, proof)] holds exactly when the SHA-256
    hex digest of the two decimal strings put together starts with four
    "0"; and when [proof_of_work(last_proof)] returns, what it returns
    is valid and no smaller non-negative integer is. *)
Theorem proof_of_work_least :
  (forall last_proof proof : Z,
      valid_proof last_proof proof = true
      <-> exists rest,
          SHA256.hexdigest (String.append (str_of_int last_proof) (str_of_int proof))
          = String.append "0000" rest)
  /\ (forall (fuel : nat) (last_proof proof : Z),
         proof_of_work fuel last_proof = Some proof ->
         valid_proof last_proof proof = true
         /\ 0 <= proof
         /\ forall q, 0 <= q < proof -> valid_proof last_proof q = false).
Proof.
  split.
  - intros last_proof proof. unfold valid_proof. apply substring_0_4.
  - intros fuel last_proof proof H. exact (proof_of_work_from_least _ _ _ _ H).
Qed.

Lemma proof_of_work_least_witness :
  proof_of_work 3 30916 = Some 2
  /\ valid_proof 30916 2 = true
  /\ valid_proof 30916 0 = false
  /\ valid_proof 30916 1 = false.
Proof.
  assert (H : proof_of_work 3 30916 = Some 2) by (vm_compute; reflexivity).
  destruct (proj2 proof_of_work_least 3%nat 30916 2 H) as (Hv & _ & Hmin).
  split; [exact H|]. split; [exact Hv|]. split; apply Hmin; lia.
Defined.
(** ** Chain validity *)

Lemma all_valid_transactions_true (txs : list value) :
  all_valid_transactions txs = Ret true
  <-> Forall (fun transaction => is_valid_transaction transaction = Ret true) txs.
Proof.
  induction txs as [|t txs IH]; cbn [all_valid_transactions].
  - split; [constructor | reflexivity].
  - unfold obind. destruct (is_valid_transaction t) as [[|]| |] eqn:E; cbn [negb].
    + rewrite IH. split; [now constructor | now inversion 1].
    + split; [discriminate | inversion 1; congruence].
    + split; [discriminate | inversion 1; congruence].
    + split; [discriminate | inversion 1; congruence].
Qed.

Lemma check_block_true (c : list dict) (i : nat) :
  check_block c i = Ret true
  <-> link_holds c i
      /\ exists current_block, nth_error c i = Some current_block /\ data_valid current_block.
Proof.
  unfold check_block, link_holds, data_valid, subscript, obind.
  split.
  - destruct (nth_error c i) as [cur|]; [|discriminate].
    destruct (nth_error c (i - 1)) as [prev|]; [|discriminate].
    destruct (assoc_get "previous_hash" cur) as [ph|] eqn:Hph; [|discriminate].
    destruct (assoc_get "hash" prev) as [h|] eqn:Hh; [|discriminate].
    destruct (py_eq ph h) eqn:E; cbn [negb]; [|discriminate].
    destruct (assoc_get "data" cur) as [data|] eqn:Hd; [|discriminate].
    destruct (py_iter data) as [txs| |] eqn:I; try discriminate.
    intros H. apply all_valid_transactions_true in H. split.
    + exists cur, prev, ph, h. repeat split; assumption.
    + exists cur. split; [reflexivity|]. exists data, txs. repeat split; assumption.
  - intros [(cur & prev & ph & h & Hc & Hp & Hph & Hh & E)
              (cur' & Hc' & data & txs & Hd & I & Hall)].
    rewrite Hc in Hc'. injection Hc' as <-.
    rewrite Hc, Hp, Hph, Hh, E, Hd, I. cbn [negb].
    now apply all_valid_transactions_true.
Qed.

Lemma check_from_true (c : list dict) (indices : list nat) :
  check_from c indices = Ret true
  <-> Forall (fun i => check_block c i = Ret true) indices.
Proof.
  induction indices as [|i rest IH]; cbn [check_from].
  - split; [constructor | reflexivity].
  - unfold obind. destruct (check_block c i) as [[|]| |] eqn:E; cbn [negb].
    + rewrite IH. split; [now constructor | now inversion 1].
    + split; [discriminate | inversion 1; congruence].
    + split; [discriminate | inversion 1; congruence].
    + split; [discriminate | inversion 1; congruence].
Qed.

Lemma Forall_tl_nth_error {A : Type} (P : A -> Prop) (l : list A) :
  Forall P (tl l)
  <-> forall i x, (1 <= i)%nat -> nth_error l i = Some x -> P x.
Proof.
  rewrite Forall_forall. split.
  - intros H i x Hi Hx. apply H. destruct l as [|y l]; [now destruct i|].
    destruct i as [|i]; [lia|]. cbn in Hx |- *. eapply nth_error_In, Hx.
  - intros H x Hin. apply In_nth_error in Hin as [i Hi].
    apply (H (S i)); [lia|]. destruct l; [now destruct i | exact Hi].
Qed.

(** C7, as the code has it: [is_valid_chain] returns true exactly when
    every block from index 1 on carries in [previous_hash] the stored
    [hash] field of the block before it, and every transaction in the
    data of every block from index 1 on is valid; the data of the first
    block is not looked at.  The call changes nothing in the engine. *)
Theorem is_valid_chain_iff (s : Blockchain) :
  (fst (is_valid_chain s) = Ret true
   <-> chain_linked (chain s) /\ Forall data_valid (tl (chain s)))
  /\ snd (is_valid_chain s) = s.
Proof.
  rewrite is_valid_chain_pure. cbn [fst snd]. split; [|reflexivity].
  rewrite check_from_true, Forall_forall, Forall_tl_nth_error.
  unfold chain_linked. split.
  - intros H. split.
    + intros i Hi. apply (check_block_true (chain s) i). apply H. apply in_seq. lia.
    + intros i cur Hi Hcur.
      assert (Hlt : (i < List.length (chain s))%nat)
        by (apply nth_error_Some; congruence).
      assert (Hin : In i (seq 1 (List.length (chain s) - 1))) by (apply in_seq; lia).
      apply H, check_block_true in Hin. destruct Hin as [_ (cur' & Hc' & Hd)].
      congruence.
  - intros [Hl Hd] i Hin. apply in_seq in Hin. apply check_block_true.
    assert (Hi : (1 <= i < List.length (chain s))%nat) by lia.
    split; [now apply Hl|].
    destruct (nth_error (chain s) i) as [cur|] eqn:Hc.
    + exists cur. split; [reflexivity|]. now apply (Hd i).
    + apply nth_error_None in Hc. lia.
Qed.

(** C7, as it is written, fails: the engine built on a directory whose
    first block holds a transaction that is not valid has a valid chain. *)
Lemma is_valid_chain_counterexample :
  ~ is_valid_chain_checks_every_block tampered_engine.
Proof.
  intros [H _].
  assert (Hv : fst (is_valid_chain tampered_engine) = Ret true)
    by (vm_compute; reflexivity).
  destruct (H Hv) as [_ Hd].
  assert (Hc : chain tampered_engine = [tampered_block]) by (vm_compute; reflexivity).
  rewrite Hc in Hd. inversion Hd as [|b l (data & txs & Hget & Hiter & Hall) _]; subst.
  vm_compute in Hget. injection Hget as <-.
  cbn [py_iter] in Hiter. injection Hiter as <-.
  inversion Hall as [|t l Ht _]; subst. vm_compute in Ht. discriminate.
Qed.

(** ** Integrity repair *)

Lemma save_block_to_json_run (block : dict) (s : Blockchain) :
  save_block_to_json block s
  = match assoc_get "index" block with
    | None => (Raise (KeyError "index"), s)
    | Some index =>
        match format index with
        | Ret name =>
            (Ret tt,
             mkBlockchain (chain s) (current_transactions s)
               (written (hd Taken (writes s))
                  (String.append "block_" (String.append name ".json"))
                  block (blockchain_dir s))
               (tl (writes s)))
        | Raise e => (Raise e, s)
        | Beyond => (Beyond, s)
        end
    end.
Proof.
  unfold save_block_to_json, subscript. run.
  destruct (assoc_get "index" block) as [index|]; [|reflexivity].
  destruct (format index); reflexivity.
Qed.

(** One turn of the loop of [verify_integrity]. *)
Lemma verify_integrity_from_step
  (fuel : nat) (current_block : dict) (block_index : nat) (s : Blockchain) :
  verify_integrity_from (S fuel) current_block block_index s
  = if (block_index <? List.length (chain s))%nat then
      match nth_error (chain s) block_index with
      | None => (Raise IndexError, s)
      | Some block =>
          match assoc_get "previous_hash" block with
          | None => (Raise (KeyError "previous_hash"), s)
          | Some ph =>
              if py_eq ph (JStr (hash current_block))
              then verify_integrity_from fuel block (block_index + 1) s
              else
                match assoc_get "index" block with
                | None => (Raise (KeyError "index"), s)
                | Some _ =>
                    let block' := relink (hash current_block) block in
                    let s1 := set_chain (list_set block_index block' (chain s)) s in
                    match save_block_to_json block' s1 with
                    | (Ret _, s2) => verify_integrity_from fuel block' (block_index + 1) s2
                    | (Raise e, s2) => (Raise e, s2)
                    | (Beyond, s2) => (Beyond, s2)
                    end
                end
          end
      end
    else (Ret true, s).
Proof.
  cbn [verify_integrity_from]. unfold chain_at, subscript. run.
  destruct (block_index <? List.length (chain s))%nat; [|reflexivity].
  destruct (nth_error (chain s) block_index) as [block|]; [|reflexivity].
  destruct (assoc_get "previous_hash" block) as [ph|]; [|reflexivity].
  destruct (py_eq ph (JStr (hash current_block))); cbn [negb]; [reflexivity|].
  destruct (assoc_get "index" block) as [index|]; [|reflexivity].
  cbv zeta.
  destruct (save_block_to_json _ _) as [[[]| |] s2]; reflexivity.
Qed.

(** [verify_integrity] has one return statement. *)
Lemma verify_integrity_from_returns_true
  (fuel : nat) (current_block : dict) (block_index : nat) (s s' : Blockchain) (b : bool) :
  verify_integrity_from fuel current_block block_index s = (Ret b, s') -> b = true.
Proof.
  revert current_block block_index s.
  induction fuel as [|fuel IH]; intros current_block block_index s H; [discriminate|].
  rewrite verify_integrity_from_step in H.
  destruct (block_index <? List.length (chain s))%nat; [|congruence].
  destruct (nth_error (chain s) block_index) as [block|]; [|discriminate].
  destruct (assoc_get "previous_hash" block) as [ph|]; [|discriminate].
  destruct (py_eq ph (JStr (hash current_block))); [now apply IH in H|].
  destruct (assoc_get "index" block) as [index|]; [|discriminate].
  cbv zeta in H.
  destruct (save_block_to_json _ _) as [[[]| |] s2]; try discriminate.
  now apply IH in H.
Qed.

Lemma verify_integrity_returns_true (s s' : Blockchain) (b : bool) :
  verify_integrity s = (Ret b, s') -> b = true.
Proof.
  unfold verify_integrity, chain_at. run.
  destruct (nth_error (chain s) 0) as [current_block|]; [|discriminate].
  apply verify_integrity_from_returns_true.
Qed.

Lemma relink_previous_hash (h : string) (block : dict) :
  assoc_get "previous_hash" (relink h block) = Some (JStr h).
Proof.
  unfold relink. rewrite assoc_get_set_other by discriminate.
  apply assoc_get_set_same.
Qed.

Lemma relink_hash (h : string) (block : dict) :
  assoc_get "hash" (relink h block) = Some (JStr (hash (relink h block))).
Proof.
  unfold relink. rewrite assoc_get_set_same, hash_set_hash. reflexivity.
Qed.

Lemma relink_index (h : string) (block : dict) :
  assoc_get "index" (relink h block) = assoc_get "index" block.
Proof. unfold relink. now rewrite !assoc_get_set_other by discriminate. Qed.

Lemma relink_has_link_fields (h : string) (block : dict) :
  has_link_fields block -> has_link_fields (relink h block).
Proof.
  intros [_ Hi]. split.
  - exists (JStr h). apply relink_previous_hash.
  - now rewrite relink_index.
Qed.

Lemma linked_relink (previous_block block : dict) :
  linked previous_block (relink (hash previous_block) block) = true.
Proof.
  unfold linked. rewrite relink_previous_hash. cbn. apply String.eqb_refl.
Qed.

Lemma repair_length (current_block : dict) (rest : list dict) :
  List.length (repair current_block rest) = List.length rest.
Proof.
  revert current_block. induction rest as [|b rest IH]; intros cur; cbn; [reflexivity|].
  now rewrite IH.
Qed.

Lemma repair_has_link_fields (current_block : dict) (rest : list dict) :
  Forall has_link_fields rest -> Forall has_link_fields (repair current_block rest).
Proof.
  revert current_block. induction rest as [|b rest IH]; intros cur H; cbn; [constructor|].
  inversion H as [|? ? Hb Hrest]; subst. constructor; [|now apply IH].
  destruct (linked cur b); [assumption | now apply relink_has_link_fields].
Qed.

Lemma repair_chain_links (current_block : dict) (rest : list dict) :
  chain_links current_block (repair current_block rest).
Proof.
  revert current_block. induction rest as [|b rest IH]; intros cur; cbn; [exact I|].
  split; [|apply IH].
  destruct (linked cur b) eqn:E; [assumption | apply linked_relink].
Qed.

Lemma repair_fixed (current_block : dict) (rest : list dict) :
  chain_links current_block rest -> repair current_block rest = rest.
Proof.
  revert current_block. induction rest as [|b rest IH]; intros cur H; cbn; [reflexivity|].
  destruct H as [E H]. rewrite E. f_equal. now apply IH.
Qed.

Lemma list_set_middle {A : Type} (pre : list A) (x y : A) (rest : list A) :
  list_set (List.length pre) y (pre ++ x :: rest) = pre ++ y :: rest.
Proof. induction pre as [|z pre IH]; cbn; [reflexivity | now rewrite IH]. Qed.

(** The loop from block [length pre] on: it ends with [True], the chain
    repaired, and nothing written when every link held. *)
Lemma verify_integrity_from_run
  (rest : list dict) (fuel : nat) (pre : list dict) (current_block : dict)
  (pool : list value) (dir : list (string * file)) (future : list write) :
  (List.length rest < fuel)%nat ->
  Forall has_link_fields rest ->
  exists dir' future',
    verify_integrity_from fuel current_block (List.length pre)
      (mkBlockchain (pre ++ rest) pool dir future)
    = (Ret true, mkBlockchain (pre ++ repair current_block rest) pool dir' future')
    /\ (chain_links current_block rest -> dir' = dir /\ future' = future).
Proof.
  revert fuel pre current_block dir future.
  induction rest as [|b rest IH]; intros fuel pre cur dir future Hfuel Hwf;
    (destruct fuel as [|fuel]; [cbn in Hfuel; lia|]);
    rewrite verify_integrity_from_step; cbn [chain].
  - exists dir, future. rewrite app_nil_r, Nat.ltb_irrefl. cbn [repair].
    rewrite app_nil_r. auto.
  - cbn [List.length] in Hfuel.
    assert (Hlt : (List.length pre <? List.length (pre ++ b :: rest))%nat = true).
    { apply Nat.ltb_lt. rewrite length_app. cbn. lia. }
    rewrite Hlt, nth_error_app2, Nat.sub_diag by lia. cbn [nth_error].
    inversion Hwf as [|? ? [[ph Hph] [n Hn]] Hrest]; subst.
    assert (Hlk : linked cur b = py_eq ph (JStr (hash cur)))
      by (unfold linked; now rewrite Hph).
    rewrite Hph. cbn [repair]. cbv zeta. rewrite Hlk.
    assert (Hpre : forall x, (List.length pre + 1 = List.length (pre ++ [x]))%nat).
    { intros x. rewrite length_app. reflexivity. }
    destruct (py_eq ph (JStr (hash cur))) eqn:E.
    + destruct (IH fuel (pre ++ [b]) b dir future) as (dir' & future' & Hrun & Hdir);
        [lia | assumption |].
      exists dir', future'. rewrite <- !app_assoc in Hrun. cbn [app] in Hrun.
      rewrite (Hpre b), Hrun. split; [reflexivity|].
      intros [_ Hl]. now apply Hdir.
    + rewrite Hn. cbv zeta. rewrite save_block_to_json_run, relink_index, Hn.
      cbn [format chain set_chain current_transactions blockchain_dir writes].
      rewrite list_set_middle.
      set (b' := relink (hash cur) b).
      set (dir1 := written _ _ b' dir).
      destruct (IH fuel (pre ++ [b']) b' dir1 (tl future)) as (dir' & future' & Hrun & Hdir);
        [lia | assumption |].
      exists dir', future'. rewrite <- !app_assoc in Hrun. cbn [app] in Hrun.
      rewrite (Hpre b'), Hrun. split; [reflexivity|].
      intros [Hl _]. congruence.
Qed.

(** What [verify_integrity] does on a chain that starts with [first]. *)
Lemma verify_integrity_run
  (first : dict) (rest : list dict) (pool : list value) (dir : list (string * file))
  (future : list write) :
  Forall has_link_fields rest ->
  exists dir' future',
    verify_integrity (mkBlockchain (first :: rest) pool dir future)
    = (Ret true, mkBlockchain (first :: repair first rest) pool dir' future')
    /\ (chain_links first rest -> dir' = dir /\ future' = future).
Proof.
  intros Hwf. unfold verify_integrity, chain_at. run. cbn [chain nth_error].
  apply (verify_integrity_from_run rest _ [first] first pool dir future);
    [cbn; lia | assumption].
Qed.

Lemma repair_nth_error
  (rest : list dict) (current_block : dict) (i : nat) (block previous_block : dict) :
  nth_error (current_block :: rest) (S i) = Some block ->
  nth_error (current_block :: repair current_block rest) i = Some previous_block ->
  nth_error (current_block :: repair current_block rest) (S i)
  = Some (if linked previous_block block then block
          else relink (hash previous_block) block).
Proof.
  revert current_block i. induction rest as [|b rest IH]; intros cur i H1 H2.
  - now destruct i.
  - destruct i as [|i].
    + cbn in H1, H2 |- *. injection H1 as <-. injection H2 as <-. reflexivity.
    + cbn [nth_error repair] in H1, H2 |- *. cbv zeta in H2 |- *.
      exact (IH _ i H1 H2).
Qed.

(** The engine [verify_integrity] is called on: a chain that is not
    empty, whose blocks after the first have the fields the loop reads. *)
Lemma verify_integrity_total (s : Blockchain) :
  chain s <> [] ->
  Forall has_link_fields (tl (chain s)) ->
  exists first rest dir' future',
    chain s = first :: rest
    /\ verify_integrity s
       = (Ret true,
          mkBlockchain (first :: repair first rest) (current_transactions s) dir' future')
    /\ (chain_links first rest -> dir' = blockchain_dir s /\ future' = writes s).
Proof.
  destruct s as [c pool dir future]. cbn [chain current_transactions blockchain_dir writes].
  destruct c as [|first rest]; [congruence|]. intros _ Hwf. cbn [tl] in Hwf.
  destruct (verify_integrity_run first rest pool dir future Hwf)
    as (dir' & future' & Hrun & Hdir).
  exists first, rest, dir', future'. auto.
Qed.

(** C5: [verify_integrity] returns [True]; from index 1 on, a block
    whose [previous_hash] is not the recomputed hash of the block now
    before it gets that hash as [previous_hash] and a recomputed [hash],
    and every other block is left as it is; a second call right after
    changes nothing. *)
Theorem verify_integrity_repairs (s : Blockchain) :
  chain s <> [] ->
  Forall has_link_fields (tl (chain s)) ->
  exists s',
    verify_integrity s = (Ret true, s')
    /\ List.length (chain s') = List.length (chain s)
    /\ nth_error (chain s') 0 = nth_error (chain s) 0
    /\ (forall i block previous_block,
          nth_error (chain s) (S i) = Some block ->
          nth_error (chain s') i = Some previous_block ->
          nth_error (chain s') (S i)
          = Some (if linked previous_block block then block
                  else relink (hash previous_block) block))
    /\ (forall h block,
          assoc_get "previous_hash" (relink h block) = Some (JStr h)
          /\ assoc_get "hash" (relink h block) = Some (JStr (hash (relink h block))))
    /\ current_transactions s' = current_transactions s
    /\ verify_integrity s' = (Ret true, s').
Proof.
  intros Hne Hwf.
  destruct (verify_integrity_total s Hne Hwf) as (first & rest & dir' & future' & Hc & Hrun & _).
  rewrite Hc in Hwf |- *. cbn [tl] in Hwf.
  eexists. split; [exact Hrun|]. cbn [chain current_transactions].
  split; [cbn; now rewrite repair_length|].
  split; [reflexivity|].
  split; [intros i block previous_block; apply repair_nth_error|].
  split; [intros h block; split; [apply relink_previous_hash | apply relink_hash]|].
  split; [reflexivity|].
  destruct (verify_integrity_run first (repair first rest) (current_transactions s) dir'
              future' (repair_has_link_fields first rest Hwf))
    as (dir'' & future'' & Hrun' & Hdir).
  destruct (Hdir (repair_chain_links first rest)) as [-> ->].
  now rewrite Hrun', (repair_fixed _ _ (repair_chain_links first rest)).
Qed.

Lemma forked_engine_fields :
  chain forked_engine <> [] /\ Forall has_link_fields (tl (chain forked_engine)).
Proof.
  split; [vm_compute; discriminate|].
  assert (H : exists b, tl (chain forked_engine) = [b] /\ has_link_fields b).
  { eexists. split; [vm_compute; reflexivity|].
    split; eexists; vm_compute; reflexivity. }
  destruct H as (b & -> & Hb). constructor; [exact Hb | constructor].
Defined.

Lemma verify_integrity_repairs_witness :
  exists s',
    verify_integrity forked_engine = (Ret true, s')
    /\ verify_integrity s' = (Ret true, s').
Proof.
  destruct (verify_integrity_repairs forked_engine
              (proj1 forked_engine_fields) (proj2 forked_engine_fields))
    as (s' & H1 & _ & _ & _ & _ & _ & H2).
  exists s'. split; assumption.
Defined.

(** ** The verify handler *)

(** C10: the handler of a verify request sends the one response "The
    blockchain is valid and has not been altered."; the branch that
    leaves [response] unbound is not taken, since [verify_integrity],
    when it returns, returns [True]. *)
Theorem handle_verify_integrity_answers (srv : Server) :
  chain (blockchain srv) <> [] ->
  Forall has_link_fields (tl (chain (blockchain srv))) ->
  (exists srv',
      handle_verify_integrity srv = (Ret tt, srv')
      /\ sent srv' = sent srv ++ ["The blockchain is valid and has not been altered."]
      /\ users srv' = users srv)
  /\ (forall (s s' : Blockchain) (is_valid : bool),
         verify_integrity s = (Ret is_valid, s') -> is_valid = true).
Proof.
  intros Hne Hwf. split; [|exact verify_integrity_returns_true].
  destruct (verify_integrity_total _ Hne Hwf) as (first & rest & dir' & future' & _ & Hrun & _).
  unfold handle_verify_integrity, on_blockchain, send. run. rewrite Hrun.
  eexists. split; [reflexivity|]. split; reflexivity.
Qed.

Lemma handle_verify_integrity_answers_witness :
  exists srv',
    handle_verify_integrity forked_server = (Ret tt, srv')
    /\ sent srv' = ["The blockchain is valid and has not been altered."].
Proof.
  destruct (proj1 (handle_verify_integrity_answers forked_server
                     (proj1 forked_engine_fields) (proj2 forked_engine_fields)))
    as (srv' & H1 & H2 & _).
  exists srv'. split; assumption.
Defined.

(** ** The block directory *)

(** C3 at a chain of eleven blocks: the blocks carry the indices 0 to 10
    and each is saved in a file of its own, but the chain that is loaded
    back is not the chain that was saved; [sorted] puts the file of
    block 10 before the file of block 2, and the blocks come back in the
    order 0, 1, 10, 2, ..., 9.  The chain was valid when it was saved;
    the engine built again on its directory has a chain that
    [is_valid_chain] refuses. *)
Theorem load_eleven_blocks :
  indexed eleven_blocks
  /\ List.length (save_all eleven_blocks) = 11%nat
  /\ map (assoc_get "index") (load (save_all eleven_blocks))
     = map (fun i => Some (JInt i)) [0; 1; 10; 2; 3; 4; 5; 6; 7; 8; 9]
  /\ load (save_all eleven_blocks) <> eleven_blocks
  /\ blockchain_dir (grow 10 genesis_engine) = save_all eleven_blocks
  /\ fst (is_valid_chain (grow 10 genesis_engine)) = Ret true
  /\ (forall future,
        chain (snd (init example_now (save_all eleven_blocks) future))
        = load (save_all eleven_blocks))
  /\ (forall future,
        fst (is_valid_chain (snd (init example_now (save_all eleven_blocks) future)))
        = Ret false).
Proof.
  split; [vm_compute; reflexivity|].
  split; [vm_compute; reflexivity|].
  split; [vm_compute; reflexivity|].
  split.
  { intros H. apply (f_equal (fun c => nth_error (map (assoc_get "index") c) 2)) in H.
    vm_compute in H. discriminate. }
  split; [vm_compute; reflexivity|].
  split; [vm_compute; reflexivity|].
  split; intros future; vm_compute; reflexivity.
Qed.

Lemma save_all_from (c : list dict) (k : nat) (s : Blockchain) :
  map (assoc_get "index") c
  = map (fun i => Some (JInt (Z.of_nat i))) (seq k (List.length c)) ->
  writes s = [] ->
  blockchain_dir (fold_left (fun s block => snd (save_block_to_json block s)) c s)
  = fold_left (fun dir ib => assoc_set (block_filename (fst ib)) (stored (snd ib)) dir)
      (combine (seq k (List.length c)) c) (blockchain_dir s).
Proof.
  revert k s. induction c as [|b c IH]; intros k s H Hw; [reflexivity|].
  cbn [List.length seq map] in H. injection H as Hb Hc.
  cbn [fold_left List.length seq combine fst snd].
  rewrite save_block_to_json_run, Hb. cbn [format snd].
  rewrite (IH (S k) _ Hc) by (cbn [writes]; now rewrite Hw).
  cbn [blockchain_dir]. now rewrite Hw.
Qed.

(** Up to ten blocks the file names sort as the indices do, and the
    chain that is loaded is the chain that was saved. *)
Lemma load_save_all_up_to_ten (c : list dict) :
  indexed c -> (List.length c <= 10)%nat -> load (save_all c) = c.
Proof.
  intros H Hlen. unfold save_all. rewrite (save_all_from c 0 (mkBlockchain [] [] [] []) H eq_refl). clear H.
  do 11 (destruct c as [|? c]; [vm_compute; reflexivity|]).
  cbn [List.length] in Hlen. lia.
Qed.

(** ** The engine invariant *)

Lemma load_files_objects (filenames : list string) (s : Blockchain) :
  holds_objects (blockchain_dir s) ->
  load_files filenames s
  = (Ret tt, set_chain (chain s ++ objects (blockchain_dir s) filenames) s).
Proof.
  intros Hdir. revert s Hdir.
  induction filenames as [|filename rest IH]; intros s Hdir; cbn [load_files objects flat_map].
  - unfold set_chain. rewrite app_nil_r. now destruct s.
  - fold (objects (blockchain_dir s) rest).
    destruct (endswith filename ".json") eqn:E; [|apply IH, Hdir].
    run. destruct (assoc_get filename (blockchain_dir s)) as [f|] eqn:G; [|apply IH, Hdir].
    destruct (Hdir filename f E G) as [block ->]. unfold stored.
    rewrite IH by exact Hdir. unfold set_chain.
    cbn [chain current_transactions blockchain_dir writes]. now rewrite <- app_assoc.
Qed.

Lemma load_chain_from_json_objects (s : Blockchain) :
  holds_objects (blockchain_dir s) ->
  load_chain_from_json s
  = (Ret tt,
     set_chain (chain s ++ objects (blockchain_dir s)
                             (map fst (sort_items (blockchain_dir s)))) s).
Proof. intros Hdir. unfold load_chain_from_json. run. now apply load_files_objects. Qed.

Lemma block_files_hold_objects (dir : list (string * file)) :
  Forall block_file dir -> holds_objects dir.
Proof.
  intros Hdir filename f _ G.
  destruct (Forall_assoc_get (fun f => exists block, f = stored block /\ has_link_fields block)
              _ _ _ Hdir G) as (block & -> & _).
  now exists block.
Qed.

Lemma init_ok (now : string) (dir : list (string * file)) (future : list write) :
  Forall block_file dir ->
  engine_ok (snd (init now dir future)).
Proof.
  intros Hdir. unfold init. unfold bind at 1.
  rewrite load_chain_from_json_objects by (now apply block_files_hold_objects).
  run. cbn [chain current_transactions blockchain_dir set_chain app].
  set (loaded := objects _ _).
  assert (Hl : Forall has_link_fields loaded).
  { apply Forall_flat_map, Forall_forall. intros name _.
    destruct (endswith name ".json"); [|constructor].
    destruct (assoc_get name dir) as [[[| | | | |block]|]|] eqn:E; try constructor;
      [|constructor].
    destruct (Forall_assoc_get (fun f => exists block, f = stored block /\ has_link_fields block)
                _ _ _ Hdir E) as (block' & [= <-] & Hb).
    exact Hb. }
  destruct loaded as [|b l]; cbn [List.length Nat.eqb].
  - unfold create_genesis_block. run. rewrite save_block_to_json_run.
    cbn. split; [discriminate|].
    constructor; [|constructor]. split; eexists; reflexivity.
  - cbn. split; [discriminate | assumption].
Qed.

Lemma create_block_ok (now : string) (proof previous_hash : value) (s : Blockchain) :
  engine_ok s -> engine_ok (snd (create_block now proof previous_hash s)).
Proof.
  intros (Hne & Hc). rewrite create_block_run.
  destruct (check_from _ _) as [[|]| |]; cbn [snd]; try (split; assumption).
  cbv zeta. cbn [snd]. split; cbn [chain].
  - intros H. now apply app_eq_nil in H as [_ H].
  - apply Forall_app. split; [assumption|]. constructor; [|constructor].
    split; eexists; reflexivity.
Qed.

Lemma verify_integrity_ok (s : Blockchain) :
  engine_ok s -> engine_ok (snd (verify_integrity s)).
Proof.
  intros (Hne & Hc).
  assert (Htl : Forall has_link_fields (tl (chain s))).
  { destruct (chain s); [constructor | now inversion Hc]. }
  destruct (verify_integrity_total s Hne Htl) as (first & rest & dir' & future' & E & Hrun & _).
  rewrite Hrun. cbn [snd]. split; cbn [chain].
  - discriminate.
  - rewrite E in Hc. inversion Hc; subst.
    constructor; [assumption | now apply repair_has_link_fields].
Qed.

(** Every engine the constructor and the methods lead to is one
    [verify_integrity] returns on. *)
Lemma reachable_ok (s : Blockchain) : reachable s -> engine_ok s.
Proof.
  induction 1 as [now dir future Hdir | transaction s _ IH | now proof ph s _ IH | s _ IH].
  - now apply init_ok.
  - rewrite add_transaction_run. exact IH.
  - now apply create_block_ok.
  - now apply verify_integrity_ok.
Qed.

(** * Further properties of the engine *)

(** ** Which transactions are valid *)

(** [is_valid_transaction] returns [True] on dictionaries only: those
    with an [operation_type] equal to "buy" or "sell" and a truthy
    [stock_name].  On anything else it returns [False] or raises. *)
Theorem is_valid_transaction_accepts (transaction : value) :
  is_valid_transaction transaction = Ret true
  <-> exists (d : dict) (op stock : value),
      transaction = JDict d
      /\ assoc_get "operation_type" d = Some op
      /\ (op = JStr "buy" \/ op = JStr "sell")
      /\ assoc_get "stock_name" d = Some stock
      /\ truthy stock = true.
Proof.
  split.
  - destruct transaction as [| b | n | s | l | d]; try discriminate.
    + unfold is_valid_transaction, py_in, subscript, obind.
      destruct (contains "operation_type" s); discriminate.
    + unfold is_valid_transaction, py_in, subscript, obind.
      destruct (existsb _ l); discriminate.
    + rewrite is_valid_transaction_dict.
      destruct (assoc_get "operation_type" d) as [op|] eqn:Eop; [|discriminate].
      destruct (assoc_get "stock_name" d) as [stock|] eqn:Est; [|discriminate].
      intros H.
      assert (Hb : (py_eq (JStr "buy") op || py_eq (JStr "sell") op) && truthy stock = true)
        by congruence.
      apply andb_true_iff in Hb as [Hop Hst].
      exists d, op, stock.
      split; [reflexivity|]. split; [assumption|].
      split; [|split; assumption].
      apply orb_true_iff in Hop as [Hx | Hx]; apply py_eq_str_value in Hx; auto.
  - intros (d & op & stock & -> & Hop & Hv & Hst & Ht).
    rewrite is_valid_transaction_dict, Hop, Hst, Ht. f_equal.
    destruct Hv as [-> | ->]; reflexivity.
Qed.

(** ** Block creation keeps a valid chain valid *)

Lemma check_block_app (c extra : list dict) (i : nat) :
  (1 <= i < List.length c)%nat ->
  check_block (c ++ extra) i = check_block c i.
Proof.
  intros Hi. unfold check_block. now rewrite !nth_error_app1 by lia.
Qed.

Lemma last_block_some (s : Blockchain) (lb : dict) :
  fst (last_block s) = Ret (Some lb) ->
  exists n, List.length (chain s) = S n /\ nth_error (chain s) n = Some lb.
Proof.
  unfold last_block. run. intros [= H]. rewrite last_nth_error in H.
  destruct (chain s) as [|b c]; [discriminate|].
  exists (List.length c). split; [reflexivity|].
  cbn [List.length Nat.sub] in H. now rewrite Nat.sub_0_r in H.
Qed.

(** A block created on a valid chain whose last block stores its own
    hash, from a pool of valid transactions and with the default previous
    hash (or the hash of the last block handed in), leaves a valid chain
    whose last block stores its own hash again: the next call finds what
    this one needed. *)
Theorem create_block_keeps_valid
  (now : string) (proof previous_hash : value) (s : Blockchain) (lb : dict) :
  fst (is_valid_chain s) = Ret true ->
  fst (last_block s) = Ret (Some lb) ->
  lb <> [] ->
  hash_stored lb ->
  Forall (fun transaction => is_valid_transaction transaction = Ret true)
    (current_transactions s) ->
  truthy previous_hash = false \/ previous_hash = JStr (hash lb) ->
  exists block s',
    create_block now proof previous_hash s = (Ret block, s')
    /\ fst (is_valid_chain s') = Ret true
    /\ fst (last_block s') = Ret (Some block)
    /\ block <> []
    /\ hash_stored block
    /\ current_transactions s' = [].
Proof.
  intros Hv Hlb Hne Hh Hpool Hph.
  destruct (last_block_some s lb Hlb) as (n & Hlen & Hnth).
  rewrite is_valid_chain_pure in Hv. cbn [fst] in Hv.
  rewrite create_block_run, Hv. cbv zeta.
  assert (Hprev : (if truthy previous_hash then previous_hash
                   else JStr (calculated_previous_hash (last (map Some (chain s)) None)))
                  = JStr (hash lb)).
  { rewrite last_nth_error, Hlen. cbn [Nat.sub]. rewrite Nat.sub_0_r, Hnth.
    assert (Hc : calculated_previous_hash (Some lb) = hash lb)
      by (destruct lb; [congruence | reflexivity]).
    rewrite Hc. destruct Hph as [-> | ->]; [reflexivity|].
    now destruct (truthy (JStr (hash lb))). }
  rewrite Hprev.
  eexists. eexists. split; [reflexivity|].
  split; [|split; [|split; [discriminate | split; reflexivity]]].
  - rewrite is_valid_chain_pure. cbn [fst chain].
    rewrite length_app, Hlen. cbn [List.length].
    replace (S n + 1 - 1)%nat with (S n) by lia.
    rewrite seq_S. cbn [Nat.add].
    apply check_from_true, Forall_app. split.
    + rewrite Hlen in Hv. cbn [Nat.sub] in Hv. rewrite Nat.sub_0_r in Hv.
      apply check_from_true in Hv. rewrite Forall_forall in Hv |- *.
      intros i Hi. rewrite check_block_app; [now apply Hv|].
      apply in_seq in Hi. lia.
    + constructor; [|constructor]. apply check_block_true.
      assert (Hcur : forall b : dict, nth_error (chain s ++ [b]) (S n) = Some b).
      { intros b. rewrite nth_error_app2 by lia. now rewrite Hlen, Nat.sub_diag. }
      assert (Hprv : forall b : dict, nth_error (chain s ++ [b]) (S n - 1) = Some lb).
      { intros b. cbn [Nat.sub]. rewrite Nat.sub_0_r.
        rewrite nth_error_app1 by lia. exact Hnth. }
      split.
      * eexists. exists lb, (JStr (hash lb)), (JStr (hash lb)).
        split; [apply Hcur|]. split; [apply Hprv|].
        split; [reflexivity|]. split; [exact Hh|]. apply String.eqb_refl.
      * eexists. split; [apply Hcur|].
        exists (JList (current_transactions s)), (current_transactions s).
        split; [reflexivity|]. split; [reflexivity | exact Hpool].
  - unfold last_block. run. cbn [chain]. rewrite last_nth_error, length_app, Hlen.
    cbn [List.length]. replace (S n + 1 - 1)%nat with (S n) by lia.
    rewrite nth_error_app2 by lia. now rewrite Hlen, Nat.sub_diag.
Qed.

Lemma create_block_keeps_valid_witness :
  exists block s',
    create_block example_now (JInt 7) JNull
      (snd (add_transaction buy_transaction genesis_engine)) = (Ret block, s')
    /\ fst (is_valid_chain s') = Ret true.
Proof.
  set (s := snd (add_transaction buy_transaction genesis_engine)).
  destruct (fst (last_block s)) as [[lb|]| |] eqn:L;
    try (exfalso; vm_compute in L; discriminate).
  assert (Hlb : lb <> [] /\ hash_stored lb).
  { vm_compute in L. injection L as <-. split; [discriminate | vm_compute; reflexivity]. }
  assert (Hv : fst (is_valid_chain s) = Ret true) by (vm_compute; reflexivity).
  assert (Hp : Forall (fun t => is_valid_transaction t = Ret true) (current_transactions s)).
  { constructor; [vm_compute; reflexivity | constructor]. }
  destruct (create_block_keeps_valid example_now (JInt 7) JNull s lb Hv L
              (proj1 Hlb) (proj2 Hlb) Hp (or_introl eq_refl))
    as (block & s' & H1 & H2 & _).
  exists block, s'. split; assumption.
Defined.

(** ** What [verify_integrity] leaves alone *)

Lemma same_fields_refl (block : dict) : same_fields block block.
Proof. intros k _ _. reflexivity. Qed.

Lemma same_fields_relink (h : string) (block : dict) :
  same_fields block (relink h block).
Proof.
  intros k Hp Hh. unfold relink. now rewrite !assoc_get_set_other by assumption.
Qed.

Lemma Forall2_same_fields_refl (c : list dict) : Forall2 same_fields c c.
Proof. induction c; constructor; [apply same_fields_refl | assumption]. Qed.

Lemma Forall2_same_fields_trans (c1 c2 c3 : list dict) :
  Forall2 same_fields c1 c2 -> Forall2 same_fields c2 c3 -> Forall2 same_fields c1 c3.
Proof.
  intros H. revert c3. induction H as [|b1 b2 c1 c2 Hb _ IH]; intros c3 H3.
  - inversion H3. constructor.
  - inversion H3 as [|? b3 ? c3' Hb' Hc']; subst. constructor; [|now apply IH].
    intros k Hp Hh. now rewrite (Hb' k Hp Hh), (Hb k Hp Hh).
Qed.

Lemma Forall2_same_fields_list_set (c : list dict) (i : nat) (block block' : dict) :
  nth_error c i = Some block ->
  same_fields block block' ->
  Forall2 same_fields c (list_set i block' c).
Proof.
  revert i. induction c as [|b c IH]; intros i Hi Hs; [now destruct i|].
  destruct i as [|i]; cbn in Hi |- *.
  - injection Hi as ->. constructor; [assumption | apply Forall2_same_fields_refl].
  - constructor; [apply same_fields_refl | now apply IH].
Qed.

(** The loop of [verify_integrity], however it ends. *)
Lemma verify_integrity_from_same_fields
  (fuel : nat) (current_block : dict) (block_index : nat) (s : Blockchain) :
  let s' := snd (verify_integrity_from fuel current_block block_index s) in
  Forall2 same_fields (chain s) (chain s')
  /\ current_transactions s' = current_transactions s.
Proof.
  revert current_block block_index s.
  induction fuel as [|fuel IH]; intros cur i s; cbv zeta.
  - split; [apply Forall2_same_fields_refl | reflexivity].
  - rewrite verify_integrity_from_step.
    destruct (i <? List.length (chain s))%nat;
      [|split; [apply Forall2_same_fields_refl | reflexivity]].
    destruct (nth_error (chain s) i) as [block|] eqn:Hb;
      [|split; [apply Forall2_same_fields_refl | reflexivity]].
    destruct (assoc_get "previous_hash" block) as [ph|];
      [|split; [apply Forall2_same_fields_refl | reflexivity]].
    destruct (py_eq ph (JStr (hash cur))); [apply IH|].
    destruct (assoc_get "index" block) as [index|] eqn:Hi;
      [|split; [apply Forall2_same_fields_refl | reflexivity]].
    cbv zeta. rewrite save_block_to_json_run, relink_index, Hi.
    assert (Hset : Forall2 same_fields (chain s)
                     (list_set i (relink (hash cur) block) (chain s)))
      by (eapply Forall2_same_fields_list_set; [exact Hb | apply same_fields_relink]).
    destruct (format index) as [name| |]; cbn [snd];
      try (split; [exact Hset | reflexivity]).
    match goal with
    | |- context [verify_integrity_from fuel ?b ?j ?s2] =>
        destruct (IH b j s2) as [H1 H2]
    end.
    split; [|exact H2]. eapply Forall2_same_fields_trans; [exact Hset | exact H1].
Qed.

(** [verify_integrity] rewrites nothing but [previous_hash] and [hash]:
    whether it returns or raises, the chain keeps its length, every
    block keeps its index, timestamp, data and proof (any field of
    another name), and the pending pool is as it was. *)
Theorem verify_integrity_keeps_fields (s : Blockchain) :
  Forall2 same_fields (chain s) (chain (snd (verify_integrity s)))
  /\ List.length (chain (snd (verify_integrity s))) = List.length (chain s)
  /\ current_transactions (snd (verify_integrity s)) = current_transactions s.
Proof.
  assert (H : Forall2 same_fields (chain s) (chain (snd (verify_integrity s)))
              /\ current_transactions (snd (verify_integrity s)) = current_transactions s).
  { unfold verify_integrity, chain_at. run.
    destruct (nth_error (chain s) 0) as [first|];
      [|split; [apply Forall2_same_fields_refl | reflexivity]].
    apply verify_integrity_from_same_fields. }
  destruct H as [H1 H2]. split; [exact H1|]. split; [|exact H2].
  symmetry. exact (Forall2_length H1).
Qed.

(** ** A block of transactions that are not valid *)

Lemma data_valid_same_fields (block block' : dict) :
  same_fields block block' -> data_valid block' -> data_valid block.
Proof.
  intros Hs (data & txs & Hd & Hi & Hall). exists data, txs.
  rewrite <- (Hs "data") by discriminate. auto.
Qed.

Lemma Forall2_nth_error_left {A B : Type} (R : A -> B -> Prop)
  (l : list A) (l' : list B) (i : nat) (x : A) :
  Forall2 R l l' -> nth_error l i = Some x ->
  exists y, nth_error l' i = Some y /\ R x y.
Proof.
  intros H. revert i. induction H as [|a b l l' Hab _ IH]; intros i Hi.
  - now destruct i.
  - destruct i as [|i]; cbn in Hi |- *; [injection Hi as ->; eauto | now apply IH].
Qed.

Lemma poisoned_not_valid (c : list dict) :
  poisoned c -> check_from c (seq 1 (List.length c - 1)) <> Ret true.
Proof.
  intros (i & block & Hi & Hb & Hbad) H.
  apply check_from_true in H. rewrite Forall_forall in H.
  assert (Hlt : (i < List.length c)%nat) by (apply nth_error_Some; congruence).
  assert (Hin : In i (seq 1 (List.length c - 1))) by (apply in_seq; lia).
  apply H, check_block_true in Hin. destruct Hin as [_ (b & Hb' & Hd)].
  congruence.
Qed.

Lemma poisoned_same_fields (c c' : list dict) :
  Forall2 same_fields c c' -> poisoned c -> poisoned c'.
Proof.
  intros HF (i & block & Hi & Hb & Hbad).
  destruct (Forall2_nth_error_left _ _ _ _ _ HF Hb) as (block' & Hb' & Hs).
  exists i, block'. repeat split; try assumption.
  intros Hd. apply Hbad. now apply (data_valid_same_fields block block').
Qed.

Lemma create_block_poisoned (now : string) (proof previous_hash : value) (s : Blockchain) :
  poisoned (chain s) -> snd (create_block now proof previous_hash s) = s.
Proof.
  intros Hp. rewrite create_block_run.
  pose proof (poisoned_not_valid _ Hp) as Hn.
  destruct (check_from _ _) as [[|]| |]; [congruence | reflexivity..].
Qed.

Lemma evolves_poisoned (s s' : Blockchain) :
  poisoned (chain s) -> evolves s s' ->
  poisoned (chain s') /\ List.length (chain s') = List.length (chain s).
Proof.
  intros Hp. induction 1 as [| transaction s' _ IH | now proof ph s' _ IH | s' _ IH].
  - split; [assumption | reflexivity].
  - rewrite add_transaction_run. exact IH.
  - destruct IH as [IH Hlen]. now rewrite (create_block_poisoned _ _ _ _ IH).
  - destruct IH as [IH Hlen].
    assert (HF : Forall2 same_fields (chain s') (chain (snd (verify_integrity s')))).
    { unfold verify_integrity, chain_at. run.
      destruct (nth_error (chain s') 0) as [first|];
        [apply verify_integrity_from_same_fields | apply Forall2_same_fields_refl]. }
    split; [now apply (poisoned_same_fields (chain s')) |].
    rewrite <- Hlen. symmetry. exact (Forall2_length HF).
Qed.

(** [add_transaction] lets any transaction into the pool, and
    [create_block] does not look at the pool: when a block is created on
    a chain that is not empty, from a pool that holds a transaction that
    is not valid, then whatever calls of [add_transaction],
    [create_block] and [verify_integrity] follow, [is_valid_chain] never
    returns [True] again and [create_block] never creates another block. *)
Theorem create_block_poisons
  (now : string) (proof previous_hash : value) (s s1 s2 : Blockchain)
  (transaction : value) (block : dict) :
  chain s <> [] ->
  In transaction (current_transactions s) ->
  is_valid_transaction transaction <> Ret true ->
  create_block now proof previous_hash s = (Ret block, s1) ->
  evolves s1 s2 ->
  fst (is_valid_chain s2) <> Ret true
  /\ (forall now' proof' previous_hash' block' s3,
         create_block now' proof' previous_hash' s2 <> (Ret block', s3))
  /\ List.length (chain s2) = List.length (chain s1).
Proof.
  intros Hne Hin Hbad H Hev.
  assert (Hp : poisoned (chain s1)).
  { rewrite create_block_run in H.
    destruct (check_from _ _) as [[|]| |]; try discriminate.
    cbv zeta in H. injection H as Hb Hs. rewrite <- Hs. cbn [chain].
    exists (List.length (chain s)), block.
    split; [destruct (chain s); [congruence | cbn; lia]|].
    split; [rewrite nth_error_app2, Nat.sub_diag, Hb by lia; reflexivity|].
    intros (data & txs & Hd & Hi & Hall). rewrite <- Hb in Hd.
    cbn in Hd. injection Hd as <-. cbn in Hi. injection Hi as <-.
    rewrite Forall_forall in Hall. exact (Hbad (Hall _ Hin)). }
  destruct (evolves_poisoned s1 s2 Hp Hev) as [Hp2 Hlen].
  pose proof (poisoned_not_valid _ Hp2) as Hn.
  split; [rewrite is_valid_chain_pure; exact Hn|]. split; [|exact Hlen].
  intros now' proof' ph' block' s3 Hc. rewrite create_block_run in Hc.
  destruct (check_from _ _) as [[|]| |]; congruence.
Qed.

Lemma create_block_poisons_witness :
  exists block s1,
    create_block example_now (JInt 7) JNull
      (snd (add_transaction hold_transaction genesis_engine)) = (Ret block, s1)
    /\ fst (is_valid_chain (snd (verify_integrity s1))) <> Ret true.
Proof.
  set (s := snd (add_transaction hold_transaction genesis_engine)).
  destruct (create_block example_now (JInt 7) JNull s) as [o s1] eqn:E.
  destruct o as [block| |];
    [| exfalso; vm_compute in E; discriminate | exfalso; vm_compute in E; discriminate].
  exists block, s1. split; [reflexivity|].
  assert (Hne : chain s <> []) by (vm_compute; discriminate).
  assert (Hin : In hold_transaction (current_transactions s)) by (left; reflexivity).
  assert (Hbad : is_valid_transaction hold_transaction <> Ret true)
    by (vm_compute; discriminate).
  exact (proj1 (create_block_poisons example_now (JInt 7) JNull s s1
                  (snd (verify_integrity s1)) hold_transaction block
                  Hne Hin Hbad E (evolves_verify_integrity s1 s1 (evolves_refl s1)))).
Defined.

(** ** Repair and validity *)

Lemma chain_links_nth_error (rest : list dict) (first : dict) (i : nat) (p b : dict) :
  chain_links first rest ->
  nth_error (first :: rest) i = Some p ->
  nth_error (first :: rest) (S i) = Some b ->
  linked p b = true.
Proof.
  revert first i. induction rest as [|x rest IH]; intros first i Hl Hp Hb.
  - now destruct i.
  - destruct Hl as [Hx Hl]. destruct i as [|i].
    + cbn in Hp, Hb. injection Hp as <-. injection Hb as <-. exact Hx.
    + exact (IH x i Hl Hp Hb).
Qed.

Lemma linked_previous_hash (p b : dict) :
  linked p b = true <-> assoc_get "previous_hash" b = Some (JStr (hash p)).
Proof.
  unfold linked. destruct (assoc_get "previous_hash" b) as [ph|].
  - rewrite py_eq_value_str. split; congruence.
  - split; discriminate.
Qed.

Lemma repair_hash_stored (first : dict) (rest : list dict) :
  Forall hash_stored rest -> Forall hash_stored (repair first rest).
Proof.
  revert first. induction rest as [|b rest IH]; intros first H; cbn; [constructor|].
  inversion H; subst. constructor; [|now apply IH].
  destruct (linked first b); [assumption | apply relink_hash].
Qed.

Lemma repair_same_fields (first : dict) (rest : list dict) :
  Forall2 same_fields rest (repair first rest).
Proof.
  revert first. induction rest as [|b rest IH]; intros first; cbn; constructor.
  - destruct (linked first b); [apply same_fields_refl | apply same_fields_relink].
  - apply IH.
Qed.

Lemma data_valid_same_fields_right (block block' : dict) :
  same_fields block block' -> data_valid block -> data_valid block'.
Proof.
  intros Hs (data & txs & Hd & Hi & Hall). exists data, txs.
  rewrite (Hs "data") by discriminate. auto.
Qed.

Lemma Forall_data_valid_same_fields (c c' : list dict) :
  Forall2 same_fields c c' -> (Forall data_valid c <-> Forall data_valid c').
Proof.
  induction 1 as [|b b' c c' Hb _ IH]; [split; constructor|].
  split; inversion 1; subst; constructor;
    solve [ now apply IH
          | now apply (data_valid_same_fields_right b b')
          | now apply (data_valid_same_fields b b') ].
Qed.

(** A chain that [verify_integrity] has gone through is valid for
    [is_valid_chain] exactly when every block but the last stores its
    own hash and the transactions after the first block are valid:
    the repair writes the recomputed hash of a block into the next one,
    [is_valid_chain] compares with the hash the block stores.  So it is
    when every block stored its own hash before the call. *)
Theorem verify_integrity_then_valid (s : Blockchain) :
  chain s <> [] ->
  Forall has_link_fields (tl (chain s)) ->
  exists s',
    verify_integrity s = (Ret true, s')
    /\ (fst (is_valid_chain s') = Ret true
        <-> (forall i p, (S i < List.length (chain s'))%nat ->
                         nth_error (chain s') i = Some p -> hash_stored p)
            /\ Forall data_valid (tl (chain s)))
    /\ (Forall hash_stored (chain s) ->
        Forall data_valid (tl (chain s)) ->
        fst (is_valid_chain s') = Ret true).
Proof.
  intros Hne Hwf.
  destruct (verify_integrity_total s Hne Hwf) as (first & rest & dir' & future' & Hc & Hrun & _).
  eexists. split; [exact Hrun|]. rewrite Hc. cbn [tl].
  set (c' := first :: repair first rest).
  assert (Hlinks : chain_links first (repair first rest)) by apply repair_chain_links.
  assert (Hdata : Forall data_valid rest <-> Forall data_valid (tl c'))
    by (apply Forall_data_valid_same_fields, repair_same_fields).
  assert (Hiff : check_from c' (seq 1 (List.length c' - 1)) = Ret true
                 <-> (forall i p, (S i < List.length c')%nat ->
                                  nth_error c' i = Some p -> hash_stored p)
                     /\ Forall data_valid rest).
  { rewrite check_from_true, Forall_forall, Hdata, Forall_tl_nth_error. split.
    - intros H. split.
      + intros i p Hi Hp.
        assert (Hin : In (S i) (seq 1 (List.length c' - 1))) by (apply in_seq; lia).
        apply H, check_block_true in Hin.
        destruct Hin as [(cur & prev & ph & h & Hcur & Hprev & Hph & Hh & E) _].
        cbn [Nat.sub] in Hprev. rewrite Nat.sub_0_r, Hp in Hprev. injection Hprev as <-.
        pose proof (chain_links_nth_error _ _ _ _ _ Hlinks Hp Hcur) as Hl.
        apply linked_previous_hash in Hl. rewrite Hl in Hph. injection Hph as <-.
        apply py_eq_str_value in E. unfold hash_stored. congruence.
      + intros i cur Hi Hcur.
        assert (Hlt : (i < List.length c')%nat) by (apply nth_error_Some; congruence).
        assert (Hin : In i (seq 1 (List.length c' - 1))) by (apply in_seq; lia).
        apply H, check_block_true in Hin. destruct Hin as [_ (cur' & Hc' & Hd)].
        congruence.
    - intros [Hh Hd] i Hin. apply in_seq in Hin. apply check_block_true.
      destruct i as [|i]; [lia|].
      destruct (nth_error c' (S i)) as [cur|] eqn:Hcur;
        [|apply nth_error_None in Hcur; lia].
      destruct (nth_error c' i) as [p|] eqn:Hp;
        [|apply nth_error_None in Hp; lia].
      pose proof (chain_links_nth_error _ _ _ _ _ Hlinks Hp Hcur) as Hl.
      apply linked_previous_hash in Hl. split.
      + exists cur, p, (JStr (hash p)), (JStr (hash p)).
        cbn [Nat.sub]. rewrite Nat.sub_0_r.
        repeat split; try assumption; [apply (Hh i); [lia | assumption] |].
        apply String.eqb_refl.
      + exists cur. split; [reflexivity|]. apply (Hd (S i)); [lia | assumption]. }
  rewrite is_valid_chain_pure. cbn [fst chain]. fold c'.
  split; [exact Hiff|].
  intros Hh Hd. apply Hiff. split; [|exact Hd].
  inversion Hh as [|? ? Hf Hr]; subst.
  assert (Hall : Forall hash_stored c')
    by (constructor; [assumption | now apply repair_hash_stored]).
  intros i p _ Hp. rewrite Forall_forall in Hall. eapply Hall, nth_error_In, Hp.
Qed.

Lemma verify_integrity_then_valid_witness :
  exists s',
    verify_integrity forked_engine = (Ret true, s')
    /\ fst (is_valid_chain forked_engine) = Ret false
    /\ fst (is_valid_chain s') = Ret true.
Proof.
  destruct (verify_integrity_then_valid forked_engine
              (proj1 forked_engine_fields) (proj2 forked_engine_fields))
    as (s' & Hrun & _ & Hvalid).
  exists s'. split; [exact Hrun|]. split; [vm_compute; reflexivity|].
  assert (H : exists b0 b1, chain forked_engine = [b0; b1]
                            /\ hash_stored b0 /\ hash_stored b1 /\ data_valid b1).
  { eexists. eexists. split; [vm_compute; reflexivity|].
    split; [vm_compute; reflexivity|]. split; [vm_compute; reflexivity|].
    eexists. eexists. split; [vm_compute; reflexivity|].
    split; [vm_compute; reflexivity | constructor]. }
  destruct H as (b0 & b1 & Hc & H0 & H1 & Hd). apply Hvalid; rewrite Hc.
  - constructor; [exact H0 | constructor; [exact H1 | constructor]].
  - constructor; [exact Hd | constructor].
Defined.

(** ** The search of [proof_of_work] *)

Lemma proof_of_work_from_more (fuel extra : nat) (last_proof start proof : Z) :
  proof_of_work_from fuel last_proof start = Some proof ->
  proof_of_work_from (fuel + extra) last_proof start = Some proof.
Proof.
  revert start. induction fuel as [|fuel IH]; intros start H; [discriminate|].
  cbn [proof_of_work_from Nat.add] in H |- *.
  destruct (valid_proof last_proof start); cbn [negb] in H |- *; [exact H | now apply IH].
Qed.

(** Whenever some non-negative proof is valid, the search returns with
    any fuel above it, and returns the same proof whatever the fuel:
    the least valid one. *)
Theorem proof_of_work_finds (last_proof proof : Z) (fuel : nat) :
  valid_proof last_proof proof = true ->
  0 <= proof ->
  (Z.to_nat proof < fuel)%nat ->
  exists least,
    proof_of_work fuel last_proof = Some least
    /\ 0 <= least <= proof
    /\ valid_proof last_proof least = true
    /\ forall q, 0 <= q < least -> valid_proof last_proof q = false.
Proof.
  intros Hv Hp Hfuel.
  destruct (proof_of_work_from_finds last_proof 0 (Z.to_nat proof)) as [least Hl].
  { now rewrite Z.add_0_l, Z2Nat.id. }
  apply (proof_of_work_from_more _ (fuel - S (Z.to_nat proof))) in Hl.
  replace (S (Z.to_nat proof) + (fuel - S (Z.to_nat proof)))%nat with fuel in Hl by lia.
  destruct (proof_of_work_from_least _ _ _ _ Hl) as (Hvl & Hge & Hmin).
  exists least. split; [exact Hl|]. split; [|split; assumption].
  split; [assumption|].
  destruct (Z_le_gt_dec least proof) as [Hle|Hgt]; [assumption|].
  rewrite (Hmin proof) in Hv by lia. discriminate.
Qed.

Lemma proof_of_work_finds_witness :
  valid_proof 30916 2 = true /\ proof_of_work 100 30916 = Some 2.
Proof.
  assert (H0 : 0 <= 2) by lia.
  assert (Hf : (Z.to_nat 2 < 100)%nat) by (apply Nat.ltb_lt; reflexivity).
  assert (Hv : valid_proof 30916 2 = true) by (vm_compute; reflexivity).
  split; [exact Hv|].
  destruct (proof_of_work_finds 30916 2 100 Hv H0 Hf) as (least & Hl & Hb & Hvl & Hmin).
  rewrite Hl. f_equal.
  assert (Hc : least = 0 \/ least = 1 \/ least = 2) by (clear - Hb; lia).
  destruct Hc as [-> | [-> | ->]]; [exfalso | exfalso | reflexivity];
    vm_compute in Hvl; discriminate Hvl.
Defined.

(** ** Saving and loading up to ten blocks *)

(** A chain of at most ten blocks that carry the indices 0, 1, 2, ...
    comes back from the directory as it was saved: each block in a file
    of its own, loaded in the order of the indices. *)
Theorem save_load_round_trip (c : list dict) :
  indexed c -> (List.length c <= 10)%nat -> load (save_all c) = c.
Proof. exact (load_save_all_up_to_ten c). Qed.

Lemma save_load_round_trip_witness :
  load (save_all (chain forked_engine)) = chain forked_engine.
Proof.
  apply save_load_round_trip; [vm_compute; reflexivity | vm_compute; lia].
Defined.

(** ** The hash of a block is canonical *)

Lemma string_leb_trans (a b c : string) :
  String.leb a b = true -> String.leb b c = true -> String.leb a c = true.
Proof.
  unfold String.leb. revert b c.
  induction a as [|x a IH]; intros [|y b] [|z c]; cbn; try easy.
  unfold Ascii.compare.
  destruct (N.compare_spec (N_of_ascii x) (N_of_ascii y)) as [E1|L1|G1]; try easy;
    destruct (N.compare_spec (N_of_ascii y) (N_of_ascii z)) as [E2|L2|G2]; try easy.
  - rewrite E1, E2, N.compare_refl. apply IH.
  - intros _ _. rewrite E1. apply N.compare_lt_iff in L2. now rewrite L2.
  - intros _ _. rewrite <- E2. apply N.compare_lt_iff in L1. now rewrite L1.
  - intros _ _. assert (L : (N_of_ascii x < N_of_ascii z)%N) by lia.
    apply N.compare_lt_iff in L. now rewrite L.
Qed.

Lemma string_leb_refl (a : string) : String.leb a a = true.
Proof. now destruct (String.leb_total a a). Qed.

Section Sorting.
Context {A : Type}.

Lemma insert_sorted_perm (a : string * A) (l : list (string * A)) :
  Permutation (insert_sorted a l) (a :: l).
Proof.
  induction l as [|b l IH]; cbn; [reflexivity|].
  destruct (String.leb (fst a) (fst b)); [reflexivity|].
  rewrite IH. apply perm_swap.
Qed.

Lemma sort_items_perm (l : list (string * A)) : Permutation (sort_items l) l.
Proof.
  induction l as [|a l IH]; cbn; [reflexivity|].
  rewrite insert_sorted_perm. now constructor.
Qed.

Lemma insert_sorted_sorted (a : string * A) (l : list (string * A)) :
  StronglySorted key_le l -> StronglySorted key_le (insert_sorted a l).
Proof.
  induction 1 as [|b l Hs IH Hb]; cbn; [repeat constructor|].
  destruct (String.leb (fst a) (fst b)) eqn:E.
  - constructor; [now constructor|]. constructor; [exact E|].
    eapply Forall_impl; [|exact Hb]. intros c Hc. unfold key_le in *.
    eapply string_leb_trans; eassumption.
  - constructor; [exact IH|].
    apply (Permutation_Forall (Permutation_sym (insert_sorted_perm a l))).
    constructor; [|exact Hb]. unfold key_le.
    destruct (String.leb_total (fst a) (fst b)); congruence.
Qed.

Lemma sort_items_sorted (l : list (string * A)) : StronglySorted key_le (sort_items l).
Proof.
  induction l as [|a l IH]; cbn; [constructor | now apply insert_sorted_sorted].
Qed.

Lemma same_key_same_item (l : list (string * A)) (a b : string * A) :
  NoDup (map fst l) -> In a l -> In b l -> fst a = fst b -> a = b.
Proof.
  induction l as [|c l IH]; cbn; [easy|]. intros Hnd [-> | Ha] [-> | Hb] E.
  - reflexivity.
  - inversion Hnd as [|? ? Hn _]; subst. exfalso. apply Hn. rewrite E. now apply in_map.
  - inversion Hnd as [|? ? Hn _]; subst. exfalso. apply Hn. rewrite <- E. now apply in_map.
  - inversion Hnd; subst. now apply IH.
Qed.

Lemma sorted_perm_eq (l1 l2 : list (string * A)) :
  StronglySorted key_le l1 -> StronglySorted key_le l2 ->
  Permutation l1 l2 -> NoDup (map fst l1) -> l1 = l2.
Proof.
  intros H1. revert l2. induction H1 as [|a l1 Hs1 IH Ha]; intros l2 H2 Hp Hnd.
  - now apply Permutation_nil in Hp.
  - destruct H2 as [|b l2 Hs2 Hb].
    + symmetry in Hp. now apply Permutation_nil in Hp.
    + assert (Hab : a = b).
      { assert (Hina : In a (b :: l2)) by (apply (Permutation_in _ Hp); now left).
        assert (Hinb : In b (a :: l1))
          by (apply (Permutation_in _ (Permutation_sym Hp)); now left).
        apply (same_key_same_item (a :: l1)); [exact Hnd | now left | exact Hinb |].
        apply String.leb_antisym.
        - destruct Hinb as [E | Hinb]; [rewrite E; apply string_leb_refl|].
          rewrite Forall_forall in Ha. now apply Ha.
        - destruct Hina as [E | Hina]; [rewrite E; apply string_leb_refl|].
          rewrite Forall_forall in Hb. now apply Hb. }
      subst b. f_equal. apply IH; [assumption | |now inversion Hnd].
      now apply Permutation_cons_inv in Hp.
Qed.

Lemma sort_items_order (l1 l2 : list (string * A)) :
  NoDup (map fst l1) -> Permutation l1 l2 -> sort_items l1 = sort_items l2.
Proof.
  intros Hnd Hp. apply sorted_perm_eq; try apply sort_items_sorted.
  - now rewrite !sort_items_perm.
  - apply (Permutation_NoDup (l := map fst l1)); [|exact Hnd].
    apply Permutation_map. symmetry. apply sort_items_perm.
Qed.

End Sorting.

Lemma filter_perm {A : Type} (f : A -> bool) (l l' : list A) :
  Permutation l l' -> Permutation (filter f l) (filter f l').
Proof.
  induction 1 as [|x l l' _ IH | x y l | l l' l'' _ IH1 _ IH2]; cbn.
  - constructor.
  - destruct (f x); [now constructor | assumption].
  - destruct (f x), (f y); try reflexivity. apply perm_swap.
  - now transitivity (filter f l').
Qed.

Lemma filter_keys_NoDup {A : Type} (f : string * A -> bool) (l : list (string * A)) :
  NoDup (map fst l) -> NoDup (map fst (filter f l)).
Proof.
  induction l as [|a l IH]; cbn; [auto|]. intros H. inversion H as [|? ? Hn Hnd]; subst.
  destruct (f a); cbn; [|now apply IH]. constructor; [|now apply IH].
  intros Hin. apply Hn. apply in_map_iff in Hin as (b & Hb & Hin).
  apply in_map_iff. exists b. split; [exact Hb|]. now apply filter_In in Hin.
Qed.

Lemma json_dumps_key_order (d1 d2 : dict) :
  NoDup (map fst d1) -> Permutation d1 d2 ->
  json_dumps (JDict d1) = json_dumps (JDict d2).
Proof.
  intros Hnd Hp. cbn [json_dumps]. do 4 f_equal.
  apply sort_items_order.
  - rewrite map_map.
    replace (map (fun x : string * value => fst (let (k, w) := x in (k, json_dumps w))) d1)
      with (map fst d1); [exact Hnd|].
    apply map_ext. now intros [k w].
  - now apply Permutation_map.
Qed.

(** [hash] is canonical: two dictionaries that hold the same fields,
    inserted in a different order, have the same hash; and the value of
    the [hash] field, present or not, does not count. *)
Theorem hash_canonical (d1 d2 : dict) :
  NoDup (map fst d1) ->
  Permutation d1 d2 ->
  hash d1 = hash d2
  /\ forall v, hash (assoc_set "hash" v d1) = hash d2.
Proof.
  intros Hnd Hp.
  assert (H : hash d1 = hash d2).
  { unfold hash. f_equal. apply json_dumps_key_order.
    - now apply filter_keys_NoDup.
    - now apply filter_perm. }
  split; [exact H|]. intros v. now rewrite hash_set_hash.
Qed.

Lemma hash_canonical_witness :
  let d : dict :=
    [("index", JInt 0); ("timestamp", JStr example_now);
     ("data", JStr "Genesis Block"); ("previous_hash", JStr "0"); ("proof", JInt 100)] in
  let d' : dict :=
    [("timestamp", JStr example_now); ("index", JInt 0);
     ("data", JStr "Genesis Block"); ("proof", JInt 100); ("previous_hash", JStr "0")] in
  hash d' = hash d /\ hash (assoc_set "hash" (JStr "stale") d') = hash d.
Proof.
  intros d d'.
  assert (Hnd : NoDup (map fst d')).
  { repeat (constructor; [cbn; intuition discriminate|]). constructor. }
  assert (Hp : Permutation d' d).
  { unfold d, d'.
    apply (perm_trans (l' := [("index", JInt 0); ("timestamp", JStr example_now);
                               ("data", JStr "Genesis Block"); ("proof", JInt 100);
                               ("previous_hash", JStr "0")])); [apply perm_swap|].
    do 3 apply perm_skip. apply perm_swap. }
  destruct (hash_canonical d' d Hnd Hp) as [H1 H2].
  split; [exact H1 | apply H2].
Defined.

(** ** The directory mirrors the chain *)

Lemma string_length_append (s t : string) :
  String.length (String.append s t) = (String.length s + String.length t)%nat.
Proof. induction s as [|c s IH]; cbn; [reflexivity | now rewrite IH]. Qed.

Lemma string_append_cancel_r (s1 s2 t : string) :
  String.append s1 t = String.append s2 t -> s1 = s2.
Proof.
  revert s2. induction s1 as [|c s1 IH]; intros [|d s2] H; cbn in H.
  - reflexivity.
  - apply (f_equal String.length) in H. cbn in H. rewrite string_length_append in H. lia.
  - apply (f_equal String.length) in H. cbn in H. rewrite string_length_append in H. lia.
  - injection H as -> H. f_equal. now apply IH.
Qed.

Lemma str_of_int_inj (n m : Z) : str_of_int n = str_of_int m -> n = m.
Proof.
  unfold str_of_int. intros H.
  assert (Hnn : forall z, Z.to_int z <> Decimal.Pos Decimal.Nil
                          /\ Z.to_int z <> Decimal.Neg Decimal.Nil).
  { intros [|p|p]; cbn; split; try discriminate;
      intros [= E]; now apply (DecimalPos.Unsigned.to_uint_nonnil p). }
  apply (f_equal NilZero.int_of_string) in H.
  rewrite !NilZero.isi in H by apply Hnn.
  injection H as H. now apply DecimalZ.to_int_inj.
Qed.

Lemma block_filename_inj (i j : nat) : block_filename i = block_filename j -> i = j.
Proof.
  unfold block_filename. intros H. cbn in H. injection H as H.
  apply string_append_cancel_r, str_of_int_inj in H. lia.
Qed.

Lemma block_filenames_NoDup (k n : nat) : NoDup (map block_filename (seq k n)).
Proof.
  revert k. induction n as [|n IH]; intros k; cbn; constructor; [|apply IH].
  intros Hin. apply in_map_iff in Hin as (j & Hj & Hin).
  apply block_filename_inj in Hj. apply in_seq in Hin. lia.
Qed.

Lemma assoc_set_fresh {A : Type} (k : string) (v : A) (d : list (string * A)) :
  ~ In k (map fst d) -> assoc_set k v d = d ++ [(k, v)].
Proof.
  induction d as [|[k' v'] d IH]; cbn; intros Hn; [reflexivity|].
  destruct (String.eqb_spec k k') as [->|_]; [exfalso; auto|].
  rewrite IH; auto.
Qed.

Lemma assoc_set_combine {A : Type} (ns : list string) (c : list A)
  (i : nat) (k : string) (v : A) :
  NoDup ns -> nth_error ns i = Some k -> (i < List.length c)%nat ->
  assoc_set k v (combine ns c) = combine ns (list_set i v c).
Proof.
  revert c i. induction ns as [|n0 ns IH]; intros c i Hnd Hk Hi; [now destruct i|].
  destruct c as [|x c]; [cbn in Hi; lia|].
  inversion Hnd as [|? ? Hn Hnd']; subst.
  destruct i as [|i]; cbn in Hk |- *.
  - injection Hk as ->. now rewrite String.eqb_refl.
  - destruct (String.eqb_spec k n0) as [->|_].
    + exfalso. apply Hn. eapply nth_error_In, Hk.
    + f_equal. apply IH; [assumption | assumption | cbn in Hi; lia].
Qed.

Lemma list_set_length {A : Type} (i : nat) (x : A) (l : list A) :
  List.length (list_set i x l) = List.length l.
Proof.
  revert i. induction l as [|y l IH]; intros i; [now destruct i|].
  destruct i; cbn; [reflexivity | now rewrite IH].
Qed.

Lemma map_list_set {A B : Type} (f : A -> B) (i : nat) (x y : A) (l : list A) :
  nth_error l i = Some y -> f x = f y -> map f (list_set i x l) = map f l.
Proof.
  revert i. induction l as [|z l IH]; intros i Hy Hf; [now destruct i|].
  destruct i as [|i]; cbn in Hy |- *.
  - injection Hy as ->. now rewrite Hf.
  - f_equal. now apply IH.
Qed.

Lemma indexed_from_nth_error (c : list dict) (k i : nat) (block : dict) :
  map (assoc_get "index") c
  = map (fun j => Some (JInt (Z.of_nat j))) (seq k (List.length c)) ->
  nth_error c i = Some block ->
  assoc_get "index" block = Some (JInt (Z.of_nat (k + i))).
Proof.
  revert k i. induction c as [|b c IH]; intros k i H Hb; [now destruct i|].
  cbn in H. injection H as H0 H. destruct i as [|i]; cbn in Hb.
  - injection Hb as <-. now rewrite Nat.add_0_r.
  - rewrite (IH (S k) i H Hb). do 3 f_equal. lia.
Qed.

Lemma assoc_get_in {A : Type} (k : string) (v : A) (d : list (string * A)) :
  assoc_get k d = Some v -> In (k, v) d.
Proof.
  induction d as [|[k' v'] d IH]; cbn; [discriminate|].
  destruct (String.eqb_spec k k') as [->|_]; [intros [= ->]; now left | auto].
Qed.

Lemma list_set_map {A B : Type} (f : A -> B) (i : nat) (x : A) (l : list A) :
  map f (list_set i x l) = list_set i (f x) (map f l).
Proof.
  revert i. induction l as [|y l IH]; intros i; [now destruct i|].
  destruct i; cbn; [reflexivity | now rewrite IH].
Qed.

Lemma all_taken_next (future : list write) :
  all_taken future -> hd Taken future = Taken /\ all_taken (tl future).
Proof. intros H. destruct H as [|w future -> H]; split; (reflexivity || assumption || constructor). Qed.

Lemma store_mirrors_relink
  (s : Blockchain) (i : nat) (h : string) (block : dict) (future : list write) :
  store_mirrors s ->
  nth_error (chain s) i = Some block ->
  let block' := relink h block in
  assoc_get "index" block' = Some (JInt (Z.of_nat i))
  /\ store_mirrors
       (mkBlockchain (list_set i block' (chain s)) (current_transactions s)
          (assoc_set (block_filename i) (stored block') (blockchain_dir s)) future).
Proof.
  intros [Hdir Hidx] Hb block'.
  assert (Hi : assoc_get "index" block = Some (JInt (Z.of_nat i)))
    by exact (indexed_from_nth_error _ 0 i _ Hidx Hb).
  assert (Hi' : assoc_get "index" block' = Some (JInt (Z.of_nat i)))
    by (unfold block'; now rewrite relink_index).
  assert (Hlt : (i < List.length (chain s))%nat) by (apply nth_error_Some; congruence).
  split; [exact Hi'|]. split; cbn [chain blockchain_dir].
  - rewrite list_set_length, Hdir, list_set_map. apply assoc_set_combine.
    + apply block_filenames_NoDup.
    + rewrite nth_error_map.
      replace (nth_error (seq 0 (List.length (chain s))) i) with (Some i); [reflexivity|].
      rewrite (nth_error_nth' _ O) by (rewrite length_seq; exact Hlt).
      now rewrite seq_nth.
    + now rewrite length_map.
  - unfold indexed. rewrite list_set_length.
    rewrite (map_list_set _ i block' block); [exact Hidx | exact Hb | congruence].
Qed.

Lemma verify_integrity_from_mirrors
  (fuel : nat) (current_block : dict) (block_index : nat) (s : Blockchain) :
  store_mirrors s -> all_taken (writes s) ->
  let s' := snd (verify_integrity_from fuel current_block block_index s) in
  store_mirrors s' /\ all_taken (writes s').
Proof.
  revert current_block block_index s.
  induction fuel as [|fuel IH]; intros cur i s Hm Ht; cbv zeta; [now split|].
  rewrite verify_integrity_from_step.
  destruct (i <? List.length (chain s))%nat; [|now split].
  destruct (nth_error (chain s) i) as [block|] eqn:Hb; [|now split].
  destruct (assoc_get "previous_hash" block) as [ph|]; [|now split].
  destruct (py_eq ph (JStr (hash cur))); [now apply IH|].
  destruct (assoc_get "index" block) as [index|]; [|now split].
  cbv zeta. destruct (all_taken_next _ Ht) as [Hhd Htl].
  destruct (store_mirrors_relink s i (hash cur) block (tl (writes s)) Hm Hb) as [Hi Hm'].
  rewrite save_block_to_json_run, Hi. cbn [format chain set_chain current_transactions
                                          blockchain_dir writes].
  rewrite Hhd. cbn [written]. apply IH; [exact Hm' | exact Htl].
Qed.



Lemma load_objects (dir : list (string * file)) :
  holds_objects dir -> load dir = objects dir (map fst (sort_items dir)).
Proof.
  intros Hdir. unfold load.
  now rewrite load_chain_from_json_objects by exact Hdir.
Qed.

Lemma init_run (now : string) (dir : list (string * file)) (future : list write) :
  holds_objects dir ->
  init now dir future
  = match load dir with
    | [] => create_genesis_block now (mkBlockchain [] [] dir future)
    | block :: rest => (Ret tt, mkBlockchain (block :: rest) [] dir future)
    end.
Proof.
  intros Hdir. rewrite (load_objects dir Hdir). unfold init. unfold bind at 1.
  rewrite load_chain_from_json_objects by exact Hdir. run.
  cbn [chain current_transactions blockchain_dir set_chain app writes].
  now destruct (objects _ _).
Qed.

(** A file that is not JSON ends the loop of [load_chain_from_json]
    with the exception of [json.load]. *)
Lemma load_files_raises (filenames : list string) (s : Blockchain) (bad : string) :
  (forall filename document,
      endswith filename ".json" = true ->
      assoc_get filename (blockchain_dir s) = Some (Json document) ->
      exists block, document = JDict block) ->
  In bad filenames ->
  endswith bad ".json" = true ->
  assoc_get bad (blockchain_dir s) = Some NotJson ->
  fst (load_files filenames s) = Raise JSONDecodeError
  /\ blockchain_dir (snd (load_files filenames s)) = blockchain_dir s
  /\ writes (snd (load_files filenames s)) = writes s
  /\ current_transactions (snd (load_files filenames s)) = current_transactions s.
Proof.
  intros Hdocs Hin Hjson Hbad. revert s Hdocs Hbad.
  induction filenames as [|filename rest IH]; intros s Hdocs Hbad; [destruct Hin|].
  cbn [load_files].
  destruct (String.eqb_spec filename bad) as [->|Hne].
  - rewrite Hjson. run. rewrite Hbad. cbn. auto.
  - assert (Hin' : In bad rest) by (destruct Hin; [congruence | assumption]).
    destruct (endswith filename ".json") eqn:E; [|now apply IH].
    run. destruct (assoc_get filename (blockchain_dir s)) as [[document|]|] eqn:G.
    + destruct (Hdocs filename document E G) as [block ->].
      apply (IH Hin' (set_chain (chain s ++ [block]) s)); assumption.
    + cbn. auto.
    + now apply IH.
Qed.

Lemma combine_snoc {A B : Type} (l : list A) (l' : list B) (x : A) (y : B) :
  List.length l = List.length l' ->
  combine (l ++ [x]) (l' ++ [y]) = combine l l' ++ [(x, y)].
Proof.
  revert l'. induction l as [|a l IH]; intros [|b l'] H; try discriminate; cbn.
  - reflexivity.
  - f_equal. apply IH. now injection H.
Qed.

Lemma map_fst_combine_same {A B : Type} (l : list A) (l' : list B) :
  List.length l = List.length l' -> map fst (combine l l') = l.
Proof.
  revert l'. induction l as [|a l IH]; intros [|b l'] H; try discriminate; cbn.
  - reflexivity.
  - f_equal. apply IH. now injection H.
Qed.

Lemma combine_stored_objects (names : list string) (c : list dict) :
  holds_objects (combine names (map stored c)).
Proof.
  intros filename f _ G. apply assoc_get_in, in_combine_r, in_map_iff in G.
  destruct G as (block & <- & _). now exists block.
Qed.

Lemma create_block_mirrors (now : string) (proof previous_hash : value) (s : Blockchain) :
  store_mirrors s -> all_taken (writes s) ->
  let s' := snd (create_block now proof previous_hash s) in
  store_mirrors s' /\ all_taken (writes s').
Proof.
  intros [Hdir Hidx] Ht. cbv zeta. rewrite create_block_run.
  destruct (check_from _ _) as [[|]| |]; cbn [snd]; try (split; [split|]; assumption).
  destruct (all_taken_next _ Ht) as [Hhd Htl].
  cbv zeta. cbn [snd writes]. split; [|exact Htl]. split; cbn [chain blockchain_dir].
  - change (String.append "block_"
              (String.append (str_of_int (Z.of_nat (List.length (chain s)))) ".json"))
      with (block_filename (List.length (chain s))).
    rewrite Hhd. cbn [written]. rewrite assoc_set_fresh.
    + rewrite Hdir, length_app. cbn [List.length].
      rewrite Nat.add_1_r, seq_S, !map_app. cbn [map Nat.add].
      rewrite combine_snoc by (now rewrite !length_map, length_seq). reflexivity.
    + rewrite Hdir, map_fst_combine_same by (now rewrite !length_map, length_seq).
      intros Hin. apply in_map_iff in Hin as (j & Hj & Hin).
      apply block_filename_inj in Hj. apply in_seq in Hin. lia.
  - unfold indexed in *. rewrite map_app, length_app. cbn [List.length].
    rewrite Nat.add_1_r, seq_S, map_app. f_equal. exact Hidx.
Qed.

Lemma evolves_mirrors (s s' : Blockchain) :
  store_mirrors s -> all_taken (writes s) -> engine_ok s -> evolves s s' ->
  store_mirrors s' /\ all_taken (writes s') /\ engine_ok s'.
Proof.
  intros Hm Ht Hok. induction 1 as [| transaction s' _ IH | now proof ph s' _ IH | s' _ IH].
  - auto.
  - rewrite add_transaction_run. exact IH.
  - destruct IH as (IH1 & IH2 & IH3).
    destruct (create_block_mirrors now proof ph s' IH1 IH2) as [H1 H2].
    split; [exact H1|]. split; [exact H2 | now apply create_block_ok].
  - destruct IH as (IH1 & IH2 & IH3).
    assert (H12 : store_mirrors (snd (verify_integrity s'))
                  /\ all_taken (writes (snd (verify_integrity s')))).
    { unfold verify_integrity, chain_at. run.
      destruct (nth_error (chain s') 0) as [first|]; [|now split].
      now apply verify_integrity_from_mirrors. }
    destruct H12 as [H1 H2]. split; [exact H1|]. split; [exact H2|].
    now apply verify_integrity_ok.
Qed.

Lemma load_combine_up_to_ten (c : list dict) :
  (List.length c <= 10)%nat ->
  load (combine (map block_filename (seq 0 (List.length c))) (map stored c)) = c.
Proof.
  intros Hlen.
  do 11 (destruct c as [|? c]; [vm_compute; reflexivity|]).
  cbn [List.length] in Hlen. lia.
Qed.

Lemma init_mirrors (now : string) (future : list write) :
  all_taken future ->
  store_mirrors (snd (init now [] future))
  /\ all_taken (writes (snd (init now [] future)))
  /\ engine_ok (snd (init now [] future)).
Proof.
  intros Ht. destruct (all_taken_next _ Ht) as [Hhd Htl].
  split; [|split; [exact Htl | apply init_ok; constructor]].
  split; [|reflexivity]. cbn. rewrite Hhd. reflexivity.
Qed.

(** From the constructor on an empty directory on, whatever calls of
    [add_transaction], [create_block] and [verify_integrity] follow, as
    long as every write to the directory is taken the directory holds
    the chain: exactly one file [block_i.json] per block, holding the
    block at position [i], whose index is [i].  So, up to ten blocks, an
    engine constructed again on that directory has the same chain; its
    pool is empty, the pending transactions are in no file. *)
Theorem store_mirrors_chain (now : string) (future : list write) (s : Blockchain) :
  all_taken future ->
  evolves (snd (init now [] future)) s ->
  store_mirrors s
  /\ chain s <> []
  /\ ((List.length (chain s) <= 10)%nat ->
      forall now' future',
        init now' (blockchain_dir s) future'
        = (Ret tt, mkBlockchain (chain s) [] (blockchain_dir s) future')).
Proof.
  intros Ht Hev.
  destruct (init_mirrors now future Ht) as (H0 & H1 & H2).
  destruct (evolves_mirrors _ _ H0 H1 H2 Hev) as (Hm & _ & Hne & _).
  split; [exact Hm|]. split; [exact Hne|].
  intros Hlen now' future'. destruct Hm as [Hdir _].
  rewrite init_run by (rewrite Hdir; apply combine_stored_objects).
  rewrite Hdir at 1. rewrite (load_combine_up_to_ten _ Hlen).
  destruct (chain s); [congruence | reflexivity].
Qed.

Lemma store_mirrors_chain_witness :
  let s := snd (verify_integrity forked_engine) in
  init example_now (blockchain_dir s) []
  = (Ret tt, mkBlockchain (chain s) [] (blockchain_dir s) []).
Proof.
  intros s.
  assert (Hev : evolves (snd (init example_now [] [])) s).
  { apply evolves_verify_integrity.
    apply (evolves_create_block _ example_now (JInt 1) (JStr "abc")).
    apply evolves_refl. }
  assert (Hlen : (List.length (chain s) <= 10)%nat)
    by (apply Nat.leb_le; vm_compute; reflexivity).
  exact (proj2 (proj2 (store_mirrors_chain example_now [] s (Forall_nil _) Hev))
           Hlen example_now []).
Defined.

(** ** The constructor on any directory *)

Lemma init_raises
  (now : string) (dir : list (string * file)) (future : list write) (bad : string) :
  endswith bad ".json" = true ->
  assoc_get bad dir = Some NotJson ->
  (forall filename document,
      endswith filename ".json" = true ->
      assoc_get filename dir = Some (Json document) ->
      exists block, document = JDict block) ->
  exists s,
    init now dir future = (Raise JSONDecodeError, s)
    /\ blockchain_dir s = dir
    /\ writes s = future.
Proof.
  intros Hjson Hbad Hdocs.
  assert (Hin : In bad (map fst (sort_items dir))).
  { pose proof (assoc_get_in _ _ _ Hbad) as Hfile.
    apply (Permutation_in _ (Permutation_sym (sort_items_perm dir))) in Hfile.
    exact (in_map fst _ _ Hfile). }
  destruct (load_files_raises (map fst (sort_items dir)) (mkBlockchain [] [] dir future)
              bad Hdocs Hin Hjson Hbad) as (Hraise & Hd & Hw & _).
  unfold init. unfold bind at 1. unfold load_chain_from_json. run.
  cbn [blockchain_dir] in *.
  destruct (load_files _ _) as [o s1]. cbn [fst snd] in *. subst o.
  exists s1. auto.
Qed.



(** ** A write that fails *)

Lemma substring_all (b : string) : String.substring 0 (String.length b) b = b.
Proof. induction b as [|c b IH]; cbn; [reflexivity | now rewrite IH]. Qed.

Lemma substring_append (a b : string) :
  String.substring (String.length a) (String.length b) (String.append a b) = b.
Proof. induction a as [|c a IH]; cbn; [apply substring_all | exact IH]. Qed.

Lemma endswith_append (a b : string) : endswith (String.append a b) b = true.
Proof.
  unfold endswith. rewrite string_length_append.
  replace (String.length a + String.length b - String.length b)%nat
    with (String.length a) by lia.
  rewrite substring_append, String.eqb_refl, andb_true_r.
  apply Nat.leb_le. lia.
Qed.

Lemma block_filename_json (i : nat) : endswith (block_filename i) ".json" = true.
Proof.
  unfold block_filename.
  change (endswith (String.append (String.append "block_" (str_of_int (Z.of_nat i))) ".json")
            ".json" = true).
  apply endswith_append.
Qed.

Lemma create_block_failing_write
  (now : string) (proof previous_hash : value) (s s' : Blockchain) (block : dict) :
  store_mirrors s ->
  chain s <> [] ->
  create_block now proof previous_hash s = (Ret block, s') ->
  chain s' = chain s ++ [block]
  /\ current_transactions s' = []
  /\ (hd Taken (writes s) = Refused ->
      blockchain_dir s' = blockchain_dir s
      /\ ((List.length (chain s) <= 10)%nat ->
          forall now' future,
            init now' (blockchain_dir s') future
            = (Ret tt, mkBlockchain (chain s) [] (blockchain_dir s) future)))
  /\ (hd Taken (writes s) = Broken ->
      forall now' future,
        exists s'', init now' (blockchain_dir s') future = (Raise JSONDecodeError, s'')).
Proof.
  intros [Hdir Hidx] Hne H. rewrite create_block_run in H.
  destruct (check_from _ _) as [[|]| |]; try discriminate.
  cbv zeta in H. injection H as Hb Hs. subst s'. cbn [chain current_transactions blockchain_dir].
  split; [now rewrite <- Hb|]. split; [reflexivity|]. split.
  - intros ->. cbn [written]. split; [reflexivity|].
    intros Hlen now' future.
    rewrite init_run by (rewrite Hdir; apply combine_stored_objects).
    rewrite Hdir at 1. rewrite (load_combine_up_to_ten _ Hlen).
    destruct (chain s); [congruence | reflexivity].
  - intros -> now' future. cbn [written].
    change (String.append "block_"
              (String.append (str_of_int (Z.of_nat (List.length (chain s)))) ".json"))
      with (block_filename (List.length (chain s))).
    destruct (init_raises now' (assoc_set (block_filename (List.length (chain s))) NotJson
                                  (blockchain_dir s))
                future (block_filename (List.length (chain s))))
      as (s'' & Hrun & _).
    + apply block_filename_json.
    + apply assoc_get_set_same.
    + intros filename document Hjson G.
      destruct (String.eqb_spec filename (block_filename (List.length (chain s)))) as [->|Hn].
      * rewrite assoc_get_set_same in G. discriminate G.
      * rewrite assoc_get_set_other in G by exact Hn.
        rewrite Hdir in G.
        destruct (combine_stored_objects _ _ filename _ Hjson G) as [b [= ->]].
        now exists b.
    + now exists s''.
Qed.

(** A block whose write fails is in the chain and not in the directory:
    [save_block_to_json] catches the exception, and [create_block]
    appends the block and empties the pool all the same.  On a directory
    that held the chain, when the write is refused the directory is as
    before, and an engine constructed again on it (up to ten blocks) has
    the chain without the new block; when the write breaks, the file is
    left truncated and the constructor raises [JSONDecodeError] on that
    directory. *)
Theorem create_block_write_fails
  (now : string) (proof previous_hash : value) (s s' : Blockchain) (block : dict) :
  store_mirrors s ->
  chain s <> [] ->
  create_block now proof previous_hash s = (Ret block, s') ->
  chain s' = chain s ++ [block]
  /\ current_transactions s' = []
  /\ (hd Taken (writes s) = Refused ->
      blockchain_dir s' = blockchain_dir s
      /\ ((List.length (chain s) <= 10)%nat ->
          forall now' future,
            init now' (blockchain_dir s') future
            = (Ret tt, mkBlockchain (chain s) [] (blockchain_dir s) future)))
  /\ (hd Taken (writes s) = Broken ->
      forall now' future,
        exists s'', init now' (blockchain_dir s') future = (Raise JSONDecodeError, s'')).
Proof. exact (create_block_failing_write now proof previous_hash s s' block). Qed.

Lemma create_block_write_fails_witness :
  exists block s',
    create_block example_now (JInt 7) JNull failing_engine = (Ret block, s')
    /\ chain s' = chain failing_engine ++ [block]
    /\ chain (snd (init example_now (blockchain_dir s') [])) = chain failing_engine.
Proof.
  destruct (create_block example_now (JInt 7) JNull failing_engine) as [o s'] eqn:E.
  destruct o as [block| |];
    [| exfalso; vm_compute in E; discriminate E | exfalso; vm_compute in E; discriminate E].
  assert (Hm : store_mirrors failing_engine) by (split; reflexivity).
  assert (Hne : chain failing_engine <> []) by (vm_compute; discriminate).
  assert (Hlen : (List.length (chain failing_engine) <= 10)%nat)
    by (apply Nat.leb_le; reflexivity).
  destruct (create_block_write_fails example_now (JInt 7) JNull failing_engine s' block
              Hm Hne E) as (Hc & _ & Hrefused & _).
  destruct (Hrefused eq_refl) as [_ Hrestart].
  exists block, s'. split; [reflexivity|]. split; [exact Hc|].
  now rewrite (Hrestart Hlen example_now []).
Defined.

(** * The handlers of the server *)

(** ** One response for a request that is handled *)

Ltac break_match :=
  match goal with
  | |- context [match ?x with _ => _ end] =>
      lazymatch x with
      | context [match _ with _ => _ end] => fail
      | _ => destruct x eqn:?
      end
  end.

Ltac no_response :=
  exists (@nil string);
  split; [symmetry; apply app_nil_r | split; [intros E; discriminate E | reflexivity]].

Ltac one_response :=
  eexists (cons _ nil);
  split; [reflexivity | split; [reflexivity | intros E; congruence]].

Ltac response := unfold answers; first [no_response | one_response].

Lemma handle_add_transaction_effects
  (now : string) (fuel : nat) (command_parts : list string) (srv : Server) :
  let r := handle_add_transaction now fuel command_parts srv in
  users (snd r) = users srv
  /\ answers (sent srv) (sent (snd r)) (fst r).
Proof.
  cbv zeta. unfold handle_add_transaction, part, on_blockchain, send. run.
  repeat (break_match; cbn [fst snd users sent blockchain]);
    (split; [reflexivity|]); response.
Qed.

Lemma handle_verify_integrity_effects (srv : Server) :
  let r := handle_verify_integrity srv in
  users (snd r) = users srv
  /\ answers (sent srv) (sent (snd r)) (fst r).
Proof.
  cbv zeta. unfold handle_verify_integrity, on_blockchain, send. run.
  repeat (break_match; cbn [fst snd users sent blockchain]);
    (split; [reflexivity|]); response.
Qed.

Lemma on_server_run {A : Type} (m : M Server A) (h : Host) :
  on_server m h
  = (fst (m (server h)), mkHost (snd (m (server h))) (users_json h) (working_dir h)).
Proof. unfold on_server. now destruct (m (server h)). Qed.

Lemma handle_register_effects (username : string) (h : Host) :
  let r := handle_register username h in
  blockchain (server (snd r)) = blockchain (server h)
  /\ working_dir (snd r) = working_dir h
  /\ answers (sent (server h)) (sent (server (snd r))) (fst r).
Proof.
  cbv zeta. unfold handle_register, set_user, save_users, on_server, send. run.
  repeat (break_match; cbn [fst snd users sent blockchain server working_dir]);
    (split; [reflexivity|]); (split; [reflexivity|]); response.
Qed.

Lemma copy_user_transactions_effects (username : string) (h : Host) :
  let r := copy_user_transactions username h in
  blockchain (server (snd r)) = blockchain (server h)
  /\ users (server (snd r)) = users (server h)
  /\ users_json (snd r) = users_json h
  /\ answers (sent (server h)) (sent (server (snd r))) (fst r).
Proof.
  cbv zeta.
  unfold copy_user_transactions, write_file, on_server, send_bounded, send. run.
  repeat (break_match;
          cbn [fst snd users sent blockchain server working_dir users_json]);
    do 3 (split; [reflexivity|]); response.
Qed.

Lemma copy_all_transactions_effects (h : Host) :
  let r := copy_all_transactions h in
  blockchain (server (snd r)) = blockchain (server h)
  /\ users (server (snd r)) = users (server h)
  /\ users_json (snd r) = users_json h
  /\ answers (sent (server h)) (sent (server (snd r))) (fst r).
Proof.
  cbv zeta.
  unfold copy_all_transactions, write_file, on_server, send. run.
  repeat (break_match;
          cbn [fst snd users sent blockchain server working_dir users_json]);
    do 3 (split; [reflexivity|]); response.
Qed.

Lemma handle_copy_transactions_effects (command_parts : list string) (h : Host) :
  let r := handle_copy_transactions command_parts h in
  blockchain (server (snd r)) = blockchain (server h)
  /\ users (server (snd r)) = users (server h)
  /\ users_json (snd r) = users_json h
  /\ answers (sent (server h)) (sent (server (snd r))) (fst r).
Proof.
  cbv zeta. unfold handle_copy_transactions.
  destruct (Nat.eqb (List.length command_parts) 2).
  - unfold bind at 1. rewrite on_server_run. unfold part.
    destruct (nth_error command_parts 1) as [username|].
    + cbn [fst snd ret]. destruct h. apply copy_user_transactions_effects.
    + cbn [fst snd raise server users_json]. do 3 (split; [reflexivity|]). response.
  - destruct (Nat.eqb (List.length command_parts) 1).
    + apply copy_all_transactions_effects.
    + rewrite on_server_run. unfold send. cbn.
      do 3 (split; [reflexivity|]). response.
Qed.

Lemma split_space_nonempty (message : string) :
  exists command rest, split_space message = command :: rest.
Proof.
  induction message as [|c message (command & rest & IH)]; cbn; [eauto|].
  destruct (Ascii.eqb c " "); [eauto|]. rewrite IH. eauto.
Qed.

(** The dispatch of [handle_client] on the parts of the message. *)
Lemma handle_message_run (now : string) (fuel : nat) (message : string) (h : Host) :
  handle_message now fuel message h
  = match split_space message with
    | [] => (Raise IndexError, h)
    | command :: arguments =>
        if String.eqb command "register" then
          match arguments with
          | [] => (Raise IndexError, h)
          | username :: _ => handle_register username h
          end
        else if String.eqb command "add" then
          on_server (handle_add_transaction now fuel arguments) h
        else if String.eqb command "copy" then
          handle_copy_transactions (command :: arguments) h
        else if String.eqb command "verify" then on_server handle_verify_integrity h
        else on_server (send "Unknown command") h
    end.
Proof.
  destruct h as [srv registry wd]. unfold handle_message.
  destruct (split_space message) as [|command arguments]; [reflexivity|].
  unfold bind at 1. unfold part. cbn [nth_error tl].
  rewrite on_server_run. cbn [fst snd ret server users_json working_dir].
  destruct (String.eqb command "register").
  - unfold bind at 1. rewrite on_server_run.
    destruct arguments as [|username rest]; reflexivity.
  - destruct (String.eqb command "add"); [reflexivity|].
    destruct (String.eqb command "copy"); [reflexivity|].
    destruct (String.eqb command "verify"); reflexivity.
Qed.

Lemma handle_message_frame
  (now : string) (fuel : nat) (message : string) (h : Host) :
  let r := handle_message now fuel message h in
  let command := hd EmptyString (split_space message) in
  answers (sent (server h)) (sent (server (snd r))) (fst r)
  /\ (command <> "register" ->
      users (server (snd r)) = users (server h) /\ users_json (snd r) = users_json h)
  /\ (command <> "add" -> command <> "verify" ->
      blockchain (server (snd r)) = blockchain (server h))
  /\ (command <> "copy" -> working_dir (snd r) = working_dir h).
Proof.
  cbv zeta. rewrite handle_message_run.
  destruct (split_space_nonempty message) as (command & arguments & ->). cbn [hd].
  destruct (String.eqb_spec command "register") as [->|Hr].
  { destruct arguments as [|username rest].
    - cbn. split; [response|]. repeat split; reflexivity.
    - destruct (handle_register_effects username h) as (Hb & Hw & Hs).
      split; [exact Hs|]. split; [congruence|]. split; [intros; exact Hb | intros; exact Hw]. }
  destruct (String.eqb_spec command "add") as [->|Ha].
  { rewrite on_server_run. cbn [fst snd server users_json working_dir].
    destruct (handle_add_transaction_effects now fuel arguments (server h)) as [Hu Hs].
    split; [exact Hs|]. split; [intros; split; [exact Hu | reflexivity]|].
    split; [congruence | reflexivity]. }
  destruct (String.eqb_spec command "copy") as [->|Hc].
  { destruct (handle_copy_transactions_effects ("copy" :: arguments) h)
      as (Hb & Hu & Hj & Hs).
    split; [exact Hs|]. split; [intros; split; assumption|].
    split; [intros; exact Hb | congruence]. }
  destruct (String.eqb_spec command "verify") as [->|Hv].
  { rewrite on_server_run. cbn [fst snd server users_json working_dir].
    destruct (handle_verify_integrity_effects (server h)) as [Hu Hs].
    split; [exact Hs|]. split; [intros; split; [exact Hu | reflexivity]|].
    split; [congruence | reflexivity]. }
  rewrite on_server_run. unfold send. cbn.
  split; [response|]. repeat split; reflexivity.
Qed.

(** A message that is handled gets exactly one response, and a message
    whose handling raises gets none.  A message changes the registry
    and its file only if its command is "register", the engine only if
    it is "add" or "verify", the working directory only if it is
    "copy". *)
Theorem handle_message_effects
  (now : string) (fuel : nat) (message : string) (h : Host) :
  let r := handle_message now fuel message h in
  let command := hd EmptyString (split_space message) in
  answers (sent (server h)) (sent (server (snd r))) (fst r)
  /\ (command <> "register" ->
      users (server (snd r)) = users (server h) /\ users_json (snd r) = users_json h)
  /\ (command <> "add" -> command <> "verify" ->
      blockchain (server (snd r)) = blockchain (server h))
  /\ (command <> "copy" -> working_dir (snd r) = working_dir h).
Proof. exact (handle_message_frame now fuel message h). Qed.

Lemma handle_message_effects_witness :
  blockchain (server (snd (handle_message example_now 0 "copy" fresh_host)))
  = blockchain (server fresh_host)
  /\ users (server (snd (handle_message example_now 0 "copy" fresh_host)))
     = users (server fresh_host).
Proof.
  destruct (handle_message_effects example_now 0 "copy" fresh_host) as (_ & Hu & Hb & _).
  split.
  - apply Hb; intros E; vm_compute in E; discriminate E.
  - apply Hu. intros E. vm_compute in E. discriminate E.
Defined.

(** ** The registry *)












(** ** The add handler *)

Lemma assoc_mem_true {A : Type} (k : string) (v : A) (d : list (string * A)) :
  assoc_get k d = Some v -> assoc_mem k d = true.
Proof. intros H. now rewrite assoc_mem_get, H. Qed.

(** A request to add refused before it reaches the engine: a user name
    that is not registered is answered "Username not registered",
    whatever follows it; a registered name followed by fewer than two
    parts raises [IndexError], and so does a request without a name:
    nothing is sent and nothing changes. *)
Theorem handle_add_transaction_refuses
  (now : string) (fuel : nat) (command_parts : list string) (srv : Server) :
  (command_parts = [] ->
   handle_add_transaction now fuel command_parts srv = (Raise IndexError, srv))
  /\ (forall username rest,
        command_parts = username :: rest ->
        assoc_mem username (users srv) = false ->
        handle_add_transaction now fuel command_parts srv
        = (Ret tt,
           mkServer (blockchain srv) (users srv) (sent srv ++ ["Username not registered"])))
  /\ (forall username rest,
        command_parts = username :: rest ->
        assoc_mem username (users srv) = true ->
        (List.length rest < 2)%nat ->
        handle_add_transaction now fuel command_parts srv = (Raise IndexError, srv)).
Proof.
  split; [|split].
  - intros ->. reflexivity.
  - intros username rest -> Hu.
    unfold handle_add_transaction, part, send. run. cbn [nth_error]. now rewrite Hu.
  - intros username rest -> Hu Hlen.
    unfold handle_add_transaction, part, send, subscript. run. cbn [nth_error].
    rewrite Hu. cbn [negb]. rewrite assoc_mem_get in Hu.
    destruct (assoc_get username (users srv)) as [client_id|]; [|discriminate].
    destruct rest as [|a [|b rest]]; [reflexivity | reflexivity | cbn in Hlen; lia].
Qed.

Lemma handle_add_transaction_refuses_witness :
  handle_add_transaction example_now 0 ["bob"; "buy"; "ACME"] (server mined_host)
  = (Ret tt, mkServer mined_engine [("alice", JStr "1")] ["Username not registered"])
  /\ handle_add_transaction example_now 0 ["alice"; "buy"] (server mined_host)
     = (Raise IndexError, server mined_host).
Proof.
  split.
  - exact (proj1 (proj2 (handle_add_transaction_refuses example_now 0 ["bob"; "buy"; "ACME"]
                           (server mined_host)))
             "bob" ["buy"; "ACME"] eq_refl eq_refl).
  - refine (proj2 (proj2 (handle_add_transaction_refuses example_now 0 ["alice"; "buy"]
                            (server mined_host)))
              "alice" ["buy"] eq_refl eq_refl _).
    cbn [List.length]. lia.
Defined.

Lemma handle_add_transaction_run
  (now : string) (fuel : nat) (srv : Server)
  (username operation_type stock_name : string) (more : list string) (client_id : value)
  (lb : dict) (n last_proof : Z) :
  assoc_get username (users srv) = Some client_id ->
  operation_type = "buy" \/ operation_type = "sell" ->
  stock_name <> EmptyString ->
  fst (is_valid_chain (blockchain srv)) = Ret true ->
  fst (last_block (blockchain srv)) = Ret (Some lb) ->
  assoc_get "index" lb = Some (JInt n) ->
  assoc_get "proof" lb = Some (JInt last_proof) ->
  let transaction :=
    JDict [ ("user_id", client_id); ("operation_type", JStr operation_type);
            ("stock_name", JStr stock_name) ] in
  let s := blockchain srv in
  handle_add_transaction now fuel (username :: operation_type :: stock_name :: more) srv
  = match proof_of_work fuel last_proof with
    | Some proof =>
        let body : dict :=
          [ ("index", JInt (Z.of_nat (List.length (chain s)))); ("timestamp", JStr now);
            ("data", JList (current_transactions s ++ [transaction]));
            ("previous_hash", JStr (hash lb)); ("proof", JInt proof) ] in
        let block := body ++ [("hash", JStr (hash body))] in
        (Ret tt,
         mkServer
           (mkBlockchain (chain s ++ [block]) []
              (written (hd Taken (writes s)) (block_filename (List.length (chain s))) block
                 (blockchain_dir s))
              (tl (writes s)))
           (users srv) (sent srv ++ ["Transaction added"]))
    | None =>
        (Beyond,
         mkServer (set_current_transactions (current_transactions s ++ [transaction]) s)
           (users srv) (sent srv))
    end.
Proof.
  intros Hu Hop Hst Hv Hlb Hidx Hproof. cbv zeta.
  unfold handle_add_transaction, part, subscript. run. cbn [nth_error].
  rewrite (assoc_mem_true _ _ _ Hu), Hu. cbn [negb].
  rewrite is_valid_transaction_dict.
  cbn [assoc_get String.eqb Ascii.eqb Bool.eqb py_eq truthy].
  assert (E : (String.eqb "buy" operation_type || String.eqb "sell" operation_type)
              && negb (String.eqb stock_name EmptyString) = true).
  { apply andb_true_iff. split.
    - destruct Hop as [-> | ->]; reflexivity.
    - destruct (String.eqb_spec stock_name EmptyString); [contradiction | reflexivity]. }
  cbn in E |- *. rewrite E. cbn [negb].
  unfold on_blockchain at 1. rewrite add_transaction_run.
  unfold last_block in Hlb. run. injection Hlb as Hlb. rewrite Hlb.
  cbn [subscript obind]. rewrite Hidx. cbn [add_one blockchain users sent].
  unfold on_blockchain at 1. unfold last_block. run.
  cbn [chain set_current_transactions blockchain users sent]. rewrite Hlb.
  rewrite Hproof. cbn [as_int].
  destruct (proof_of_work fuel last_proof) as [proof|]; [|reflexivity].
  unfold on_blockchain. rewrite create_block_run.
  cbn [chain current_transactions blockchain_dir writes set_current_transactions blockchain].
  rewrite is_valid_chain_pure in Hv. cbn [fst] in Hv. rewrite Hv. cbv zeta.
  assert (Hprev : (if truthy (JStr (hash lb)) then JStr (hash lb)
                   else JStr (calculated_previous_hash
                                (last (map Some (chain (blockchain srv))) None)))
                  = JStr (hash lb)).
  { destruct (truthy (JStr (hash lb))); [reflexivity|]. rewrite Hlb.
    destruct lb; [discriminate | reflexivity]. }
  rewrite Hprev. unfold send. reflexivity.
Qed.

(** A request to add that reaches the engine: for a registered user, an
    operation "buy" or "sell" and a stock name that is not empty, on a
    valid chain whose last block has an integer index and an integer
    proof, when the search finds a proof the handler answers
    "Transaction added" and the chain has one block more.  The new block
    holds the pool with the new transaction at its end, the proof found
    (valid after the proof of the last block), the hash of the last
    block as previous hash and its own hash, and the pool is empty
    again.  The block is in the directory under the name of its index
    when the write is taken; when the write is refused the answer is
    "Transaction added" all the same, with the block in the chain and
    the directory as it was.  Parts after the third are ignored. *)
Theorem handle_add_transaction_mines
  (now : string) (fuel : nat) (srv : Server)
  (username operation_type stock_name : string) (more : list string) (client_id : value)
  (lb : dict) (n last_proof proof : Z) :
  assoc_get username (users srv) = Some client_id ->
  operation_type = "buy" \/ operation_type = "sell" ->
  stock_name <> EmptyString ->
  fst (is_valid_chain (blockchain srv)) = Ret true ->
  fst (last_block (blockchain srv)) = Ret (Some lb) ->
  assoc_get "index" lb = Some (JInt n) ->
  assoc_get "proof" lb = Some (JInt last_proof) ->
  proof_of_work fuel last_proof = Some proof ->
  exists block s',
    handle_add_transaction now fuel (username :: operation_type :: stock_name :: more) srv
    = (Ret tt, mkServer s' (users srv) (sent srv ++ ["Transaction added"]))
    /\ chain s' = chain (blockchain srv) ++ [block]
    /\ current_transactions s' = []
    /\ assoc_get "data" block
       = Some (JList (current_transactions (blockchain srv)
                      ++ [JDict [ ("user_id", client_id);
                                  ("operation_type", JStr operation_type);
                                  ("stock_name", JStr stock_name) ]]))
    /\ assoc_get "proof" block = Some (JInt proof)
    /\ valid_proof last_proof proof = true
    /\ assoc_get "previous_hash" block = Some (JStr (hash lb))
    /\ hash_stored block
    /\ blockchain_dir s'
       = written (hd Taken (writes (blockchain srv)))
           (block_filename (List.length (chain (blockchain srv)))) block
           (blockchain_dir (blockchain srv))
    /\ (hd Taken (writes (blockchain srv)) = Taken ->
        assoc_get (block_filename (List.length (chain (blockchain srv)))) (blockchain_dir s')
        = Some (stored block))
    /\ (hd Taken (writes (blockchain srv)) = Refused ->
        blockchain_dir s' = blockchain_dir (blockchain srv)).
Proof.
  intros Hu Hop Hst Hv Hlb Hidx Hproof Hpow.
  rewrite (handle_add_transaction_run now fuel srv username operation_type stock_name more
             client_id lb n last_proof Hu Hop Hst Hv Hlb Hidx Hproof).
  rewrite Hpow. cbv zeta. eexists. eexists. split; [reflexivity|].
  cbn [chain current_transactions blockchain_dir].
  split; [reflexivity|]. split; [reflexivity|]. split; [reflexivity|].
  split; [reflexivity|].
  split; [exact (proj1 (proof_of_work_from_least _ _ _ _ Hpow))|].
  split; [reflexivity|]. split; [reflexivity|]. split; [reflexivity|].
  split; intros ->; [apply assoc_get_set_same | reflexivity].
Qed.

Lemma mined_engine_fields :
  exists lb,
    fst (last_block mined_engine) = Ret (Some lb)
    /\ assoc_get "index" lb = Some (JInt 1)
    /\ assoc_get "proof" lb = Some (JInt 30916).
Proof.
  destruct (fst (last_block mined_engine)) as [[lb|]| |] eqn:L;
    try (exfalso; vm_compute in L; discriminate L).
  exists lb. split; [reflexivity|].
  vm_compute in L. injection L as <-. split; reflexivity.
Defined.

Lemma handle_add_transaction_mines_witness :
  exists block s',
    handle_add_transaction example_now 3 ["alice"; "buy"; "ACME"] (server mined_host)
    = (Ret tt, mkServer s' [("alice", JStr "1")] ["Transaction added"])
    /\ chain s' = chain mined_engine ++ [block]
    /\ assoc_get "proof" block = Some (JInt 2).
Proof.
  destruct mined_engine_fields as (lb & Hlb & Hidx & Hproof).
  assert (Hv : fst (is_valid_chain mined_engine) = Ret true) by (vm_compute; reflexivity).
  assert (Hpow : proof_of_work 3 30916 = Some 2) by (vm_compute; reflexivity).
  destruct (handle_add_transaction_mines example_now 3 (server mined_host)
              "alice" "buy" "ACME" [] (JStr "1") lb 1 30916 2
              eq_refl (or_introl eq_refl) ltac:(discriminate) Hv Hlb Hidx Hproof Hpow)
    as (block & s' & Hrun & Hchain & _ & _ & Hp & _).
  exists block, s'. split; [exact Hrun|]. split; [exact Hchain | exact Hp].
Defined.

(** ** The engine of a server between two requests *)

Lemma chain_links_of_nth (rest : list dict) (first : dict) :
  (forall i p b, nth_error (first :: rest) i = Some p ->
                 nth_error (first :: rest) (S i) = Some b -> linked p b = true) ->
  chain_links first rest.
Proof.
  revert first. induction rest as [|x rest IH]; intros first H; cbn [chain_links]; [exact I|].
  split; [exact (H O first x eq_refl eq_refl)|].
  apply IH. intros i p b Hp Hb. exact (H (S i) p b Hp Hb).
Qed.

Lemma valid_chain_links (first : dict) (rest : list dict) :
  Forall hash_stored (first :: rest) ->
  check_from (first :: rest) (seq 1 (List.length rest)) = Ret true ->
  chain_links first rest.
Proof.
  intros Hh Hv. apply chain_links_of_nth. intros i p b Hp Hb.
  apply check_from_true in Hv. rewrite Forall_forall in Hv.
  assert (Hi : In (S i) (seq 1 (List.length rest))).
  { apply in_seq. assert (Hlt : (S i < List.length (first :: rest))%nat)
      by (apply nth_error_Some; congruence).
    cbn [List.length] in Hlt. lia. }
  apply Hv, check_block_true in Hi.
  destruct Hi as [(cur & prev & ph & h & Hc & Hprev & Hph & Hhash & E) _].
  cbn [Nat.sub] in Hprev. rewrite Nat.sub_0_r in Hprev.
  rewrite Hb in Hc. injection Hc as <-. rewrite Hp in Hprev. injection Hprev as <-.
  rewrite Forall_forall in Hh. pose proof (Hh p (nth_error_In _ _ Hp)) as Hs.
  unfold hash_stored in Hs. rewrite Hs in Hhash. injection Hhash as <-.
  unfold linked. now rewrite Hph.
Qed.

Lemma valid_snoc (c : list dict) (lb block : dict) (n : nat) :
  List.length c = S n ->
  nth_error c n = Some lb ->
  hash_stored lb ->
  assoc_get "previous_hash" block = Some (JStr (hash lb)) ->
  data_valid block ->
  check_from c (seq 1 (List.length c - 1)) = Ret true ->
  check_from (c ++ [block]) (seq 1 (List.length (c ++ [block]) - 1)) = Ret true.
Proof.
  intros Hlen Hnth Hh Hph Hd Hv.
  rewrite length_app, Hlen. cbn [List.length].
  replace (S n + 1 - 1)%nat with (S n) by lia.
  rewrite seq_S. cbn [Nat.add].
  apply check_from_true, Forall_app. split.
  - rewrite Hlen in Hv. cbn [Nat.sub] in Hv. rewrite Nat.sub_0_r in Hv.
    apply check_from_true in Hv. rewrite Forall_forall in Hv |- *.
    intros i Hi. rewrite check_block_app; [now apply Hv|].
    apply in_seq in Hi. lia.
  - constructor; [|constructor]. apply check_block_true.
    assert (Hcur : nth_error (c ++ [block]) (S n) = Some block).
    { rewrite nth_error_app2 by lia. now rewrite Hlen, Nat.sub_diag. }
    assert (Hprv : nth_error (c ++ [block]) (S n - 1) = Some lb).
    { cbn [Nat.sub]. rewrite Nat.sub_0_r. rewrite nth_error_app1 by lia. exact Hnth. }
    split.
    + exists block, lb, (JStr (hash lb)), (JStr (hash lb)).
      split; [exact Hcur|]. split; [exact Hprv|].
      split; [exact Hph|]. split; [exact Hh|]. apply String.eqb_refl.
    + exists block. split; [exact Hcur | exact Hd].
Qed.

Lemma sound_last_block (s : Blockchain) :
  sound s ->
  exists lb n, List.length (chain s) = S n
               /\ nth_error (chain s) n = Some lb
               /\ fst (last_block s) = Ret (Some lb)
               /\ mined lb.
Proof.
  intros (Hne & _ & Hm & _).
  destruct (chain s) as [|b c] eqn:Hc; [congruence|].
  assert (Hn : exists lb, nth_error (b :: c) (List.length c) = Some lb).
  { destruct (nth_error (b :: c) (List.length c)) as [lb|] eqn:E; [now exists lb|].
    apply nth_error_None in E. cbn [List.length] in E. lia. }
  destruct Hn as [lb Hlb]. exists lb, (List.length c).
  split; [reflexivity|]. split; [exact Hlb|]. split.
  - unfold last_block. run. rewrite Hc, last_nth_error. cbn [List.length Nat.sub].
    now rewrite Nat.sub_0_r, Hlb.
  - rewrite Forall_forall in Hm. exact (Hm lb (nth_error_In _ _ Hlb)).
Qed.

(** On a sound engine [verify_integrity] finds every link in place: it
    returns [True] and writes nothing. *)
Lemma verify_integrity_sound (s : Blockchain) :
  sound s -> verify_integrity s = (Ret true, s).
Proof.
  intros (Hne & _ & Hm & Hv).
  assert (Hwf : Forall has_link_fields (tl (chain s))).
  { destruct (chain s) as [|b c]; [constructor|]. cbn [tl]. inversion Hm; subst.
    eapply Forall_impl; [|eassumption]. now intros x (_ & Hx & _). }
  destruct (verify_integrity_total s Hne Hwf)
    as (first & rest & dir' & future' & Hc & Hrun & Hdir).
  rewrite is_valid_chain_pure in Hv. cbn [fst] in Hv. rewrite Hc in Hv, Hm.
  cbn [List.length Nat.sub] in Hv. rewrite Nat.sub_0_r in Hv.
  assert (Hl : chain_links first rest).
  { apply valid_chain_links; [|exact Hv].
    eapply Forall_impl; [|exact Hm]. now intros x (Hx & _). }
  destruct (Hdir Hl) as [-> ->].
  rewrite Hrun, (repair_fixed _ _ Hl), <- Hc. now destruct s.
Qed.

Lemma handle_add_transaction_sound
  (now : string) (fuel : nat) (command_parts : list string) (srv : Server) :
  sound (blockchain srv) ->
  let r := handle_add_transaction now fuel command_parts srv in
  fst r <> Beyond ->
  sound (blockchain (snd r))
  /\ exists new, chain (blockchain (snd r)) = chain (blockchain srv) ++ new
                 /\ (List.length new <= 1)%nat.
Proof.
  intros Hs. cbv zeta.
  assert (Hsame : forall srv' : Server,
             blockchain srv' = blockchain srv ->
             sound (blockchain srv')
             /\ exists new, chain (blockchain srv') = chain (blockchain srv) ++ new
                            /\ (List.length new <= 1)%nat).
  { intros srv' ->. split; [exact Hs|].
    exists []. rewrite app_nil_r. split; [reflexivity | cbn; lia]. }
  destruct command_parts as [|username rest].
  { intros _. now apply Hsame. }
  destruct (assoc_get username (users srv)) as [client_id|] eqn:Hu.
  2:{ intros _. unfold handle_add_transaction, part, send. run. cbn [nth_error].
      rewrite assoc_mem_get, Hu. cbn [negb]. now apply Hsame. }
  destruct rest as [|operation_type [|stock_name more]].
  1,2: intros _; unfold handle_add_transaction, part, send, subscript; run;
       cbn [nth_error]; rewrite (assoc_mem_true _ _ _ Hu), Hu; cbn [negb obind];
       now apply Hsame.
  set (transaction := JDict [ ("user_id", client_id); ("operation_type", JStr operation_type);
                              ("stock_name", JStr stock_name) ]).
  destruct ((String.eqb "buy" operation_type || String.eqb "sell" operation_type)
            && negb (String.eqb stock_name EmptyString)) eqn:E.
  2:{ intros _. unfold handle_add_transaction, part, send, subscript. run.
      cbn [nth_error]. rewrite (assoc_mem_true _ _ _ Hu), Hu. cbn [negb obind].
      rewrite is_valid_transaction_dict.
      cbn [assoc_get String.eqb Ascii.eqb Bool.eqb py_eq truthy].
      cbn in E |- *. rewrite E. cbn [negb]. now apply Hsame. }
  apply andb_true_iff in E. destruct E as [Eop Est].
  assert (Hop : operation_type = "buy" \/ operation_type = "sell").
  { apply orb_true_iff in Eop. destruct Eop as [H | H]; apply String.eqb_eq in H; auto. }
  assert (Hst : stock_name <> EmptyString).
  { intros ->. discriminate Est. }
  destruct (sound_last_block _ Hs)
    as (lb & n & Hlen & Hnth & Hlb & Hh & (_ & [i Hi]) & [p Hp] & _).
  destruct Hs as (Hne & Hpool & Hm & Hv).
  rewrite (handle_add_transaction_run now fuel srv username operation_type stock_name more
             client_id lb i p Hu Hop Hst Hv Hlb Hi Hp).
  destruct (proof_of_work fuel p) as [proof|]; [|intros H; now elim H].
  intros _. cbv zeta. cbn [snd blockchain chain]. split.
  - split; [now destruct (chain (blockchain srv))|]. split; [reflexivity|].
    cbn [chain current_transactions]. split.
    + apply Forall_app. split; [exact Hm|]. constructor; [|constructor].
      split; [reflexivity|]. split; [split; eexists; reflexivity|].
      split; [eexists; reflexivity|].
      unfold complete. repeat (constructor; [eexists; reflexivity|]). constructor.
    + rewrite is_valid_chain_pure. cbn [fst chain].
      rewrite is_valid_chain_pure in Hv. cbn [fst] in Hv.
      apply (valid_snoc _ lb _ n Hlen Hnth Hh); [reflexivity | | exact Hv].
      eexists. eexists. split; [reflexivity|]. split; [reflexivity|].
      rewrite Hpool. constructor; [|constructor].
      rewrite is_valid_transaction_dict.
      cbn [assoc_get String.eqb Ascii.eqb Bool.eqb py_eq truthy].
      cbn in Eop, Est |- *. now rewrite Eop, Est.
  - eexists. split; [reflexivity | cbn; lia].
Qed.

Lemma handle_message_sound
  (now : string) (fuel : nat) (message : string) (h : Host) :
  sound (blockchain (server h)) ->
  let r := handle_message now fuel message h in
  fst r <> Beyond ->
  sound (blockchain (server (snd r)))
  /\ exists new, chain (blockchain (server (snd r))) = chain (blockchain (server h)) ++ new
                 /\ (List.length new <= 1)%nat.
Proof.
  intros Hs. cbv zeta.
  destruct (String.eqb_spec (hd EmptyString (split_space message)) "add") as [Ea|Ha].
  { rewrite handle_message_run.
    destruct (split_space message) as [|command arguments]; [discriminate Ea|].
    cbn [hd] in Ea. subst command. cbn [String.eqb Ascii.eqb Bool.eqb].
    rewrite on_server_run. cbn [fst snd server].
    apply handle_add_transaction_sound, Hs. }
  destruct (String.eqb_spec (hd EmptyString (split_space message)) "verify") as [Ev|Hv].
  { rewrite handle_message_run.
    destruct (split_space message) as [|command arguments]; [discriminate Ev|].
    cbn [hd] in Ev. subst command. cbn [String.eqb Ascii.eqb Bool.eqb].
    rewrite on_server_run. unfold handle_verify_integrity, on_blockchain, send. run.
    rewrite (verify_integrity_sound _ Hs). cbn [fst snd server blockchain].
    intros _. split; [exact Hs|]. exists []. rewrite app_nil_r.
    split; [reflexivity | cbn; lia]. }
  intros _.
  destruct (handle_message_frame now fuel message h) as (_ & _ & Hb & _).
  rewrite (Hb Ha Hv). split; [exact Hs|]. exists []. rewrite app_nil_r.
  split; [reflexivity | cbn; lia].
Qed.

Lemma handle_client_sound (messages : list (string * nat * string)) (h : Host) :
  sound (blockchain (server h)) ->
  let r := handle_client messages h in
  fst r <> Beyond ->
  sound (blockchain (server (snd r)))
  /\ exists new, chain (blockchain (server (snd r))) = chain (blockchain (server h)) ++ new
                 /\ (List.length new <= List.length messages)%nat.
Proof.
  revert h. induction messages as [|[[now fuel] message] rest IH]; intros h Hs; cbv zeta.
  - intros _. split; [exact Hs|]. exists []. rewrite app_nil_r. split; [reflexivity | cbn; lia].
  - cbn [handle_client]. unfold bind.
    pose proof (handle_message_sound now fuel message h Hs) as H1. cbv zeta in H1.
    destruct (handle_message now fuel message h) as [[[]| |] h1]; cbn [fst snd] in *.
    + intros Hr. destruct H1 as (Hs1 & new1 & Hc1 & Hl1); [discriminate|].
      destruct (IH h1 Hs1 Hr) as (Hs2 & new2 & Hc2 & Hl2).
      split; [exact Hs2|]. exists (new1 ++ new2).
      rewrite Hc2, Hc1, <- app_assoc. split; [reflexivity|].
      rewrite length_app. cbn [List.length]. lia.
    + intros _. destruct H1 as (Hs1 & new1 & Hc1 & Hl1); [discriminate|].
      split; [exact Hs1|]. exists new1. split; [exact Hc1 | cbn [List.length]; lia].
    + intros Hr. now elim Hr.
Qed.

(** The engine of a server stays sound through the requests of a
    connection: from a chain of mined blocks that is valid, with an
    empty pool, every request that is answered or ends in an exception
    leaves such an engine again, whatever the messages are.  The chain
    only grows at its end, by at most one block per message: no block
    that is in the chain is changed or removed, also not by "verify". *)
Theorem served_engine_sound (messages : list (string * nat * string)) (h : Host) :
  sound (blockchain (server h)) ->
  let r := handle_client messages h in
  fst r <> Beyond ->
  sound (blockchain (server (snd r)))
  /\ exists new, chain (blockchain (server (snd r))) = chain (blockchain (server h)) ++ new
                 /\ (List.length new <= List.length messages)%nat.
Proof. exact (handle_client_sound messages h). Qed.

Lemma mined_engine_sound : sound mined_engine.
Proof.
  split; [vm_compute; discriminate|]. split; [vm_compute; reflexivity|].
  split; [|vm_compute; reflexivity].
  assert (E : exists b0 b1, chain mined_engine = [b0; b1] /\ mined b0 /\ mined b1).
  { eexists. eexists. split; [vm_compute; reflexivity|].
    split; (split; [vm_compute; reflexivity|]);
      (split; [split; eexists; reflexivity|]); (split; [eexists; reflexivity|]);
      unfold complete; repeat (constructor; [eexists; reflexivity|]); constructor. }
  destruct E as (b0 & b1 & -> & H0 & H1).
  constructor; [exact H0|]. constructor; [exact H1 | constructor].
Defined.

Lemma served_engine_sound_witness :
  let r := handle_client
             [ (example_now, 3%nat, "add alice buy ACME");
               (example_now, 0%nat, "verify");
               (example_now, 0%nat, "copy alice") ] mined_host in
  sound (blockchain (server (snd r)))
  /\ exists new, chain (blockchain (server (snd r))) = chain mined_engine ++ new
                 /\ (List.length new <= 3)%nat.
Proof.
  cbv zeta.
  refine (served_engine_sound
            [ (example_now, 3%nat, "add alice buy ACME");
              (example_now, 0%nat, "verify");
              (example_now, 0%nat, "copy alice") ] mined_host mined_engine_sound _).
  vm_compute. discriminate.
Defined.

(** ** The copies of transactions *)

Lemma transaction_info_complete (transaction : value) (block : dict) :
  complete block -> transaction_info transaction block = Ret (info block transaction).
Proof.
  intros H. unfold complete in H.
  inversion H as [|? ? _ H1]; subst. inversion H1 as [|? ? [t Ht] H2]; subst.
  inversion H2 as [|? ? [ph Hph] H3]; subst. inversion H3 as [|? ? [p Hp] H4]; subst.
  inversion H4 as [|? ? [hh Hh] _]; subst.
  unfold transaction_info, info, subscript, obind. now rewrite Ht, Hph, Hp, Hh.
Qed.

Lemma scan_data_complete
  (keep : value -> bool) (block : dict) (data found : list value) :
  complete block ->
  scan_data keep block data found = Ret (found ++ map (info block) (filter keep data)).
Proof.
  intros H. revert found. induction data as [|t data IH]; intros found; cbn [scan_data filter].
  - now rewrite app_nil_r.
  - destruct (keep t); [|apply IH].
    rewrite (transaction_info_complete t block H). cbn [obind map].
    rewrite IH, <- app_assoc. reflexivity.
Qed.

Lemma scan_chain_complete (keep : value -> bool) (c : list dict) (found : list value) :
  Forall complete c -> scan_chain keep c found = Ret (found ++ copied keep c).
Proof.
  intros H. revert found. induction H as [|block c Hb _ IH]; intros found.
  - cbn. now rewrite app_nil_r.
  - cbn [scan_chain copied flat_map]. unfold subscript, listed.
    pose proof Hb as Hd. unfold complete in Hd. inversion Hd as [|? ? [d Hdata] _]; subst.
    rewrite Hdata. cbn [obind].
    destruct d as [| b | n | s | transactions | d];
      try (rewrite IH; reflexivity).
    rewrite (scan_data_complete keep block transactions found Hb). cbn [obind].
    rewrite IH, <- app_assoc. reflexivity.
Qed.

Lemma copy_user_transactions_run (username : string) (client_id : value) (h : Host) :
  assoc_get username (users (server h)) = Some client_id ->
  Forall complete (chain (blockchain (server h))) ->
  let srv := server h in
  let found := copied (of_user client_id) (chain (blockchain srv)) in
  let file_path := String.append "transactions_" (String.append username ".json") in
  let response :=
    String.append "Transactions copied for user "
      (String.append username (String.append " and saved to " file_path)) in
  (found = [] ->
   copy_user_transactions username h
   = (Ret tt,
      mkHost (mkServer (blockchain srv) (users srv)
                (sent srv ++ ["No transactions found for this user."]))
        (users_json h) (working_dir h)))
  /\ (found <> [] ->
      copy_user_transactions username h
      = match open_error (working_dir h) file_path with
        | Some e => (Raise e, h)
        | None =>
            let wd := assoc_set file_path (JList found) (working_dir h) in
            if (List.length (SHA256.encode response) <=? 214)%nat
            then (Ret tt,
                  mkHost (mkServer (blockchain srv) (users srv) (sent srv ++ [response]))
                    (users_json h) wd)
            else (Raise (ValueError "Plaintext is too long."),
                  mkHost srv (users_json h) wd)
        end).
Proof.
  intros Hu Hc. cbv zeta.
  assert (Hrun : forall k : list value -> M Host unit,
             copy_user_transactions username h
             = (user_transactions <-
                  lift (Ret (copied (of_user client_id) (chain (blockchain (server h))))) ;;
                response <-
                  (if truthy (JList user_transactions) then
                     let file_path :=
                       String.append "transactions_" (String.append username ".json") in
                     write_file file_path (JList user_transactions) ;;
                     ret (String.append "Transactions copied for user "
                            (String.append username
                               (String.append " and saved to " file_path)))
                   else ret "No transactions found for this user.") ;;
                on_server (send_bounded response))%method h).
  { intros _. unfold copy_user_transactions, subscript. run.
    rewrite (assoc_mem_true _ _ _ Hu), Hu. cbn [negb].
    now rewrite (scan_chain_complete _ _ [] Hc). }
  rewrite (Hrun (fun _ => ret tt)). clear Hrun.
  destruct h as [srv registry wd]. cbn [server users_json working_dir] in *.
  split.
  - intros ->. reflexivity.
  - intros Hne.
    destruct (copied (of_user client_id) (chain (blockchain srv))) as [|t found] eqn:E;
      [congruence|].
    unfold write_file, send_bounded, on_server, send. run.
    cbn [truthy List.length Nat.eqb negb server users_json working_dir].
    destruct (open_error wd _); [reflexivity|].
    cbn [server users_json working_dir]. cbv zeta.
    destruct (_ <=? 214)%nat; reflexivity.
Qed.

Lemma copy_all_transactions_run (h : Host) :
  Forall complete (chain (blockchain (server h))) ->
  let srv := server h in
  let found := copied is_dict (chain (blockchain srv)) in
  (found = [] ->
   copy_all_transactions h
   = (Ret tt,
      mkHost (mkServer (blockchain srv) (users srv) (sent srv ++ ["No transactions found."]))
        (users_json h) (working_dir h)))
  /\ (found <> [] ->
      copy_all_transactions h
      = (Ret tt,
         mkHost (mkServer (blockchain srv) (users srv)
                   (sent srv
                    ++ ["All transactions copied and saved to transactions_all_users.json"]))
           (users_json h)
           (assoc_set "transactions_all_users.json" (JList found) (working_dir h)))).
Proof.
  intros Hc. cbv zeta. unfold copy_all_transactions. run.
  rewrite (scan_chain_complete _ _ [] Hc). cbn [app].
  destruct h as [srv registry wd]. cbn [server users_json working_dir] in *.
  split.
  - intros ->. reflexivity.
  - intros Hne.
    destruct (copied is_dict (chain (blockchain srv))) as [|t found] eqn:E; [congruence|].
    reflexivity.
Qed.

(** The copy for a registered user, on a chain whose blocks have the
    fields a copy reads: it holds, block after block and in the order of
    the data, the transactions that are dictionaries with the id of the
    user as [user_id], each with the timestamp, the previous hash, the
    proof and the hash of its block; a block whose data is not a list
    (the genesis block) gives nothing.  When there is none, the answer
    is "No transactions found for this user." and no file is written.
    Otherwise the list goes to [transactions_<username>.json]: when
    [open] raises on that path (a user name with a slash or a null
    character, or too long a name), the exception leaves the handler
    with nothing written and nothing sent; when the file is written and
    the response, which names the user twice, is longer than the 214
    bytes the key takes, the handler raises [ValueError] with the file
    written and nothing sent; else the response is sent. *)
Theorem copy_user_transactions_copies (username : string) (client_id : value) (h : Host) :
  assoc_get username (users (server h)) = Some client_id ->
  Forall complete (chain (blockchain (server h))) ->
  let srv := server h in
  let found := copied (of_user client_id) (chain (blockchain srv)) in
  let file_path := String.append "transactions_" (String.append username ".json") in
  let response :=
    String.append "Transactions copied for user "
      (String.append username (String.append " and saved to " file_path)) in
  (found = [] ->
   copy_user_transactions username h
   = (Ret tt,
      mkHost (mkServer (blockchain srv) (users srv)
                (sent srv ++ ["No transactions found for this user."]))
        (users_json h) (working_dir h)))
  /\ (found <> [] ->
      copy_user_transactions username h
      = match open_error (working_dir h) file_path with
        | Some e => (Raise e, h)
        | None =>
            let wd := assoc_set file_path (JList found) (working_dir h) in
            if (List.length (SHA256.encode response) <=? 214)%nat
            then (Ret tt,
                  mkHost (mkServer (blockchain srv) (users srv) (sent srv ++ [response]))
                    (users_json h) wd)
            else (Raise (ValueError "Plaintext is too long."),
                  mkHost srv (users_json h) wd)
        end).
Proof. exact (copy_user_transactions_run username client_id h). Qed.

Lemma trading_host_complete :
  Forall complete (chain (blockchain (server trading_host))).
Proof.
  assert (E : exists b0 b1 b2,
             chain (blockchain (server trading_host)) = [b0; b1; b2]
             /\ complete b0 /\ complete b1 /\ complete b2).
  { eexists. eexists. eexists. split; [vm_compute; reflexivity|].
    split; [|split]; unfold complete;
      repeat (constructor; [eexists; reflexivity|]); constructor. }
  destruct E as (b0 & b1 & b2 & -> & H0 & H1 & H2).
  constructor; [exact H0|]. constructor; [exact H1|]. constructor; [exact H2 | constructor].
Defined.

Lemma long_name_host_complete :
  Forall complete (chain (blockchain (server long_name_host))).
Proof.
  assert (E : exists b0 b1 b2,
             chain (blockchain (server long_name_host)) = [b0; b1; b2]
             /\ complete b0 /\ complete b1 /\ complete b2).
  { eexists. eexists. eexists. split; [vm_compute; reflexivity|].
    split; [|split]; unfold complete;
      repeat (constructor; [eexists; reflexivity|]); constructor. }
  destruct E as (b0 & b1 & b2 & -> & H0 & H1 & H2).
  constructor; [exact H0|]. constructor; [exact H1|]. constructor; [exact H2 | constructor].
Defined.

Lemma copy_user_transactions_copies_witness :
  (exists transaction block_info h',
      copy_user_transactions "alice" trading_host = (Ret tt, h')
      /\ assoc_get "transactions_alice.json" (working_dir h')
         = Some (JList [JDict [("transaction", transaction); ("block_info", block_info)]])
      /\ transaction
         = JDict [ ("user_id", JStr "1"); ("operation_type", JStr "buy");
                   ("stock_name", JStr "ACME") ])
  /\ (exists h',
        copy_user_transactions long_name long_name_host
        = (Raise (ValueError "Plaintext is too long."), h')
        /\ sent (server h') = sent (server long_name_host)
        /\ assoc_mem (String.append "transactions_" (String.append long_name ".json"))
             (working_dir h') = true).
Proof.
  split.
  - assert (Hu : assoc_get "alice" (users (server trading_host)) = Some (JStr "1"))
      by (vm_compute; reflexivity).
    assert (Hopen : open_error (working_dir trading_host)
                      (String.append "transactions_" (String.append "alice" ".json")) = None)
      by (vm_compute; reflexivity).
    assert (Hfits : (List.length
                       (SHA256.encode
                          (String.append "Transactions copied for user "
                             (String.append "alice"
                                (String.append " and saved to "
                                   (String.append "transactions_"
                                      (String.append "alice" ".json"))))))
                     <=? 214)%nat = true)
      by (vm_compute; reflexivity).
    assert (Hfound : copied (of_user (JStr "1")) (chain (blockchain (server trading_host)))
                     <> [])
      by (vm_compute; discriminate).
    pose proof (proj2 (copy_user_transactions_copies "alice" (JStr "1") trading_host
                         Hu trading_host_complete) Hfound) as Hrun.
    cbv zeta in Hrun. rewrite Hopen, Hfits in Hrun.
    eexists. eexists. eexists. split; [exact Hrun|].
    cbn [working_dir]. rewrite assoc_get_set_same.
    split; [vm_compute; reflexivity | reflexivity].
  - assert (Hu : assoc_get long_name (users (server long_name_host)) = Some (JStr "2"))
      by (vm_compute; reflexivity).
    assert (Hopen : open_error (working_dir long_name_host)
                      (String.append "transactions_" (String.append long_name ".json")) = None)
      by (vm_compute; reflexivity).
    assert (Hfits : (List.length
                       (SHA256.encode
                          (String.append "Transactions copied for user "
                             (String.append long_name
                                (String.append " and saved to "
                                   (String.append "transactions_"
                                      (String.append long_name ".json"))))))
                     <=? 214)%nat = false)
      by (vm_compute; reflexivity).
    assert (Hfound : copied (of_user (JStr "2")) (chain (blockchain (server long_name_host)))
                     <> [])
      by (vm_compute; discriminate).
    pose proof (proj2 (copy_user_transactions_copies long_name (JStr "2") long_name_host
                         Hu long_name_host_complete) Hfound) as Hrun.
    cbv zeta in Hrun. rewrite Hopen, Hfits in Hrun.
    eexists. split; [exact Hrun|]. cbn [server working_dir sent].
    split; [reflexivity|]. now rewrite assoc_mem_get, assoc_get_set_same.
Defined.

(** The copy for all users, on a chain whose blocks have the fields a
    copy reads: every transaction that is a dictionary, of every block
    whose data is a list, in the order of the chain, with the fields of
    its block.  [transactions_all_users.json] is written only when there
    is one. *)
Theorem copy_all_transactions_copies (h : Host) :
  Forall complete (chain (blockchain (server h))) ->
  let srv := server h in
  let found := copied is_dict (chain (blockchain srv)) in
  (found = [] ->
   copy_all_transactions h
   = (Ret tt,
      mkHost (mkServer (blockchain srv) (users srv) (sent srv ++ ["No transactions found."]))
        (users_json h) (working_dir h)))
  /\ (found <> [] ->
      copy_all_transactions h
      = (Ret tt,
         mkHost (mkServer (blockchain srv) (users srv)
                   (sent srv
                    ++ ["All transactions copied and saved to transactions_all_users.json"]))
           (users_json h)
           (assoc_set "transactions_all_users.json" (JList found) (working_dir h)))).
Proof. exact (copy_all_transactions_run h). Qed.

Lemma copy_all_transactions_copies_witness :
  copy_all_transactions fresh_host
  = (Ret tt, mkHost (mkServer genesis_engine [] ["No transactions found."]) None []).
Proof.
  assert (Hc : Forall complete (chain (blockchain (server fresh_host)))).
  { assert (E : exists b0, chain (blockchain (server fresh_host)) = [b0] /\ complete b0).
    { eexists. split; [vm_compute; reflexivity|]. unfold complete.
      repeat (constructor; [eexists; reflexivity|]); constructor. }
    destruct E as (b0 & -> & H0). constructor; [exact H0 | constructor]. }
  assert (Hnone : copied is_dict (chain (blockchain (server fresh_host))) = [])
    by (vm_compute; reflexivity).
  exact (proj1 (copy_all_transactions_copies fresh_host Hc) Hnone).
Defined.

(** ** The client and the server *)












